(** * web-scraper-go: the crawler, the scrapers and the CSV export

    A shallow embedding of the Go sources (main.go, crawler.go,
    advanced_scraper.go) and the properties stated about them.

    Go strings are byte sequences: they are modelled by [string], whose
    characters ([ascii]) are the 256 byte values, and by [list ascii] inside
    the [strings] package functions.  Go's [int] is taken as the 64-bit
    signed integer, a [Z] with wrap-around. *)

From Stdlib Require Import ZArith NArith List String Ascii Bool Lia.
From stdpp Require Import base gmap strings list.
Import ListNotations.

Local Open Scope bool_scope.
Local Open Scope string_scope.
Local Open Scope list_scope.

(** ** Package [strings] of the Go standard library, as used by the sources *)

Module strings.

Definition bytes := list ascii.

Definition byteval (c : ascii) : N := N_of_ascii c.

(** [s] starts with [p] (strings.HasPrefix). *)
Fixpoint HasPrefix (s p : bytes) {struct p} : bool :=
  match p, s with
  | [], _ => true
  | c :: p', d :: s' => Ascii.eqb c d && HasPrefix s' p'
  | _ :: _, [] => false
  end.

(** strings.Contains: [sub] occurs somewhere in [s]. *)
Fixpoint Contains (s sub : bytes) : bool :=
  HasPrefix s sub ||
  match s with
  | [] => false
  | _ :: r => Contains r sub
  end.

(** strings.ReplaceAll for a non-empty [old] (every call site passes a
    non-empty literal): the non-overlapping occurrences of [old], found from
    left to right, are replaced by [new].  [skip] counts the bytes of a
    matched occurrence that are still to be dropped. *)
Fixpoint replaceFrom (skip : nat) (s old new : bytes) : bytes :=
  match s with
  | [] => []
  | c :: r =>
      match skip with
      | S k => replaceFrom k r old new
      | O => if HasPrefix s old
             then new ++ replaceFrom (Nat.pred (List.length old)) r old new
             else c :: replaceFrom 0 r old new
      end
  end.

Definition ReplaceAll (s old new : bytes) : bytes := replaceFrom 0 s old new.

(** The white space of unicode.IsSpace, by its UTF-8 encoding:
    U+0009..U+000D and U+0020 (one byte), U+0085 and U+00A0 (C2 85, C2 A0),
    U+1680 (E1 9A 80), U+2000..U+200A, U+2028, U+2029, U+202F
    (E2 80 80..8A, E2 80 A8, E2 80 A9, E2 80 AF), U+205F (E2 81 9F) and
    U+3000 (E3 80 80). *)
Definition asciiSpace (c : ascii) : bool :=
  let n := byteval c in
  ((9 <=? n) && (n <=? 13))%N || (n =? 32)%N.

Definition space2 (a b : ascii) : bool :=
  (byteval a =? 194)%N && ((byteval b =? 133)%N || (byteval b =? 160)%N).

Definition space3 (a b c : ascii) : bool :=
  let x := byteval a in
  let y := byteval b in
  let z := byteval c in
  ((x =? 225) && (y =? 154) && (z =? 128))%N
  || ((x =? 226) && (y =? 128)
      && (((128 <=? z) && (z <=? 138)) || (z =? 168) || (z =? 169) || (z =? 175)))%N
  || ((x =? 226) && (y =? 129) && (z =? 159))%N
  || ((x =? 227) && (y =? 128) && (z =? 128))%N.

(** Scanning white-space runes from one end of a string.  [two] and
    [three] recognise the two-byte and three-byte encodings in the order in
    which the scan meets their bytes. *)
Section Runes.

Variable two : ascii -> ascii -> bool.
Variable three : ascii -> ascii -> ascii -> bool.

(** Width of the white-space rune at the start of [s], 0 when the first
    rune is not white space.  utf8.DecodeRuneInString (and, from the end,
    utf8.DecodeLastRuneInString) yields a white-space rune exactly on the
    encodings above: any other byte sequence decodes to another rune or to
    RuneError (U+FFFD), which is not white space. *)
Definition width (s : bytes) : nat :=
  match s with
  | a :: r =>
      if asciiSpace a then 1
      else match r with
           | b :: r' =>
               if two a b then 2
               else match r' with
                    | c :: _ => if three a b c then 3 else 0
                    | [] => 0
                    end
           | [] => 0
           end
  | [] => 0
  end.

(** Drop white-space runes until the first rune that is not white space. *)
Fixpoint trim (s : bytes) : bytes :=
  match s with
  | [] => []
  | a :: r =>
      if asciiSpace a then trim r
      else match r with
           | b :: r' =>
               if two a b then trim r'
               else match r' with
                    | c :: r'' => if three a b c then trim r'' else s
                    | [] => s
                    end
           | [] => s
           end
  end.

End Runes.

(** From the front: strings.TrimLeftFunc(s, unicode.IsSpace). *)
Definition spaceWidth : bytes -> nat := width space2 space3.
Definition trimLeft : bytes -> bytes := trim space2 space3.

(** From the end, on the reversed string: the last byte comes first. *)
Definition space2Rev (a b : ascii) : bool := space2 b a.
Definition space3Rev (a b c : ascii) : bool := space3 c b a.
Definition spaceWidthLast : bytes -> nat := width space2Rev space3Rev.
Definition trimLeftRev : bytes -> bytes := trim space2Rev space3Rev.

(** strings.TrimRightFunc(s, unicode.IsSpace) *)
Definition trimRight (s : bytes) : bytes := rev (trimLeftRev (rev s)).

(** strings.TrimSpace: all leading and trailing white space removed, as
    defined by Unicode. *)
Definition TrimSpace (s : bytes) : bytes := trimRight (trimLeft s).

(** utf8.ValidString: well-formed UTF-8 (shortest encodings of U+0000 to
    U+10FFFF without the surrogates). *)
Definition cont (c : ascii) : bool :=
  ((128 <=? byteval c) && (byteval c <=? 191))%N.

Definition second3 (a b : ascii) : bool :=
  if (byteval a =? 224)%N then ((160 <=? byteval b) && (byteval b <=? 191))%N
  else if (byteval a =? 237)%N then ((128 <=? byteval b) && (byteval b <=? 159))%N
  else cont b.

Definition second4 (a b : ascii) : bool :=
  if (byteval a =? 240)%N then ((144 <=? byteval b) && (byteval b <=? 191))%N
  else if (byteval a =? 244)%N then ((128 <=? byteval b) && (byteval b <=? 143))%N
  else cont b.

Fixpoint ValidString (s : bytes) : bool :=
  match s with
  | [] => true
  | a :: r =>
      if (byteval a <? 128)%N then ValidString r
      else
        match r with
        | b :: r1 =>
            if ((194 <=? byteval a) && (byteval a <=? 223))%N
            then cont b && ValidString r1
            else
              match r1 with
              | c :: r2 =>
                  if ((224 <=? byteval a) && (byteval a <=? 239))%N
                  then second3 a b && cont c && ValidString r2
                  else
                    match r2 with
                    | d :: r3 =>
                        ((240 <=? byteval a) && (byteval a <=? 244))%N
                        && second4 a b && cont c && cont d && ValidString r3
                    | [] => false
                    end
              | [] => false
              end
        | [] => false
        end
  end.

End strings.

(** ** main.go *)

Module Main.

Import strings.

Definition sp : ascii := " "%char.
Definition tab : ascii := "009"%char.
Definition nl : ascii := "010"%char.

(** The string literals of cleanPrice. *)
Definition NL : bytes := [nl].
Definition TAB : bytes := [tab].
Definition SP : bytes := [sp].
Definition SP2 : bytes := [sp; sp].

(** The loop [for strings.Contains(price, "  ") { price = ReplaceAll(...) }].
    Each round shortens the string, so [length price] rounds are enough;
    [collapse_exits] below shows that the loop condition is false at the
    end. *)
Fixpoint collapse (rounds : nat) (price : bytes) : bytes :=
  match rounds with
  | O => price
  | S n =>
      if Contains price SP2
      then collapse n (ReplaceAll price SP2 SP)
      else price
  end.

Definition cleanPriceBytes (price : bytes) : bytes :=
  let price := TrimSpace price in
  let price := ReplaceAll price NL SP in
  let price := ReplaceAll price TAB [] in
  collapse (List.length price) price.

(** cleanPrice removes extra whitespace and normalizes price strings. *)
Definition cleanPrice (price : string) : string :=
  string_of_list_ascii (cleanPriceBytes (list_ascii_of_string price)).

Definition newline : string := String nl "".
Definition tabulator : string := String tab "".

(** The two replacements before the loop, together. *)
Definition untab (s : bytes) : bytes := ReplaceAll (ReplaceAll s NL SP) TAB [].

(** The loop, read from the end of the string. *)
Definition collapseRev (n : nat) (s : bytes) : bytes := rev (collapse n (rev s)).

(** No tab sits inside a multi-byte sequence: after a leading byte, or
    after the first two bytes of a sequence of three or four. *)
Definition noSplit (s : bytes) : Prop :=
  (forall p q a, s = p ++ a :: tab :: q -> (byteval a < 192)%N) /\
  (forall p q a b, s = p ++ a :: b :: tab :: q -> (byteval a < 224)%N).

(** The bytes C2 09 A0: a tab between the two bytes of U+00A0, the
    no-break space. *)
Definition splitNBSP : string := String "194" (String "009" (String "160" "")).

(** Observations on a result, with the functions of the [strings] package. *)
Definition contains (s sub : string) : bool :=
  Contains (list_ascii_of_string s) (list_ascii_of_string sub).

Definition hasPrefix (s p : string) : bool :=
  HasPrefix (list_ascii_of_string s) (list_ascii_of_string p).

Definition hasSuffix (s p : string) : bool :=
  HasPrefix (rev (list_ascii_of_string s)) (rev (list_ascii_of_string p)).

Definition validUTF8 (s : string) : bool := ValidString (list_ascii_of_string s).

(** *** exportToCSV

    The file system and [time.Time] are outside the program.  [Time] and
    its method [Format] are parameters; the operating system is an oracle
    telling whether os.Create succeeds on a name, whether the k-th
    [writer.Write] does, and whether the deferred [writer.Flush] does.  A
    csv.Writer is the list of records it has accepted, oldest first; the
    deferred Flush and Close put them in the file.  The source does not
    look at the error of Flush. *)

Inductive ExportError :=
| ErrCreateFile     (* "failed to create file: ..." *)
| ErrWriteHeader    (* "failed to write header: ..." *)
| ErrWriteRow.      (* "failed to write row: ..." *)

Record OS := {
  createFails : string -> bool;
  writeFails : nat -> bool;
  flushFails : bool
}.

(** The file after the call. *)
Inductive File :=
| NotCreated
| Incomplete                              (* Flush failed: contents unknown *)
| Holds (records : list (list string)).

(** time.RFC3339 *)
Definition RFC3339 : string := "2006-01-02T15:04:05Z07:00".

Section Csv.

Variable Time : Type.
Variable Format : Time -> string -> string.

(** Product represents a scraped product item. *)
Record Product := {
  URL : string;
  Image : string;
  Name : string;
  Price : string;
  ScrapedAt : Time
}.

Definition header : list string :=
  ["Name"; "Price"; "URL"; "Image"; "Scraped At"].

Definition row (product : Product) : list string :=
  [Name product; Price product; URL product; Image product;
   Format (ScrapedAt product) RFC3339].

(** [writer.Write record]: the record is appended unless the write fails. *)
Definition Write (os : OS) (written : list (list string)) (record : list string)
  : option (list (list string)) :=
  if writeFails os (List.length written) then None else Some (written ++ [record]).

(** [defer writer.Flush()] and [defer file.Close()] *)
Definition flushAndClose (os : OS) (written : list (list string)) : File :=
  if flushFails os then Incomplete else Holds written.

(** The loop [for _, product := range products]. *)
Fixpoint writeProducts (os : OS) (written : list (list string))
    (products : list Product) : list (list string) * option ExportError :=
  match products with
  | [] => (written, None)
  | product :: rest =>
      match Write os written (row product) with
      | None => (written, Some ErrWriteRow)
      | Some written' => writeProducts os written' rest
      end
  end.

(** exportToCSV writes the scraped products to a CSV file.  The result is
    the file and the returned error ([None] for nil). *)
Definition exportToCSV (os : OS) (products : list Product) (filename : string)
  : File * option ExportError :=
  if createFails os filename then (NotCreated, Some ErrCreateFile)
  else
    match Write os [] header with
    | None => (flushAndClose os [], Some ErrWriteHeader)
    | Some written =>
        let '(written', err) := writeProducts os written products in
        (flushAndClose os written', err)
    end.

End Csv.

Arguments URL {Time} _.
Arguments Image {Time} _.
Arguments Name {Time} _.
Arguments Price {Time} _.
Arguments ScrapedAt {Time} _.
Arguments row {Time} Format product.
Arguments exportToCSV {Time} Format os products filename.
Arguments writeProducts {Time} Format os written products.

(** An operating system on which nothing fails, and the products and the
    time of main_test.go. *)
Definition healthy : OS :=
  {| createFails := fun _ => false; writeFails := fun _ => false; flushFails := false |}.

Definition testFormat (t : unit) (layout : string) : string := "2024-01-01T12:00:00Z".

Definition testProducts : list (Product unit) :=
  [ {| URL := "http://example.com/product1"; Image := "http://example.com/image1.jpg";
       Name := "Test Product 1"; Price := "$19.99"; ScrapedAt := tt |};
    {| URL := "http://example.com/product2"; Image := "http://example.com/image2.jpg";
       Name := "Test Product 2"; Price := "$29.99"; ScrapedAt := tt |} ].

End Main.

(** ** The libraries the crawler calls: net/url and colly

    Neither library is part of the repository.  The crawler code is
    written against the interface [Lib]; every statement about the crawler
    holds for any implementation of it.  [Ref] further down is a reference
    implementation for URLs that need no escaping; the examples are
    evaluated on it, and what is said of the text of links is proved on it. *)

Module url.

(** url.Userinfo *)
Record Userinfo := {
  username : string;
  password : string;
  passwordSet : bool
}.

(** url.URL *)
Record URL := {
  Scheme : string;
  Opaque : string;
  User : option Userinfo;
  Host : string;
  Path : string;
  RawPath : string;
  OmitHost : bool;
  ForceQuery : bool;
  RawQuery : string;
  Fragment : string;
  RawFragment : string
}.

(** [parsedURL.Fragment = ""]: an assignment to one field; RawFragment
    stays as it is. *)
Definition setFragment (u : URL) (f : string) : URL :=
  {| Scheme := Scheme u; Opaque := Opaque u; User := User u; Host := Host u;
     Path := Path u; RawPath := RawPath u; OmitHost := OmitHost u;
     ForceQuery := ForceQuery u; RawQuery := RawQuery u;
     Fragment := f; RawFragment := RawFragment u |}.



End url.

Module colly.

(** colly.Request, as far as the callbacks read it. *)
Record Request := {
  URL : string;
  Depth : nat
}.

(** The options passed to colly.NewCollector; [CacheDir] is empty when
    the option is not given. *)
Record Collector := {
  AllowedDomains : list string;
  MaxDepth : nat;
  Async : bool;
  CacheDir : string
}.

(** colly.LimitRule *)
Record LimitRule := {
  DomainGlob : string;
  Parallelism : Z;
  Delay : Z;         (* nanoseconds, as time.Duration *)
  RandomDelay : Z
}.

End colly.

(** [Parse] is url.Parse ([None] for a non-nil error), [URLString] is
    the String method of a URL and [AbsoluteURL] is the
    AbsoluteURL method of a colly.Request. *)
Class Lib := {
  Parse : string -> option url.URL;
  URLString : url.URL -> string;
  AbsoluteURL : colly.Request -> string -> string
}.

(** ** crawler.go *)

Module Crawler.

Import colly.

(** *** Go's int and slices *)

Definition minInt : Z := - 2 ^ 63.
Definition maxInt : Z := 2 ^ 63 - 1.

(** Two's complement wrap-around of a 64-bit signed integer. *)
Definition wrap (z : Z) : Z := ((z + 2 ^ 63) mod 2 ^ 64 - 2 ^ 63)%Z.

(** A slice header points to a backing array in memory; the arrays of
    [string] are kept in a finite map from addresses.  Offsets are not
    needed: the sources never re-slice. *)
Abbreviation loc := nat.

Record Slice := {
  ptr : loc;
  len : nat;
  cap : nat
}.

Abbreviation Mem := (gmap loc (list string)).

Definition array (m : Mem) (p : loc) : list string := default [] (m !! p).

(** The elements of a slice. *)
Definition elems (m : Mem) (s : Slice) : list string := take (len s) (array m (ptr s)).

(** [make([]string, n)]: a new zeroed array at an address not in use. *)
Definition make (m : Mem) (n : nat) : Slice * Mem :=
  let p := fresh (dom m) in
  ({| ptr := p; len := n; cap := n |}, <[p := replicate n ""]> m).

(** [copy(dst, src)]: the first min(len(dst), len(src)) elements. *)
Definition copy (m : Mem) (dst src : Slice) : Mem :=
  let n := Nat.min (len dst) (len src) in
  let from := take n (elems m src) in
  <[ptr dst := from ++ drop n (array m (ptr dst))]> m.

(** [s[i] = v]; [None] is the run-time panic on an index out of range. *)
Definition store (m : Mem) (s : Slice) (i : nat) (v : string) : option Mem :=
  if (i <? len s)%nat then Some (<[ptr s := <[i := v]> (array m (ptr s))]> m) else None.

(** [s[i]] *)
Definition load (m : Mem) (s : Slice) (i : nat) : option string :=
  if (i <? len s)%nat then array m (ptr s) !! i else None.

(** Capacity chosen when an append does not fit.  The run time's growth
    policy is not observable by the program: any capacity above the old
    one gives the same elements. *)
Definition growCap (old : nat) : nat := Nat.max (S old) (2 * old).

(** [append(s, v)]: in place when the capacity allows, otherwise into a
    new, larger array. *)
Definition append (m : Mem) (s : Slice) (v : string) : Slice * Mem :=
  if (len s <? cap s)%nat then
    ({| ptr := ptr s; len := S (len s); cap := cap s |},
     <[ptr s := <[len s := v]> (array m (ptr s))]> m)
  else
    let c := growCap (cap s) in
    let p := fresh (dom m) in
    ({| ptr := p; len := S (len s); cap := c |},
     <[p := elems m s ++ v :: replicate (c - S (len s)) ""]> m).

(** *** The crawler *)

(** WebCrawler implements a basic web crawler that follows links.  The
    mutex [mu] makes each locked region atomic; the regions are the steps
    of the model. *)
Record WebCrawler := {
  collector : Collector;
  visitedURLs : gmap string bool;
  foundLinks : Slice;
  maxPages : Z;
  pagesVisited : Z
}.

(** The crawler and the memory its slices live in. *)
Record State := {
  mem : Mem;
  wc : WebCrawler
}.

(** What the callbacks do besides changing the state. *)
Inductive Output :=
| Crawling (current : Z) (u : string)   (* Printf("[%d] Crawling: %s\n") *)
| Visit (u : string).                   (* e.Request.Visit(normalizedURL) *)

(** The URLs handed to Visit, and the counter values printed by
    OnRequest, in order. *)
Definition visitOf (o : Output) : option string :=
  match o with Visit u => Some u | Crawling _ _ => None end.

Definition currentOf (o : Output) : option Z :=
  match o with Crawling current _ => Some current | Visit _ => None end.

Definition visits (out : list Output) : list string := omap visitOf out.

Definition currents (out : list Output) : list Z := omap currentOf out.

(** NewWebCrawler creates a new web crawler. *)
Definition NewWebCrawler (m : Mem) (allowedDomains : list string) (maxPages : Z) : State :=
  let '(links, m') := make m 0 in
  {| mem := m';
     wc := {| collector := {| AllowedDomains := allowedDomains; MaxDepth := 3; Async := false;
                             CacheDir := "" |};
              visitedURLs := ∅;
              foundLinks := links;
              maxPages := maxPages;
              pagesVisited := 0 |} |}.

(** [wc.visitedURLs[u]]: a missing key reads as false. *)
Definition visited (w : WebCrawler) (u : string) : bool :=
  default false (visitedURLs w !! u).

(** The OnRequest callback. *)
Definition onRequest (r : Request) (σ : State) : State * Output :=
  let w := wc σ in
  let current := wrap (pagesVisited w + 1) in
  ({| mem := mem σ;
      wc := {| collector := collector w; visitedURLs := visitedURLs w;
               foundLinks := foundLinks w; maxPages := maxPages w;
               pagesVisited := current |} |},
   Crawling current (URL r)).

Section WithLib.

Context {L : Lib}.

(** The OnHTML callback up to [normalizedURL]: [None] when the callback
    returns without a normalized URL. *)
Definition Normalize (r : Request) (link : string) : option string :=
  if String.eqb link "" || String.prefix "#" link || String.prefix "javascript:" link
  then None
  else
    let absoluteURL := AbsoluteURL r link in
    if String.eqb absoluteURL "" then None
    else
      match Parse absoluteURL with
      | None => None
      | Some parsedURL => Some (URLString (url.setFragment parsedURL ""))
      end.

(** The check-and-insert on the visited set:
    [if !wc.visitedURLs[u] { wc.visitedURLs[u] = true; append }].
    The result tells whether this call inserted [u]. *)
Definition tryAdmit (normalizedURL : string) (σ : State) : State * bool :=
  let w := wc σ in
  if visited w normalizedURL then (σ, false)
  else
    let '(links, m') := append (mem σ) (foundLinks w) normalizedURL in
    ({| mem := m';
        wc := {| collector := collector w;
                 visitedURLs := <[normalizedURL := true]> (visitedURLs w);
                 foundLinks := links; maxPages := maxPages w;
                 pagesVisited := pagesVisited w |} |},
     true).

(** [n] calls of the check-and-insert for one URL and their answers.  The
    mutex puts concurrent calls one after the other, in some order. *)
Fixpoint tryAdmitTimes (n : nat) (u : string) (σ : State) : State * list bool :=
  match n with
  | O => (σ, [])
  | S k =>
      let '(σ1, b) := tryAdmit u σ in
      let '(σ2, bs) := tryAdmitTimes k u σ1 in
      (σ2, b :: bs)
  end.

(** The locked region of the OnHTML callback: the page budget test, then
    the check-and-insert. *)
Definition lockedRegion (normalizedURL : string) (σ : State) : State * bool :=
  if (maxPages (wc σ) <=? pagesVisited (wc σ))%Z then (σ, false)
  else tryAdmit normalizedURL σ.

(** The OnHTML callback on an [a[href]] element of the page of request
    [r]; the output is the call of [e.Request.Visit], if it is made. *)
Definition onHTML (r : Request) (link : string) (σ : State) : State * list Output :=
  match Normalize r link with
  | None => (σ, [])
  | Some normalizedURL =>
      let '(σ', inserted) := lockedRegion normalizedURL σ in
      (σ', if inserted then [Visit normalizedURL] else [])
  end.

(** **** Any interleaving of the callbacks *)

Inductive Event :=
| EvRequest (r : Request)
| EvHTML (r : Request) (link : string).

Definition step (ev : Event) (σ : State) : State * list Output :=
  match ev with
  | EvRequest r => let '(σ', o) := onRequest r σ in (σ', [o])
  | EvHTML r link => onHTML r link σ
  end.

Fixpoint run (evs : list Event) (σ : State) : State * list Output :=
  match evs with
  | [] => (σ, [])
  | ev :: rest =>
      let '(σ1, out1) := step ev σ in
      let '(σ2, out2) := run rest σ1 in
      (σ2, out1 ++ out2)
  end.

(** **** The collector of NewWebCrawler: synchronous

    collector.Visit fetches the page and runs the callbacks before it
    returns: OnRequest, then OnHTML on each [a[href]] element in document
    order, and a Visit called by OnHTML is completed before the next
    element is handled.  What the collector and the network answer is a
    [Site]: the collector either refuses the request (filtered domain,
    depth, revisit, ...) before OnRequest, or dispatches it and finds the
    listed elements, each with the answer to a Visit of its link. *)
#[warnings="-register-all"] Inductive Site :=
| Refused
| Fetched (anchors : list (string * Site)).

(** The OnHTML callbacks of one page, for the elements [anchors]; [visit]
    is the collector's Visit. *)
Fixpoint each (visit : Request -> Site -> State -> State * list (Request * Output))
    (r : Request) (anchors : list (string * Site)) (σ : State)
  : State * list (Request * Output) :=
  match anchors with
  | [] => (σ, [])
  | (link, sub) :: rest =>
      let '(σ2, out) := onHTML r link σ in
      let '(σ3, out3) :=
        match out with
        | Visit target :: _ => visit {| URL := target; Depth := S (Depth r) |} sub σ2
        | _ => (σ2, [])
        end in
      let '(σ4, out4) := each visit r rest σ3 in
      (σ4, map (pair r) out ++ out3 ++ out4)
  end.

(** One request, from OnRequest to the last callback of its page.  The
    log pairs every output with the request whose callback made it. *)
Fixpoint scrape (r : Request) (site : Site) (σ : State) : State * list (Request * Output) :=
  match site with
  | Refused => (σ, [])
  | Fetched anchors =>
      let '(σ1, o) := onRequest r σ in
      let '(σ', out) := each scrape r anchors σ1 in
      (σ', (r, o) :: out)
  end.

(** Crawl starts crawling from the given URL. *)
Definition Crawl (startURL : string) (site : Site) (σ : State) : State * list (Request * Output) :=
  scrape {| URL := startURL; Depth := 0 |} site σ.

(** The URLs that a crawl hands to the collector's Visit: the start URL,
    by Crawl itself, and then those of the link callback. *)
Definition handed (startURL : string) (log : list (Request * Output)) : list string :=
  startURL :: visits (map snd log).

End WithLib.

(** Modelled from the spec: the depth check of the colly collector, which
    is not part of the repository (NewWebCrawler only passes MaxDepth(3) to
    it).  Start URLs are at depth 0, a link found at depth d is requested at
    depth d+1, and a request is dispatched only if its depth is at most
    maxDepth: deeper requests are refused, whatever the site would answer. *)
Fixpoint limitDepth (maxDepth depth : nat) (site : Site) : Site :=
  match site with
  | Refused => Refused
  | Fetched anchors =>
      if (depth <=? maxDepth)%nat
      then Fetched (map (fun a => (fst a, limitDepth maxDepth (S depth) (snd a))) anchors)
      else Refused
  end.

(** A crawl with the collector that NewWebCrawler configured. *)
Definition CrawlLimited {L : Lib} (startURL : string) (site : Site) (σ : State)
  : State * list (Request * Output) :=
  Crawl startURL (limitDepth (MaxDepth (collector (wc σ))) 0 site) σ.

(** GetFoundLinks returns all discovered links: a copy. *)
Definition GetFoundLinks (σ : State) : Slice * State :=
  let '(links, m1) := make (mem σ) (len (foundLinks (wc σ))) in
  let m2 := copy m1 links (foundLinks (wc σ)) in
  (links, {| mem := m2; wc := wc σ |}).

(** GetPagesVisited returns the number of pages visited. *)
Definition GetPagesVisited (σ : State) : Z := pagesVisited (wc σ).

(** The backing array of foundLinks is in memory. *)
Definition allocated (σ : State) : Prop :=
  is_Some (mem σ !! ptr (foundLinks (wc σ))).

(** What a stretch of a crawl does to the counter: the values printed are
    above the value it started from and at most the budget, and there are
    as many of them as the counter has grown. *)
Definition within (σ σ' : State) (log : list (Request * Output)) : Prop :=
  maxPages (wc σ') = maxPages (wc σ) /\
  (pagesVisited (wc σ) <= pagesVisited (wc σ') <= maxPages (wc σ))%Z /\
  Forall (fun c => (pagesVisited (wc σ) < c <= maxPages (wc σ))%Z)
         (currents (map snd log)) /\
  (Z.of_nat (List.length (currents (map snd log))) =
   pagesVisited (wc σ') - pagesVisited (wc σ))%Z.

(** The request of the page on which the example links are found. *)
Definition home : Request := {| URL := "http://x/"; Depth := 0 |}.

End Crawler.

(** ** advanced_scraper.go *)

Module Scraper.

Import colly.

Definition Millisecond : Z := 1000000.
Definition Second : Z := 1000000000.

(** Scraper holds the scraper configuration and state.  The products
    filled in by the detail-page callback are left out: no statement below
    reads them. *)
Record Scraper := {
  collector : Collector;
  detailCollector : Collector;
  listingLimit : LimitRule;
  detailLimit : LimitRule;
  visited : gmap string bool
}.

(** NewScraper creates a new scraper with advanced configuration. *)
Definition NewScraper (allowedDomains : list string) : Scraper :=
  let c := {| AllowedDomains := allowedDomains; MaxDepth := 3; Async := true;
              CacheDir := "./cache" |} in
  {| collector := c;
     detailCollector := c;
     listingLimit := {| DomainGlob := "*"; Parallelism := 4;
                        Delay := 500 * Millisecond; RandomDelay := 500 * Millisecond |};
     detailLimit := {| DomainGlob := "*"; Parallelism := 2;
                       Delay := 1 * Second; RandomDelay := 0 |};
     visited := ∅ |}.

(** What the OnError callback of the listing collector does, in order. *)
Inductive Action :=
| LogError (statusCode : Z)    (* log.Printf("[ERROR] ...") *)
| LogRetry                     (* log.Printf("[RETRY] ...") *)
| Sleep (d : Z)                (* time.Sleep(d), in the calling goroutine *)
| Retry.                       (* r.Request.Retry() *)

(** Handle errors with retry logic. *)
Definition onError (statusCode : Z) : list Action :=
  LogError statusCode ::
  (if (statusCode =? 429)%Z || (statusCode =? 503)%Z
   then [LogRetry; Sleep (5 * Second); Retry]
   else []).

Definition isRetry (a : Action) : bool :=
  match a with Retry => true | _ => false end.

Definition sleepOf (a : Action) : Z :=
  match a with Sleep d => d | _ => 0%Z end.

(** Time the callback keeps its goroutine asleep. *)
Definition slept (actions : list Action) : Z :=
  fold_right (fun a acc => (sleepOf a + acc)%Z) 0%Z actions.

(** The answer to one attempt of a request: a response the collector
    accepts, or an error, on which it calls OnError with the status code
    (0 for a network error). *)
Inductive Answer :=
| Success
| Failure (statusCode : Z).

(** Where a request stands. *)
Inductive Task :=
| Done (attempts : nat)                   (* answered *)
| Failed (attempts : nat)                 (* error logged, not retried *)
| Retrying (attempts : nat) (asleep : Z). (* every attempt so far was retried *)

(** One request of the listing collector, its cache left aside: [server k]
    answers the attempt number [k]; Request.Retry submits the request again.
    [fuel] bounds the attempts that are followed.  The request with the
    cache is [ScraperMore.fetchCached]; on a URL that always answers 429 or
    503 the two agree. *)
Fixpoint fetch (fuel : nat) (server : nat -> Answer) (attempt : nat) (asleep : Z) : Task :=
  match fuel with
  | O => Retrying attempt asleep
  | S fuel' =>
      match server attempt with
      | Success => Done (S attempt)
      | Failure statusCode =>
          let actions := onError statusCode in
          if existsb isRetry actions
          then fetch fuel' server (S attempt) (asleep + slept actions)
          else Failed (S attempt)
      end
  end.

(** The attempts a request has made. *)
Definition attempts (t : Task) : nat :=
  match t with
  | Done n | Failed n | Retrying n _ => n
  end.

(** A server that always answers 503. *)
Definition always503 : nat -> Answer := fun _ => Failure 503.

Inductive ScrapeError :=
| InvalidURL          (* "invalid URL: ..." *)
| FailedVisit.        (* "failed to visit start URL: ..." *)

(** Scrape starts the scraping process from the given URL.  [visit] tells
    whether collector.Visit returns nil on a URL; the result is the returned
    error and the URLs handed to collector.Visit. *)
Definition Scrape {L : Lib} (visit : string -> bool) (startURL : string)
  : option ScrapeError * list string :=
  match Parse startURL with
  | None => (Some InvalidURL, [])
  | Some _ =>
      if visit startURL then (None, [startURL])
      else (Some FailedVisit, [startURL])
  end.

End Scraper.

(** ** Reference implementation of the libraries

    url.Parse, URL.String and URL.ResolveReference of net/url and
    Request.AbsoluteURL of colly, for the URLs that need no escaping: every
    byte is a letter, a digit or one of  - _ . ~ $ & + , / : ; = ? @  (and
    the "#" before the fragment), and the authority carries no user
    information.  On these the functions below follow the library step by
    step.  Outside this class [parse] answers [None], also where url.Parse
    succeeds; nothing below rests on such an answer.  The request is taken
    to have no base URL of its own (no <base> element in the page). *)

Module Ref.

Import url.

Local Open Scope string_scope.

(** strings.Cut on a one-byte separator. *)
Fixpoint cut (sep : ascii) (s : string) : string * option string :=
  match s with
  | "" => ("", None)
  | String c r =>
      if Ascii.eqb c sep then ("", Some r)
      else let '(a, b) := cut sep r in (String c a, b)
  end.

Definition between (lo hi : N) (c : ascii) : bool :=
  ((lo <=? N_of_ascii c) && (N_of_ascii c <=? hi))%N.

Definition isLetter (c : ascii) : bool := between 97 122 c || between 65 90 c.

Definition isDigit (c : ascii) : bool := between 48 57 c.

Definition isSchemeExtra (c : ascii) : bool :=
  isDigit c || Ascii.eqb c "+" || Ascii.eqb c "-" || Ascii.eqb c ".".

Definition lowerByte (c : ascii) : ascii :=
  if between 65 90 c then ascii_of_N (N_of_ascii c + 32) else c.

Fixpoint ToLower (s : string) : string :=
  match s with
  | "" => ""
  | String c r => String (lowerByte c) (ToLower r)
  end.

(** A control byte makes url.Parse fail. *)
Fixpoint hasCTL (s : string) : bool :=
  match s with
  | "" => false
  | String c r => (N_of_ascii c <? 32)%N || (N_of_ascii c =? 127)%N || hasCTL r
  end.

Fixpoint hasByte (b : ascii) (s : string) : bool :=
  match s with
  | "" => false
  | String c r => Ascii.eqb c b || hasByte b r
  end.

(** The bytes that no mode of the library's escaping touches in the place
    where they can stand. *)
Definition covered (c : ascii) : bool :=
  isLetter c || isDigit c || hasByte c "-_.~$&+,/:;=?@".

Fixpoint allCovered (s : string) : bool :=
  match s with
  | "" => true
  | String c r => covered c && allCovered r
  end.

Inductive SchemeScan :=
| NoScheme
| MissingScheme
| SchemeEnds (n : nat).

Fixpoint scanScheme (i : nat) (s : string) : SchemeScan :=
  match s with
  | "" => NoScheme
  | String c r =>
      if isLetter c then scanScheme (S i) r
      else if isSchemeExtra c then
        match i with O => NoScheme | _ => scanScheme (S i) r end
      else if Ascii.eqb c ":" then
        match i with O => MissingScheme | _ => SchemeEnds i end
      else NoScheme
  end.

(** getScheme: the scheme and what follows the colon; [None] for
    "missing protocol scheme". *)
Definition getScheme (rawURL : string) : option (string * string) :=
  match scanScheme 0 rawURL with
  | NoScheme => Some ("", rawURL)
  | MissingScheme => None
  | SchemeEnds n =>
      Some (substring 0 n rawURL, substring (S n) (String.length rawURL - S n) rawURL)
  end.

Definition nonEmpty (s : string) : bool := negb (String.eqb s "").

Definition orEmpty (o : option string) : string := default "" o.

(** strings.Count on a one-byte string, strings.HasSuffix on one. *)
Fixpoint count (b : ascii) (s : string) : nat :=
  match s with
  | "" => 0
  | String c r => (if Ascii.eqb c b then 1 else 0) + count b r
  end.

Fixpoint endsWith (b : ascii) (s : string) : bool :=
  match s with
  | "" => false
  | String c "" => Ascii.eqb c b
  | String _ r => endsWith b r
  end.

(** The query of parse: a lone "?" at the end sets ForceQuery, otherwise
    the text after the first "?" is the query. *)
Definition splitQuery (rest : string) : string * bool * string :=
  if endsWith "?" rest && (count "?" rest =? 1)%nat
  then (substring 0 (String.length rest - 1) rest, true, "")
  else let '(rest, query) := cut "?" rest in (rest, false, orEmpty query).

Fixpoint allDigits (s : string) : bool :=
  match s with
  | "" => true
  | String c r => isDigit c && allDigits r
  end.

Definition validOptionalPort (port : string) : bool :=
  match port with
  | "" => true
  | String c r => Ascii.eqb c ":" && allDigits r
  end.

(** [s[strings.LastIndex(s, b):]], when [b] occurs in [s]. *)
Fixpoint fromLast (b : ascii) (s : string) : option string :=
  match s with
  | "" => None
  | String c r =>
      match fromLast b r with
      | Some t => Some t
      | None => if Ascii.eqb c b then Some s else None
      end
  end.

(** parseAuthority and parseHost for an authority without user
    information and without brackets: the port, if any, must be made of
    digits. *)
Definition parseAuthority (authority : string) : option (option Userinfo * string) :=
  if hasByte "@" authority then None
  else
    match fromLast ":" authority with
    | Some colonPort =>
        if validOptionalPort colonPort then Some (None, authority) else None
    | None => Some (None, authority)
    end.

(** The URL with nothing set. *)
Definition empty : URL :=
  {| Scheme := ""; Opaque := ""; User := None; Host := ""; Path := ""; RawPath := "";
     OmitHost := false; ForceQuery := false; RawQuery := ""; Fragment := "";
     RawFragment := "" |}.

(** parse(rawURL, false) of net/url: a URL without a fragment. *)
Definition parseNoFragment (rawURL : string) : option URL :=
  if hasCTL rawURL then None
  else if String.eqb rawURL "*" then
    Some {| Scheme := ""; Opaque := ""; User := None; Host := ""; Path := "*";
            RawPath := ""; OmitHost := false; ForceQuery := false; RawQuery := "";
            Fragment := ""; RawFragment := "" |}
  else if negb (allCovered rawURL) then None
  else
    match getScheme rawURL with
    | None => None
    | Some (scheme, rest) =>
        let scheme := ToLower scheme in
        let '(rest, force, query) := splitQuery rest in
        if negb (String.prefix "/" rest) && nonEmpty scheme then
          Some {| Scheme := scheme; Opaque := rest; User := None; Host := ""; Path := "";
                  RawPath := ""; OmitHost := false; ForceQuery := force;
                  RawQuery := query; Fragment := ""; RawFragment := "" |}
        else if negb (String.prefix "/" rest) && hasByte ":" (fst (cut "/" rest)) then None
        else if (nonEmpty scheme || negb (String.prefix "///" rest))
                && String.prefix "//" rest then
          let '(authority, path) := cut "/" (substring 2 (String.length rest - 2) rest) in
          match parseAuthority authority with
          | None => None
          | Some (user, host) =>
              Some {| Scheme := scheme; Opaque := ""; User := user; Host := host;
                      Path := match path with Some p => String "/" p | None => "" end;
                      RawPath := ""; OmitHost := false; ForceQuery := force;
                      RawQuery := query; Fragment := ""; RawFragment := "" |}
          end
        else
          Some {| Scheme := scheme; Opaque := ""; User := None; Host := ""; Path := rest;
                  RawPath := "";
                  OmitHost := nonEmpty scheme && String.prefix "/" rest;
                  ForceQuery := force; RawQuery := query; Fragment := "";
                  RawFragment := "" |}
    end.

(** url.Parse: the text after the first "#" is the fragment. *)
Definition parse (rawURL : string) : option URL :=
  let '(u, frag) := cut "#" rawURL in
  match parseNoFragment u with
  | None => None
  | Some parsed =>
      if String.eqb (orEmpty frag) "" then Some parsed
      else if allCovered (orEmpty frag) then
        Some {| Scheme := Scheme parsed; Opaque := Opaque parsed; User := User parsed;
                Host := Host parsed; Path := Path parsed; RawPath := RawPath parsed;
                OmitHost := OmitHost parsed; ForceQuery := ForceQuery parsed;
                RawQuery := RawQuery parsed; Fragment := orEmpty frag;
                RawFragment := "" |}
      else None
  end.

Definition hasUser (u : URL) : bool :=
  match User u with Some _ => true | None => false end.

(** Userinfo.String, for names and passwords that need no escaping. *)
Definition renderUser (user : Userinfo) : string :=
  username user ++ (if passwordSet user then ":" ++ password user else "").

(** URL.String.  EscapedPath and EscapedFragment are Path and Fragment
    themselves on covered bytes, and the host is written as it is. *)
Definition render (u : URL) : string :=
  let scheme := if nonEmpty (Scheme u) then Scheme u ++ ":" else "" in
  let body :=
    if nonEmpty (Opaque u) then Opaque u
    else
      let authority :=
        if nonEmpty (Scheme u) || nonEmpty (Host u) || hasUser u then
          if OmitHost u && String.eqb (Host u) "" && negb (hasUser u) then ""
          else
            (if nonEmpty (Host u) || nonEmpty (Path u) || hasUser u then "//" else "") ++
            match User u with Some user => renderUser user ++ "@" | None => "" end ++
            Host u
        else "" in
      authority ++
      (if nonEmpty (Path u) && negb (String.prefix "/" (Path u)) && nonEmpty (Host u)
       then "/" else "") ++
      (if String.eqb scheme "" && String.eqb authority ""
          && hasByte ":" (fst (cut "/" (Path u)))
       then "./" else "") ++
      Path u in
  scheme ++ body ++
  (if ForceQuery u || nonEmpty (RawQuery u) then "?" ++ RawQuery u else "") ++
  (if nonEmpty (Fragment u) then "#" ++ Fragment u else "").

(** [base[:strings.LastIndex(base, "/")+1]] *)
Fixpoint dirOf (s : string) : string :=
  match s with
  | "" => ""
  | String c r => if hasByte "/" s then String c (dirOf r) else ""
  end.

(** strings.Split(s, "/") *)
Fixpoint segments (s : string) : list string :=
  match s with
  | "" => [""]
  | String c r =>
      if Ascii.eqb c "/" then "" :: segments r
      else
        match segments r with
        | e :: es => String c e :: es
        | [] => [String c ""]
        end
  end.

(** [s[:strings.LastIndexByte(s, b)]], when [b] occurs in [s]. *)
Fixpoint beforeLast (b : ascii) (s : string) : option string :=
  match s with
  | "" => None
  | String c r =>
      match beforeLast b r with
      | Some t => Some (String c t)
      | None => if Ascii.eqb c b then Some "" else None
      end
  end.

Definition tail (s : string) : string :=
  match s with "" => "" | String _ r => r end.

(** One round of the loop of resolvePath over the elements of the path:
    the builder [dst], which starts as "/", and the flag [first]. *)
Definition resolveStep (state : string * bool) (elem : string) : string * bool :=
  let '(dst, first) := state in
  if String.eqb elem "." then (dst, false)
  else if String.eqb elem ".." then
    match beforeLast "/" (tail dst) with
    | None => ("/", true)
    | Some kept => ("/" ++ kept, first)
    end
  else ((if first then dst else dst ++ "/") ++ elem, false).

(** resolvePath: the reference resolved against the base path, with the
    "." and ".." elements removed. *)
Definition resolvePath (base ref : string) : string :=
  let full :=
    if String.eqb ref "" then base
    else if negb (String.prefix "/" ref) then dirOf base ++ ref
    else ref in
  if String.eqb full "" then ""
  else
    let elems := segments full in
    let dst := fst (fold_left resolveStep elems ("/", true)) in
    let elem := List.last elems "" in
    let r := if String.eqb elem "." || String.eqb elem ".." then dst ++ "/" else dst in
    if String.prefix "//" r then tail r else r.

(** setPath on a path of covered bytes: RawPath is left empty. *)
Definition setPath (u : URL) (p : string) : URL :=
  {| Scheme := Scheme u; Opaque := Opaque u; User := User u; Host := Host u;
     Path := p; RawPath := ""; OmitHost := OmitHost u; ForceQuery := ForceQuery u;
     RawQuery := RawQuery u; Fragment := Fragment u; RawFragment := RawFragment u |}.

(** URL.ResolveReference: [url := *ref], then field by field. *)
Definition ResolveReference (u ref : URL) : URL :=
  let scheme := if String.eqb (Scheme ref) "" then Scheme u else Scheme ref in
  if nonEmpty (Scheme ref) || nonEmpty (Host ref) || hasUser ref then
    {| Scheme := scheme; Opaque := Opaque ref; User := User ref; Host := Host ref;
       Path := resolvePath (Path ref) ""; RawPath := ""; OmitHost := OmitHost ref;
       ForceQuery := ForceQuery ref; RawQuery := RawQuery ref;
       Fragment := Fragment ref; RawFragment := RawFragment ref |}
  else if nonEmpty (Opaque ref) then
    {| Scheme := scheme; Opaque := Opaque ref; User := None; Host := ""; Path := "";
       RawPath := RawPath ref; OmitHost := OmitHost ref;
       ForceQuery := ForceQuery ref; RawQuery := RawQuery ref;
       Fragment := Fragment ref; RawFragment := RawFragment ref |}
  else
    let inherit :=
      String.eqb (Path ref) "" && negb (ForceQuery ref) && String.eqb (RawQuery ref) "" in
    let query := if inherit then RawQuery u else RawQuery ref in
    let own := negb (inherit && String.eqb (Fragment ref) "") in
    let frag := if own then Fragment ref else Fragment u in
    let rawFrag := if own then RawFragment ref else RawFragment u in
    if String.eqb (Path ref) "" && nonEmpty (Opaque u) then
      {| Scheme := scheme; Opaque := Opaque u; User := None; Host := ""; Path := "";
         RawPath := RawPath ref; OmitHost := OmitHost ref;
         ForceQuery := ForceQuery ref; RawQuery := query;
         Fragment := frag; RawFragment := rawFrag |}
    else
      {| Scheme := scheme; Opaque := ""; User := User u; Host := Host u;
         Path := resolvePath (Path u) (Path ref); RawPath := "";
         OmitHost := OmitHost ref; ForceQuery := ForceQuery ref; RawQuery := query;
         Fragment := frag; RawFragment := rawFrag |}.

(** colly's AbsoluteURL: the empty string for a fragment or a parse
    failure, otherwise the link resolved against the request URL, with its
    Fragment set to the empty string. *)
Definition absoluteURL (r : colly.Request) (link : string) : string :=
  if String.prefix "#" link then ""
  else
    match parse (colly.URL r), parse link with
    | Some base, Some ref =>
        let absURL := setFragment (ResolveReference base ref) "" in
        render absURL
    | _, _ => ""
    end.


#[export] Instance lib : Lib :=
  {| Parse := parse; URLString := render; AbsoluteURL := absoluteURL |}.

End Ref.

(** ** test_helpers.go *)

Module Helpers.

Import strings.

(** strings.Index: the position of the first occurrence of [sub] in [s];
    [None] stands for -1. *)
Fixpoint Index (s sub : bytes) : option nat :=
  if HasPrefix s sub then Some 0%nat
  else
    match s with
    | [] => None
    | _ :: r => option_map S (Index r sub)
    end.

Definition httpPrefix : bytes := list_ascii_of_string "http://".
Definition httpsPrefix : bytes := list_ascii_of_string "https://".
Definition slash : ascii := "/"%char.

(** ExtractDomain extracts the domain (including port) from a server URL
    for use with collectors.  [domain[:n]] is [take n], [domain[n:]] is
    [drop n]; both are in range where the source uses them. *)
Definition ExtractDomainBytes (serverURL : bytes) : bytes :=
  let domain := serverURL in
  let domain :=
    if (7 <? List.length domain)%nat && bool_decide (take 7 domain = httpPrefix)
    then drop 7 domain
    else if (8 <? List.length domain)%nat && bool_decide (take 8 domain = httpsPrefix)
    then drop 8 domain
    else domain in
  match Index domain [slash] with
  | Some idx => take idx domain
  | None => domain
  end.

Definition ExtractDomain (serverURL : string) : string :=
  string_of_list_ascii (ExtractDomainBytes (list_ascii_of_string serverURL)).

End Helpers.

(** ** main.go: the product callback and the end of main *)

Module MainFlow.

Import Main.

(** strings.TrimSpace, on a string. *)
Definition trimSpace (s : string) : string :=
  string_of_list_ascii (strings.TrimSpace (list_ascii_of_string s)).

(** The number of the first write that fails among [count] writes starting
    with write number [from]; [from + count] when none of them fails. *)
Fixpoint firstFailure (os : OS) (from count : nat) : nat :=
  match count with
  | O => from
  | S c => if writeFails os from then from else firstFailure os (S from) c
  end.

Section WithTime.

Variable Time : Type.
Variable Format : Time -> string -> string.

(** What the selectors of the [li.product] callback find in one element:
    the results of ChildAttr and ChildText. *)
Record Element := {
  href : string;        (* a.woocommerce-LoopProduct-link, href *)
  src : string;         (* img.product-image, src *)
  title : string;       (* h2.woocommerce-loop-product__title *)
  priceText : string    (* span.price *)
}.

(** The struct literal of the [li.product] callback; [now] is time.Now(). *)
Definition productOf (e : Element) (now : Time) : Product Time :=
  {| URL := href e; Image := src e; Name := title e;
     Price := cleanPrice (priceText e); ScrapedAt := now |}.

(** The [li.product] callback. *)
Definition onProduct (e : Element) (now : Time) (products : list (Product Time))
  : list (Product Time) :=
  let product := productOf e now in
  if negb (String.eqb (Name product) "") then products ++ [product] else products.

(** The callback over the elements of a run, in the order in which the
    collector finds them. *)
Fixpoint collect (found : list (Element * Time)) (products : list (Product Time))
  : list (Product Time) :=
  match found with
  | [] => products
  | (e, now) :: rest => collect rest (onProduct e now products)
  end.

(** How main ends. *)
Inductive Outcome :=
| FatalVisit                                   (* log.Fatal("Failed to start scraping:") *)
| NoProducts                                   (* "No products found." *)
| Exported (file : File)                       (* "Data exported to products.csv" *)
| Fatal (file : File) (err : ExportError).     (* log.Fatal("Failed to export to CSV:") *)

(** The end of main, from the return of c.Visit on.  [visitFailed] tells
    whether c.Visit returned an error: main then dies before the export.
    The collector is synchronous, c.Wait() has nothing to wait for. *)
Definition finish (visitFailed : bool) (os : OS) (products : list (Product Time))
  : Outcome :=
  if visitFailed then FatalVisit
  else if (0 <? List.length products)%nat then
    match exportToCSV Format os products "products.csv" with
    | (file, None) => Exported file
    | (file, Some err) => Fatal file err
    end
  else NoProducts.

End WithTime.

Arguments productOf {Time} e now.
Arguments onProduct {Time} e now products.
Arguments collect {Time} found products.
Arguments finish {Time} Format visitFailed os products.

(** An operating system on which write number [k] fails, and nothing else. *)
Definition failsAt (k : nat) : OS :=
  {| createFails := fun _ => false; writeFails := Nat.eqb k; flushFails := false |}.

End MainFlow.

(** ** crawler.go: runCrawlerExample *)

Module CrawlerExample.

(** The lines of the sample listing. *)
Inductive Line :=
| LinkLine (link : string)     (* Printf("  - %s\n", link) *)
| MoreLine (n : Z).            (* Printf("... and %d more\n", len(links)-10) *)

(** The loop [for i, link := range links], from index [i]; [total] is
    len(links). *)
Fixpoint sampleFrom (i : nat) (total : nat) (links : list string) : list Line :=
  match links with
  | [] => []
  | link :: rest =>
      if (10 <=? i)%nat then [MoreLine (Z.of_nat total - 10)]
      else LinkLine link :: sampleFrom (S i) total rest
  end.

Definition sampleLinks (links : list string) : list Line :=
  sampleFrom 0 (List.length links) links.

End CrawlerExample.

(** ** advanced_scraper.go: the listing callback, the headers, GetProducts *)

Module ScraperMore.

Import colly Scraper.

(** [s.visited[u]]: a missing key reads as false. *)
Definition seen (s : Scraper) (u : string) : bool :=
  default false (visited s !! u).

(** The locked region of the [li.product] callback of the listing
    collector: the output is the URL that the region admitted, if any.  The
    callback calls detailCollector.Visit on it after the Unlock. *)
Definition onListing (productURL : string) (s : Scraper) : Scraper * list string :=
  if negb (seen s productURL) && negb (String.eqb productURL "") then
    ({| collector := collector s; detailCollector := detailCollector s;
        listingLimit := listingLimit s; detailLimit := detailLimit s;
        visited := <[productURL := true]> (visited s) |},
     [productURL])
  else (s, []).

(** The locked regions over the product links of a run, in the order in
    which the collector's goroutines take the mutex, and the URLs admitted,
    in that order.  The Visit calls follow the Unlock: the order in which
    they are made is not fixed by the mutex. *)
Fixpoint listing (urls : list string) (s : Scraper) : Scraper * list string :=
  match urls with
  | [] => (s, [])
  | u :: rest =>
      let '(s1, out1) := onListing u s in
      let '(s2, out2) := listing rest s1 in
      (s2, out1 ++ out2)
  end.

(** http.Header: a map from canonical keys to their values.  Every key of
    setHeaders is in canonical form already, so [Set] stores it as it is. *)
Abbreviation Header := (gmap string (list string)).

(** [h.Set(key, value)]: the values of [key] are replaced by [value]. *)
Definition HeaderSet (h : Header) (key value : string) : Header := <[key := [value]]> h.

Definition userAgent : string :=
  "Mozilla/5.0 (Windows NT 10.0; Win64; x64) AppleWebKit/537.36 (KHTML, like Gecko) Chrome/120.0.0.0 Safari/537.36".

(** setHeaders sets browser-like headers on requests. *)
Definition setHeaders (h : Header) : Header :=
  let h := HeaderSet h "User-Agent" userAgent in
  let h := HeaderSet h "Accept"
    "text/html,application/xhtml+xml,application/xml;q=0.9,image/avif,image/webp,image/apng,*/*;q=0.8" in
  let h := HeaderSet h "Accept-Language" "en-US,en;q=0.9" in
  let h := HeaderSet h "Accept-Encoding" "gzip, deflate, br" in
  let h := HeaderSet h "Connection" "keep-alive" in
  let h := HeaderSet h "Upgrade-Insecure-Requests" "1" in
  let h := HeaderSet h "Sec-Fetch-Dest" "document" in
  let h := HeaderSet h "Sec-Fetch-Mode" "navigate" in
  let h := HeaderSet h "Sec-Fetch-Site" "none" in
  HeaderSet h "Cache-Control" "max-age=0".

Definition headerKeys : list string :=
  ["User-Agent"; "Accept"; "Accept-Language"; "Accept-Encoding"; "Connection";
   "Upgrade-Insecure-Requests"; "Sec-Fetch-Dest"; "Sec-Fetch-Mode"; "Sec-Fetch-Site";
   "Cache-Control"].

(** *** The class selector and ChildAttr

    The selector p.stock matches a p element whose class attribute has
    "stock" among its names; the names are separated by the bytes of
    " \t\r\n\f". *)
Definition classSpace (c : ascii) : bool :=
  let n := N_of_ascii c in
  ((n =? 32) || (n =? 9) || (n =? 13) || (n =? 10) || (n =? 12))%N.

(** strings.IndexAny(s, " \t\r\n\f") *)
Fixpoint indexSpace (s : strings.bytes) : option nat :=
  match s with
  | [] => None
  | c :: r => if classSpace c then Some 0%nat else option_map S (indexSpace r)
  end.

(** The loop of the class selector: [val] is one of the names in the
    attribute [s].  Every round drops a byte at least; [fuel] bounds the
    rounds. *)
Fixpoint matchInclude (fuel : nat) (val s : strings.bytes) : bool :=
  match fuel with
  | O => false
  | S fuel' =>
      if bool_decide (s = []) then false
      else
        match indexSpace s with
        | None => bool_decide (s = val)
        | Some i =>
            if bool_decide (take i s = val) then true
            else matchInclude fuel' val (drop (S i) s)
        end
  end.

Definition hasClass (attr val : string) : bool :=
  matchInclude (S (String.length attr)) (list_ascii_of_string val)
    (list_ascii_of_string attr).

(** The class name of the selector, and the string that the callback
    compares the attribute with. *)
Definition stockName : strings.bytes := list_ascii_of_string "stock".
Definition outOfStock : strings.bytes := list_ascii_of_string "out-of-stock".

(** A byte that a white-space rune can hold: ASCII white space, or a
    byte of a longer encoding. *)
Definition blank (c : ascii) : bool :=
  strings.asciiSpace c || (128 <=? strings.byteval c)%N.

(** The class attribute of an element that p.stock has matched. *)
Definition StockAttr : Type := { attr : string | hasClass attr "stock" = true }.

(** *** The products of a scraper

    A slice of ProductDetail in a memory of backing arrays, as foundLinks
    in the crawler.  [Time] is time.Time and [zeroTime] its zero value. *)
Section Products.

Variable Time : Type.
Variable zeroTime : Time.

(** ProductDetail represents detailed product information. *)
Record ProductDetail := {
  URL : string;
  Name : string;
  Price : string;
  Description : string;
  SKU : string;
  Category : string;
  ImageURL : string;
  InStock : bool;
  ScrapedAt : Time
}.

(** The zero value of the struct, with which make and append fill an array. *)
Definition zeroProduct : ProductDetail :=
  {| URL := ""; Name := ""; Price := ""; Description := ""; SKU := ""; Category := "";
     ImageURL := ""; InStock := false; ScrapedAt := zeroTime |}.

Record Products := {
  pmem : gmap nat (list ProductDetail);
  products : Crawler.Slice
}.

Definition productArray (m : gmap nat (list ProductDetail)) (p : nat) : list ProductDetail :=
  default [] (m !! p).

(** The elements of a slice of products. *)
Definition productElems (m : gmap nat (list ProductDetail)) (s : Crawler.Slice)
  : list ProductDetail :=
  take (Crawler.len s) (productArray m (Crawler.ptr s)).

(** [make([]ProductDetail, 0)] in NewScraper. *)
Definition newProducts (m : gmap nat (list ProductDetail)) : Products :=
  let p := fresh (dom m) in
  {| pmem := <[p := []]> m; products := {| Crawler.ptr := p; Crawler.len := 0; Crawler.cap := 0 |} |}.

(** [append(s.products, product)] *)
Definition appendProduct (m : gmap nat (list ProductDetail)) (s : Crawler.Slice)
    (v : ProductDetail) : Crawler.Slice * gmap nat (list ProductDetail) :=
  if (Crawler.len s <? Crawler.cap s)%nat then
    ({| Crawler.ptr := Crawler.ptr s; Crawler.len := S (Crawler.len s);
        Crawler.cap := Crawler.cap s |},
     <[Crawler.ptr s := <[Crawler.len s := v]> (productArray m (Crawler.ptr s))]> m)
  else
    let c := Crawler.growCap (Crawler.cap s) in
    let p := fresh (dom m) in
    ({| Crawler.ptr := p; Crawler.len := S (Crawler.len s); Crawler.cap := c |},
     <[p := productElems m s ++ v :: replicate (c - S (Crawler.len s)) zeroProduct]> m).

(** What the selectors of the [div.product] callback find on a detail
    page. *)
Record DetailElement := {
  title : string;         (* h1.product_title *)
  amount : string;        (* p.price span.woocommerce-Price-amount *)
  summary : string;       (* div.woocommerce-product-details__short-description *)
  sku : string;           (* span.sku *)
  postedIn : string;      (* span.posted_in a *)
  image : string;         (* img.wp-post-image, src *)
  stock : option StockAttr  (* the first p.stock element, if there is one *)
}.

(** ChildAttr("p.stock", "class"): the class attribute of the first
    match, its white space trimmed; the empty string without a match. *)
Definition stockClass (e : DetailElement) : string :=
  match stock e with
  | Some attr => MainFlow.trimSpace (proj1_sig attr)
  | None => ""
  end.

(** A detail page as the callback sees it: the URL of its request, the
    element, and time.Now(). *)
Record DetailPage := {
  requestURL : string;
  element : DetailElement;
  now : Time
}.

(** The struct literal of the [div.product] callback. *)
Definition detailOf (page : DetailPage) : ProductDetail :=
  {| URL := requestURL page;
     Name := title (element page);
     Price := amount (element page);
     Description := summary (element page);
     SKU := sku (element page);
     Category := postedIn (element page);
     ImageURL := image (element page);
     InStock := negb (String.eqb (stockClass (element page)) "out-of-stock");
     ScrapedAt := now page |}.

(** The [div.product] callback of the detail collector; the append is
    under the mutex. *)
Definition onDetail (page : DetailPage) (σ : Products) : Products :=
  let product := detailOf page in
  if negb (String.eqb (Name product) "") then
    let '(s, m) := appendProduct (pmem σ) (products σ) product in
    {| pmem := m; products := s |}
  else σ.

(** The callback over the detail pages of a run, in the order in which the
    goroutines take the mutex. *)
Fixpoint details (pages : list DetailPage) (σ : Products) : Products :=
  match pages with
  | [] => σ
  | page :: rest => details rest (onDetail page σ)
  end.

(** GetProducts returns the scraped products: [return s.products]. *)
Definition GetProducts (σ : Products) : Crawler.Slice := products σ.

(** [s[i] = v] and [s[i]] on a slice of ProductDetail; [None] is the
    run-time panic on an index out of range. *)
Definition storeProduct (m : gmap nat (list ProductDetail)) (s : Crawler.Slice)
    (i : nat) (v : ProductDetail) : option (gmap nat (list ProductDetail)) :=
  if (i <? Crawler.len s)%nat
  then Some (<[Crawler.ptr s := <[i := v]> (productArray m (Crawler.ptr s))]> m)
  else None.

Definition loadProduct (m : gmap nat (list ProductDetail)) (s : Crawler.Slice) (i : nat)
  : option ProductDetail :=
  if (i <? Crawler.len s)%nat then productArray m (Crawler.ptr s) !! i else None.

(** The backing array of the products has exactly the capacity of the
    slice and holds [ps]. *)
Definition holds (σ : Products) (ps : list ProductDetail) : Prop :=
  (exists a, pmem σ !! Crawler.ptr (products σ) = Some a /\
             List.length a = Crawler.cap (products σ)) /\
  (Crawler.len (products σ) <= Crawler.cap (products σ))%nat /\
  productElems (pmem σ) (products σ) = ps.

End Products.

Arguments URL {Time}.
Arguments Name {Time}.
Arguments Price {Time}.
Arguments Description {Time}.
Arguments SKU {Time}.
Arguments Category {Time}.
Arguments ImageURL {Time}.
Arguments InStock {Time}.
Arguments ScrapedAt {Time}.
Arguments pmem {Time}.
Arguments products {Time}.
Arguments productArray {Time}.
Arguments productElems {Time}.
Arguments newProducts {Time}.
Arguments appendProduct {Time}.
Arguments requestURL {Time}.
Arguments element {Time}.
Arguments now {Time}.
Arguments detailOf {Time}.
Arguments onDetail {Time}.
Arguments details {Time}.
Arguments GetProducts {Time}.
Arguments storeProduct {Time}.
Arguments loadProduct {Time}.
Arguments holds {Time}.

(** The first product of TestGetProducts, as a detail page. *)
Definition testPage : DetailPage unit :=
  {| requestURL := "http://example.com/product";
     element := {| title := "Product 1"; amount := "$10.00"; summary := ""; sku := "";
                   postedIn := ""; image := ""; stock := None |};
     now := tt |}.

(** *** The cache of the listing collector

    NewScraper gives its collectors a cache directory.  [h.Get(key)]: the
    first value of the key, the empty string without one. *)
Definition HeaderGet (h : Header) (key : string) : string :=
  match h !! key with
  | Some (value :: _) => value
  | _ => ""
  end.

(** The test at the head of the collector's cache: it is used for a GET
    when a cache directory is set and the request does not carry
    "Cache-Control: no-cache". *)
Definition cacheUsed (cacheDir method : string) (h : Header) : bool :=
  negb (String.eqb cacheDir "" || negb (String.eqb method "GET")
        || String.eqb (HeaderGet h "Cache-Control") "no-cache").

(** A response is written to the cache when it came without a transport
    error (status 0 in [Failure]) and with a status below 500; a cached
    response is used when its status is below 500. *)
Definition cacheable (a : Answer) : bool :=
  match a with
  | Success => true
  | Failure statusCode => negb (statusCode =? 0)%Z && (statusCode <? 500)%Z
  end.

Definition cacheHit (cache : option Answer) : option Answer :=
  match cache with
  | Some Success => Some Success
  | Some (Failure statusCode) => if (statusCode <? 500)%Z then cache else None
  | None => None
  end.

(** One request of the listing collector with its cache.  [cache] is what
    the cache directory holds for the URL, from this run or an earlier one;
    [server k] answers the k-th request that reaches the server; a retry is
    the same URL again.  The cache directory is taken to be writable.
    [fuel] bounds the attempts that are followed. *)
Fixpoint fetchCached (useCache : bool) (fuel : nat) (server : nat -> Answer)
    (cache : option Answer) (asked attempt : nat) (asleep : Z) : Task :=
  match fuel with
  | O => Retrying attempt asleep
  | S fuel' =>
      let '(answer, cache', asked') :=
        match (if useCache then cacheHit cache else None) with
        | Some cached => (cached, cache, asked)
        | None =>
            let answer := server asked in
            (answer,
             if useCache && cacheable answer then Some answer else cache,
             S asked)
        end in
      match answer with
      | Success => Done (S attempt)
      | Failure statusCode =>
          let actions := onError statusCode in
          if existsb isRetry actions
          then fetchCached useCache fuel' server cache' asked' (S attempt)
                 (asleep + slept actions)
          else Failed (S attempt)
      end
  end.

(** A server that answers 503, then 429, then the page. *)
Definition recovers (k : nat) : Answer :=
  match k with
  | 0%nat => Failure 503
  | 1%nat => Failure 429
  | _ => Success
  end.

End ScraperMore.

Module CrawlerMore.

Import colly Crawler.

(** The OnRequest callbacks among the events. *)
Definition isRequest (ev : Event) : bool :=
  match ev with EvRequest _ => true | EvHTML _ _ => false end.

Definition requests (evs : list Event) : nat := List.length (List.filter isRequest evs).


End CrawlerMore.

(** * Properties *)

(** * Facts about the [strings] functions *)

Module StringsFacts.

Import strings Main.

#[local] Arguments Ascii.eqb : simpl never.

Lemma replaceNL_cons (c : ascii) (r : bytes) :
  ReplaceAll (c :: r) NL SP = (if Ascii.eqb nl c then sp else c) :: ReplaceAll r NL SP.
Proof.
  unfold ReplaceAll, NL, SP. cbn [replaceFrom HasPrefix List.length Nat.pred].
  fold nl. destruct (Ascii.eqb nl c); reflexivity.
Qed.

Lemma replaceTAB_cons (c : ascii) (r : bytes) :
  ReplaceAll (c :: r) TAB [] = if Ascii.eqb tab c then ReplaceAll r TAB [] else c :: ReplaceAll r TAB [].
Proof.
  unfold ReplaceAll, TAB. cbn [replaceFrom HasPrefix List.length Nat.pred].
  fold tab. destruct (Ascii.eqb tab c); reflexivity.
Qed.

Lemma squeeze_pair (r : bytes) :
  ReplaceAll (sp :: sp :: r) SP2 SP = sp :: ReplaceAll r SP2 SP.
Proof. reflexivity. Qed.

Lemma squeeze_step (c : ascii) (r : bytes) :
  HasPrefix (c :: r) SP2 = false ->
  ReplaceAll (c :: r) SP2 SP = c :: ReplaceAll r SP2 SP.
Proof.
  intros H. unfold ReplaceAll. cbn [replaceFrom]. rewrite H. reflexivity.
Qed.

Lemma hasPrefix_SP2 (s : bytes) :
  HasPrefix s SP2 = true <-> exists r, s = sp :: sp :: r.
Proof.
  unfold SP2. split.
  - destruct s as [|c [|d r]]; cbn; intros H.
    + discriminate.
    + rewrite andb_false_r in H. discriminate.
    + apply andb_true_iff in H as [H1 H2]. apply andb_true_iff in H2 as [H2 _].
      apply Ascii.eqb_eq in H1, H2. subst. exists r. reflexivity.
  - intros [r ->]. reflexivity.
Qed.

Lemma hasPrefix_SP2_ne (c : ascii) (r : bytes) :
  c <> sp -> HasPrefix (c :: r) SP2 = false.
Proof.
  intros H. destruct (HasPrefix (c :: r) SP2) eqn:E; [|reflexivity].
  apply hasPrefix_SP2 in E as [r' E]. congruence.
Qed.

(** Induction along the scan of [ReplaceAll s "  " " "]. *)
Lemma squeeze_ind (P : bytes -> Prop) :
  P [] ->
  (forall c r, HasPrefix (c :: r) SP2 = false -> P r -> P (c :: r)) ->
  (forall r, P r -> P (sp :: sp :: r)) ->
  forall s, P s.
Proof.
  intros Hnil Hstep Hpair s.
  remember (List.length s) as n eqn:En.
  revert s En. induction n as [n IH] using lt_wf_ind. intros s En.
  destruct s as [|c r]; [exact Hnil|].
  destruct (HasPrefix (c :: r) SP2) eqn:E.
  - apply hasPrefix_SP2 in E as [r' E]. injection E as -> ->.
    apply Hpair. apply (IH (List.length r')); [cbn in En; lia | reflexivity].
  - apply Hstep; [exact E|]. apply (IH (List.length r)); [cbn in En; lia | reflexivity].
Qed.

Lemma squeeze_length (s : bytes) :
  (List.length (ReplaceAll s SP2 SP) <= List.length s)%nat.
Proof.
  induction s as [|c r E IH|r IH] using squeeze_ind.
  - reflexivity.
  - rewrite squeeze_step by exact E. cbn. lia.
  - rewrite squeeze_pair. cbn. lia.
Qed.

Lemma contains_cons (c : ascii) (r sub : bytes) :
  Contains (c :: r) sub = HasPrefix (c :: r) sub || Contains r sub.
Proof. reflexivity. Qed.

Lemma squeeze_shorter (s : bytes) :
  Contains s SP2 = true ->
  (List.length (ReplaceAll s SP2 SP) < List.length s)%nat.
Proof.
  induction s as [|c r E IH|r IH] using squeeze_ind.
  - cbn. discriminate.
  - rewrite contains_cons, E. cbn [orb]. intros H.
    rewrite squeeze_step by exact E. cbn. apply IH in H. lia.
  - intros _. rewrite squeeze_pair. cbn.
    pose proof (squeeze_length r). lia.
Qed.

Lemma squeeze_In (x : ascii) (s : bytes) :
  In x (ReplaceAll s SP2 SP) -> In x s.
Proof.
  induction s as [|c r E IH|r IH] using squeeze_ind.
  - intros [].
  - rewrite squeeze_step by exact E. cbn. tauto.
  - rewrite squeeze_pair. cbn. tauto.
Qed.

(** The first byte stays. *)
Lemma squeeze_head (c : ascii) (r : bytes) :
  exists z, ReplaceAll (c :: r) SP2 SP = c :: z.
Proof.
  destruct (HasPrefix (c :: r) SP2) eqn:E.
  - apply hasPrefix_SP2 in E as [r' E]. injection E as -> ->.
    eexists. apply squeeze_pair.
  - eexists. apply squeeze_step. exact E.
Qed.

Lemma hasPrefix_snoc_ne (s : bytes) (c : ascii) :
  c <> sp -> HasPrefix (s ++ [c]) SP2 = HasPrefix s SP2.
Proof.
  intros Hc.
  destruct (HasPrefix s SP2) eqn:E.
  - apply hasPrefix_SP2 in E as [r ->]. reflexivity.
  - destruct (HasPrefix (s ++ [c]) SP2) eqn:E'; [|reflexivity].
    apply hasPrefix_SP2 in E' as [r E'].
    destruct s as [|a [|b s]]; cbn in E'.
    + discriminate.
    + injection E' as -> E'. destruct r; [|discriminate]. congruence.
    + injection E' as -> -> _. discriminate.
Qed.

(** A last byte other than a space stays, and so does what is before. *)
Lemma squeeze_snoc (s : bytes) (c : ascii) :
  c <> sp -> ReplaceAll (s ++ [c]) SP2 SP = ReplaceAll s SP2 SP ++ [c].
Proof.
  intros Hc.
  induction s as [|a r E IH|r IH] using squeeze_ind.
  - cbn [app]. rewrite squeeze_step by (apply hasPrefix_SP2_ne; exact Hc). reflexivity.
  - rewrite squeeze_step by exact E.
    change ((a :: r) ++ [c]) with (a :: (r ++ [c])).
    rewrite squeeze_step.
    + rewrite IH. reflexivity.
    + change (a :: (r ++ [c])) with ((a :: r) ++ [c]).
      rewrite hasPrefix_snoc_ne by exact Hc. exact E.
  - change ((sp :: sp :: r) ++ [c]) with (sp :: sp :: (r ++ [c])).
    rewrite !squeeze_pair, IH. reflexivity.
Qed.

(** The last byte stays. *)
Lemma squeeze_last (s : bytes) (c : ascii) :
  exists z, ReplaceAll (s ++ [c]) SP2 SP = z ++ [c].
Proof.
  destruct (Ascii.eqb_spec c sp) as [->|Hc].
  - induction s as [|a r E IH|r IH] using squeeze_ind.
    + exists []. reflexivity.
    + destruct IH as [z IH].
      destruct r as [|b r].
      * cbn [app]. destruct (Ascii.eqb_spec a sp) as [->|Ha].
        -- exists []. reflexivity.
        -- exists [a]. rewrite squeeze_step by (apply hasPrefix_SP2_ne; exact Ha). reflexivity.
      * change ((a :: b :: r) ++ [sp]) with (a :: ((b :: r) ++ [sp])).
        rewrite squeeze_step.
        -- rewrite IH. exists (a :: z). reflexivity.
        -- destruct (HasPrefix (a :: (b :: r) ++ [sp]) SP2) eqn:E'; [|reflexivity].
           apply hasPrefix_SP2 in E' as [r' E']. cbn in E'. injection E' as -> -> _.
           discriminate.
    + destruct IH as [z IH]. exists (sp :: z).
      change ((sp :: sp :: r) ++ [sp]) with (sp :: sp :: (r ++ [sp])).
      rewrite squeeze_pair, IH. reflexivity.
  - exists (ReplaceAll s SP2 SP). apply squeeze_snoc. exact Hc.
Qed.

Lemma contains_cons_ne (c : ascii) (r : bytes) :
  c <> sp -> Contains (c :: r) SP2 = Contains r SP2.
Proof.
  intros H. rewrite contains_cons, hasPrefix_SP2_ne by exact H. reflexivity.
Qed.

Lemma contains_snoc_ne (s : bytes) (c : ascii) :
  c <> sp -> Contains (s ++ [c]) SP2 = Contains s SP2.
Proof.
  intros H. induction s as [|a r IH].
  - cbn [app]. rewrite contains_cons_ne by exact H. reflexivity.
  - change ((a :: r) ++ [c]) with (a :: (r ++ [c])).
    rewrite !contains_cons, IH.
    change (a :: (r ++ [c])) with ((a :: r) ++ [c]).
    rewrite hasPrefix_snoc_ne by exact H. reflexivity.
Qed.

End StringsFacts.

(** * Facts about cleanPrice *)

Module PriceFacts.

Import strings Main StringsFacts.

#[local] Arguments Ascii.eqb : simpl never.

(** ** The loop that collapses spaces *)

Lemma collapse_cons_ne (n : nat) (c : ascii) (r : bytes) :
  c <> sp -> collapse n (c :: r) = c :: collapse n r.
Proof.
  intros Hc. revert r. induction n as [|n IH]; intros r; [reflexivity|].
  cbn [collapse]. rewrite contains_cons_ne by exact Hc.
  destruct (Contains r SP2); [|reflexivity].
  rewrite squeeze_step by (apply hasPrefix_SP2_ne; exact Hc). apply IH.
Qed.

Lemma collapse_head (n : nat) (c : ascii) (r : bytes) :
  exists z, collapse n (c :: r) = c :: z.
Proof.
  revert r. induction n as [|n IH]; intros r; [eexists; reflexivity|].
  cbn [collapse]. destruct (Contains (c :: r) SP2); [|eexists; reflexivity].
  destruct (squeeze_head c r) as [z ->]. apply IH.
Qed.

Lemma collapse_nil (n : nat) : collapse n [] = [].
Proof. destruct n; reflexivity. Qed.

Lemma collapse_snoc_ne (n : nat) (s : bytes) (c : ascii) :
  c <> sp -> collapse n (s ++ [c]) = collapse n s ++ [c].
Proof.
  intros Hc. revert s. induction n as [|n IH]; intros s; [reflexivity|].
  cbn [collapse]. rewrite contains_snoc_ne by exact Hc.
  destruct (Contains s SP2); [|reflexivity].
  rewrite squeeze_snoc by exact Hc. apply IH.
Qed.

Lemma collapse_last (n : nat) (s : bytes) (c : ascii) :
  exists z, collapse n (s ++ [c]) = z ++ [c].
Proof.
  revert s. induction n as [|n IH]; intros s; [eexists; reflexivity|].
  cbn [collapse]. destruct (Contains (s ++ [c]) SP2); [|eexists; reflexivity].
  destruct (squeeze_last s c) as [z ->]. apply IH.
Qed.

Lemma collapse_In (n : nat) (x : ascii) (s : bytes) :
  In x (collapse n s) -> In x s.
Proof.
  revert s. induction n as [|n IH]; intros s; [tauto|].
  cbn [collapse]. destruct (Contains s SP2); [|tauto].
  intros H. apply squeeze_In. apply IH. exact H.
Qed.

(** With [length s] rounds the loop condition is false at the end: the
    rounds never run out before the loop exits. *)
Lemma collapse_exits (n : nat) (s : bytes) :
  (List.length s <= n)%nat -> Contains (collapse n s) SP2 = false.
Proof.
  revert s. induction n as [|n IH]; intros s Hn.
  - destruct s; [reflexivity | cbn in Hn; lia].
  - cbn [collapse]. destruct (Contains s SP2) eqn:E; [|exact E].
    apply IH. pose proof (squeeze_shorter s E). lia.
Qed.

Lemma collapse_fix (n : nat) (s : bytes) :
  Contains s SP2 = false -> collapse n s = s.
Proof. intros H. destruct n; [reflexivity|]. cbn [collapse]. rewrite H. reflexivity. Qed.

(** ** Newlines to spaces, tabs removed *)

Lemma untab_nil : untab [] = [].
Proof. reflexivity. Qed.

Lemma untab_cons (c : ascii) (r : bytes) :
  untab (c :: r) =
  if Ascii.eqb tab c then untab r
  else (if Ascii.eqb nl c then sp else c) :: untab r.
Proof.
  unfold untab. rewrite replaceNL_cons, replaceTAB_cons.
  destruct (Ascii.eqb_spec nl c) as [<-|Hn].
  - reflexivity.
  - reflexivity.
Qed.

Lemma untab_app (s1 s2 : bytes) : untab (s1 ++ s2) = untab s1 ++ untab s2.
Proof.
  induction s1 as [|c r IH]; [reflexivity|].
  change ((c :: r) ++ s2) with (c :: (r ++ s2)).
  rewrite !untab_cons, IH. destruct (Ascii.eqb tab c); reflexivity.
Qed.

Lemma untab_rev (s : bytes) : untab (rev s) = rev (untab s).
Proof.
  induction s as [|c r IH]; [reflexivity|].
  cbn [rev]. rewrite untab_app, IH, !untab_cons, untab_nil.
  destruct (Ascii.eqb tab c); [apply app_nil_r|reflexivity].
Qed.

Lemma untab_clean (x : ascii) (s : bytes) :
  In x (untab s) -> x <> tab /\ x <> nl.
Proof.
  induction s as [|c r IH]; [intros []|].
  rewrite untab_cons.
  destruct (Ascii.eqb_spec tab c) as [<-|Ht]; [exact IH|].
  intros [H|H]; [|exact (IH H)].
  destruct (Ascii.eqb_spec nl c) as [<-|Hn]; subst x.
  - split; discriminate.
  - split; congruence.
Qed.

(** The first byte of the result comes from the first byte of the
    argument, unless that is a tab. *)
Lemma untab_head (s : bytes) (x : ascii) (y : bytes) :
  untab s = x :: y ->
  exists c r, s = c :: r /\
    (c = tab \/ (x = (if Ascii.eqb nl c then sp else c) /\ y = untab r)).
Proof.
  destruct s as [|c r]; [discriminate|].
  rewrite untab_cons. intros H. exists c, r. split; [reflexivity|].
  destruct (Ascii.eqb_spec tab c) as [<-|Ht]; [left; reflexivity|].
  right. injection H as <- <-. split; reflexivity.
Qed.

(** A first byte other than a space was there before, after some tabs. *)
Lemma untab_head_ne (s : bytes) (x : ascii) (y : bytes) :
  untab s = x :: y -> x <> sp ->
  exists k r, s = repeat tab k ++ x :: r /\ y = untab r.
Proof.
  intros H Hx. induction s as [|c r IH]; [discriminate|].
  rewrite untab_cons in H.
  destruct (Ascii.eqb_spec tab c) as [<-|Ht].
  - destruct (IH H) as (k & r' & -> & ->). exists (S k), r'. split; reflexivity.
  - injection H as H1 H2. exists O, r.
    destruct (Ascii.eqb_spec nl c) as [<-|Hn]; [congruence|].
    subst. split; reflexivity.
Qed.

End PriceFacts.

(** * Trimming white-space runes *)

Module TrimFacts.

Import strings Main StringsFacts PriceFacts.

#[local] Arguments Ascii.eqb : simpl never.

Section Scan.

Variable two : ascii -> ascii -> bool.
Variable three : ascii -> ascii -> ascii -> bool.

#[local] Abbreviation width := (width two three).
#[local] Abbreviation trim := (trim two three).

(** Either the string starts with no white-space rune and is left as it
    is, or one rune is dropped and the scan goes on. *)
Lemma trim_cases (s : bytes) :
  (width s = 0%nat /\ trim s = s) \/
  (exists p r, s = p ++ r /\ (0 < List.length p)%nat /\ trim s = trim r).
Proof.
  destruct s as [|a r]; [left; split; reflexivity|].
  cbn [strings.width strings.trim].
  destruct (asciiSpace a) eqn:Ea.
  { right. exists [a], r. repeat split. cbn. lia. }
  destruct r as [|b r]; [left; split; reflexivity|].
  destruct (two a b) eqn:E2.
  { right. exists [a; b], r. repeat split. cbn. lia. }
  destruct r as [|c r]; [left; split; reflexivity|].
  destruct (three a b c) eqn:E3.
  { right. exists [a; b; c], r. repeat split. cbn. lia. }
  left. split; reflexivity.
Qed.

Lemma trim_width (s : bytes) : width (trim s) = 0%nat.
Proof.
  remember (List.length s) as n eqn:En. revert s En.
  induction n as [n IH] using lt_wf_ind. intros s En.
  destruct (trim_cases s) as [[Hw ->]|(p & r & -> & Hp & ->)]; [exact Hw|].
  apply (IH (List.length r)); [rewrite En, length_app; lia | reflexivity].
Qed.

Lemma trim_fix (s : bytes) : width s = 0%nat -> trim s = s.
Proof.
  destruct s as [|a r]; [reflexivity|].
  cbn [strings.width strings.trim].
  destruct (asciiSpace a); [discriminate|].
  destruct r as [|b r]; [reflexivity|].
  destruct (two a b); [discriminate|].
  destruct r as [|c r]; [reflexivity|].
  destruct (three a b c); [discriminate|reflexivity].
Qed.

(** What is left is the end of the string. *)
Lemma trim_suffix (s : bytes) : exists p, s = p ++ trim s.
Proof.
  remember (List.length s) as n eqn:En. revert s En.
  induction n as [n IH] using lt_wf_ind. intros s En.
  destruct (trim_cases s) as [[Hw ->]|(p & r & -> & Hp & ->)]; [exists []; reflexivity|].
  destruct (IH (List.length r)) with (s := r) as [p' Hp'];
    [rewrite En, length_app; lia | reflexivity |].
  exists (p ++ p'). rewrite <- app_assoc, <- Hp'. reflexivity.
Qed.

(** A white-space rune at the start of a string is at the start of every
    extension of it. *)
Lemma width_app (t q : bytes) : width (t ++ q) = 0%nat -> width t = 0%nat.
Proof.
  destruct t as [|a t]; [reflexivity|].
  cbn [app strings.width].
  destruct (asciiSpace a); [discriminate|].
  destruct t as [|b t]; [reflexivity|].
  cbn [app]. destruct (two a b); [discriminate|].
  destruct t as [|c t]; [reflexivity|].
  cbn [app]. destruct (three a b c); [discriminate|reflexivity].
Qed.

(** *** What the replacements of cleanPrice leave at the start

    [K] stands for the loop that collapses spaces, read from either end. *)

Hypothesis two_ne : forall a b, two a b = true -> b <> sp.
Hypothesis three_ne : forall a b c, three a b c = true -> b <> sp /\ c <> sp.

Variable K : bytes -> bytes.
Hypothesis K_nil : K [] = [].
Hypothesis K_cons : forall c r, c <> sp -> K (c :: r) = c :: K r.
Hypothesis K_head : forall c r, exists z, K (c :: r) = c :: z.

Lemma K_head_inv (s : bytes) (x : ascii) (z : bytes) :
  K s = x :: z -> exists y, s = x :: y.
Proof.
  destruct s as [|c r]; [rewrite K_nil; discriminate|].
  destruct (K_head c r) as [z' ->]. intros H. injection H as -> _. eauto.
Qed.

Lemma asciiSpace_sp : asciiSpace sp = true.
Proof. reflexivity. Qed.

Lemma asciiSpace_tab : asciiSpace tab = true.
Proof. reflexivity. Qed.

Lemma asciiSpace_nl : asciiSpace nl = true.
Proof. reflexivity. Qed.

Lemma not_space_ne (a : ascii) :
  asciiSpace a = false -> a <> sp /\ a <> tab /\ a <> nl.
Proof. intros H. repeat split; intros ->; discriminate. Qed.

Variable t : bytes.
Hypothesis Hw : width t = 0%nat.

Lemma first_kept :
  t = [] \/
  exists a r, t = a :: r /\ asciiSpace a = false /\ K (untab t) = a :: K (untab r).
Proof using Hw K_cons.
  destruct t as [|a r]; [left; reflexivity|]. right.
  assert (Ea : asciiSpace a = false).
  { cbn [strings.width] in Hw. destruct (asciiSpace a); [discriminate|reflexivity]. }
  exists a, r. repeat split; [exact Ea|].
  destruct (not_space_ne a Ea) as (Hs & Ht & Hn).
  rewrite untab_cons.
  destruct (Ascii.eqb_spec tab a) as [E|_]; [congruence|].
  destruct (Ascii.eqb_spec nl a) as [E|_]; [congruence|].
  apply K_cons. exact Hs.
Qed.

(** The result starts with no one-byte white space. *)
Lemma head_kept (x : ascii) (y : bytes) :
  K (untab t) = x :: y -> asciiSpace x = false.
Proof using Hw K_cons K_nil.
  destruct first_kept as [->|(a & r & -> & Ea & ->)].
  - rewrite untab_nil, K_nil. discriminate.
  - intros H. injection H as <- _. exact Ea.
Qed.

Hypothesis H2 : forall a b k r,
  t = a :: repeat tab (S k) ++ b :: r -> two a b = false.
Hypothesis H3 : forall a b c k j r,
  t = a :: repeat tab k ++ b :: repeat tab j ++ c :: r ->
  (0 < k + j)%nat -> three a b c = false.

(** The result starts with no white-space rune at all. *)
Lemma width_kept : width (K (untab t)) = 0%nat.
Proof using All.
  destruct first_kept as [->|(a & r & Et & Ea & ->)].
  { rewrite untab_nil, K_nil. reflexivity. }
  cbn [strings.width]. rewrite Ea.
  destruct (K (untab r)) as [|b z] eqn:EK; [reflexivity|].
  destruct (K_head_inv _ _ _ EK) as [y Ey].
  destruct (two a b) eqn:E2.
  { exfalso. pose proof (two_ne _ _ E2) as Hb.
    destruct (untab_head_ne _ _ _ Ey Hb) as (k & r2 & -> & ->).
    destruct k as [|k].
    - subst t. cbn [repeat app strings.width] in Hw.
      rewrite Ea, E2 in Hw. discriminate.
    - rewrite (H2 a b k r2 Et) in E2. discriminate. }
  destruct z as [|c z]; [reflexivity|].
  destruct (three a b c) eqn:E3; [|reflexivity].
  exfalso. destruct (three_ne _ _ _ E3) as [Hb Hc].
  destruct (untab_head_ne _ _ _ Ey Hb) as (k & r2 & -> & ->).
  rewrite Ey, K_cons in EK by exact Hb. injection EK as EK.
  destruct (K_head_inv _ _ _ EK) as [y3 Ey3].
  destruct (untab_head_ne _ _ _ Ey3 Hc) as (j & r3 & -> & ->).
  destruct (Nat.eq_dec (k + j) 0) as [E0|E0].
  - assert (k = 0%nat) by lia. assert (j = 0%nat) by lia. subst k j t.
    cbn [repeat app strings.width] in Hw.
    rewrite Ea, E2, E3 in Hw. discriminate.
  - rewrite (H3 a b c k j r3 Et) in E3 by lia. discriminate.
Qed.

End Scan.

End TrimFacts.

(** * cleanPrice on well-formed UTF-8 *)

Module Utf8Facts.

Import strings Main StringsFacts PriceFacts TrimFacts.

#[local] Arguments Ascii.eqb : simpl never.

Lemma noSplit_sub (p t q : bytes) : noSplit (p ++ t ++ q) -> noSplit t.
Proof.
  intros [H1 H2]. split.
  - intros p' q' a ->. apply (H1 (p ++ p') (q' ++ q)).
    rewrite <- !app_assoc. reflexivity.
  - intros p' q' a b ->. apply (H2 (p ++ p') (q' ++ q) a b).
    rewrite <- !app_assoc. reflexivity.
Qed.

Lemma noSplit_nil : noSplit [].
Proof.
  split.
  - intros p q a H. destruct p; discriminate.
  - intros p q a b H. destruct p; discriminate.
Qed.

(** Prepending a complete sequence [pre] whose leading byte is the only one
    that is 192 or more, and which holds no tab. *)
Lemma noSplit_prepend (pre r : bytes) :
  noSplit r ->
  (forall p q a, pre ++ r = p ++ a :: tab :: q ->
     (List.length p < List.length pre)%nat -> (byteval a < 192)%N) ->
  (forall p q a b, pre ++ r = p ++ a :: b :: tab :: q ->
     (List.length p < List.length pre)%nat -> (byteval a < 224)%N) ->
  noSplit (pre ++ r).
Proof.
  intros [H1 H2] G1 G2. split.
  - intros p q a E.
    destruct (Nat.lt_ge_cases (List.length p) (List.length pre)) as [Hl|Hl];
      [exact (G1 p q a E Hl)|].
    apply (H1 (drop (List.length pre) p) q).
    apply (f_equal (drop (List.length pre))) in E.
    rewrite drop_app_length in E. rewrite E.
    rewrite drop_app_le by exact Hl. reflexivity.
  - intros p q a b E.
    destruct (Nat.lt_ge_cases (List.length p) (List.length pre)) as [Hl|Hl];
      [exact (G2 p q a b E Hl)|].
    apply (H2 (drop (List.length pre) p) q a b).
    apply (f_equal (drop (List.length pre))) in E.
    rewrite drop_app_length in E. rewrite E.
    rewrite drop_app_le by exact Hl. reflexivity.
Qed.

Lemma byteval_tab : byteval tab = 9%N.
Proof. reflexivity. Qed.

Ltac bools :=
  repeat match goal with
         | H : _ && _ = true |- _ => apply andb_true_iff in H as [? ?]
         | H : (_ <=? _)%N = true |- _ => apply N.leb_le in H
         | H : (_ <? _)%N = true |- _ => apply N.ltb_lt in H
         | H : (_ =? _)%N = true |- _ => apply N.eqb_eq in H
         end.

Lemma cont_range (c : ascii) : cont c = true -> (128 <= byteval c <= 191)%N.
Proof. unfold cont. intros H. bools. lia. Qed.

Lemma second3_range (a b : ascii) : second3 a b = true -> (128 <= byteval b <= 191)%N.
Proof.
  unfold second3, cont. intros H.
  destruct (byteval a =? 224)%N; [|destruct (byteval a =? 237)%N]; bools; lia.
Qed.

Lemma second4_range (a b : ascii) : second4 a b = true -> (128 <= byteval b <= 191)%N.
Proof.
  unfold second4, cont. intros H.
  destruct (byteval a =? 240)%N; [|destruct (byteval a =? 244)%N]; bools; lia.
Qed.

(** Well-formed UTF-8 has no tab inside a sequence. *)
Lemma valid_noSplit (s : bytes) : ValidString s = true -> noSplit s.
Proof.
  remember (List.length s) as n eqn:En. revert s En.
  induction n as [n IH] using lt_wf_ind. intros s En Hv.
  destruct s as [|a r]; [exact noSplit_nil|].
  cbn [ValidString] in Hv.
  destruct (byteval a <? 128)%N eqn:E1.
  { apply N.ltb_lt in E1.
    apply (noSplit_prepend [a] r).
    - apply (IH (List.length r)); [cbn in En; lia | reflexivity | exact Hv].
    - intros p q x E Hl. cbn [List.length] in Hl.
      destruct p; [|cbn in Hl; lia]. injection E as -> _. lia.
    - intros p q x y E Hl. cbn [List.length] in Hl.
      destruct p; [|cbn in Hl; lia]. injection E as -> _. lia. }
  destruct r as [|b r1]; [discriminate|].
  destruct ((194 <=? byteval a) && (byteval a <=? 223))%N eqn:E2.
  { bools.
    match goal with H : cont b = true |- _ => apply cont_range in H end.
    apply (noSplit_prepend [a; b] r1).
    - apply (IH (List.length r1)); [cbn in En; lia | reflexivity | assumption].
    - intros p q x E Hl. cbn [List.length] in Hl.
      destruct p as [|? [|? p]]; cbn in E, Hl; try lia; injection E; intros; subst;
        rewrite ?byteval_tab in *; lia.
    - intros p q x y E Hl. cbn [List.length] in Hl.
      destruct p as [|? [|? p]]; cbn in E, Hl; try lia; injection E; intros; subst;
        rewrite ?byteval_tab in *; lia. }
  destruct r1 as [|c r2]; [discriminate|].
  destruct ((224 <=? byteval a) && (byteval a <=? 239))%N eqn:E3.
  { bools.
    match goal with H : cont c = true |- _ => apply cont_range in H end.
    match goal with H : second3 a b = true |- _ => apply second3_range in H end.
    apply (noSplit_prepend [a; b; c] r2).
    - apply (IH (List.length r2)); [cbn in En; lia | reflexivity | assumption].
    - intros p q x E Hl. cbn [List.length] in Hl.
      destruct p as [|? [|? [|? p]]]; cbn in E, Hl; try lia; injection E; intros; subst;
        rewrite ?byteval_tab in *; lia.
    - intros p q x y E Hl. cbn [List.length] in Hl.
      destruct p as [|? [|? [|? p]]]; cbn in E, Hl; try lia; injection E; intros; subst;
        rewrite ?byteval_tab in *; lia. }
  destruct r2 as [|d r3]; [discriminate|].
  bools.
  repeat match goal with H : cont _ = true |- _ => apply cont_range in H end.
  match goal with H : second4 a b = true |- _ => apply second4_range in H end.
  apply (noSplit_prepend [a; b; c; d] r3).
  - apply (IH (List.length r3)); [cbn in En; lia | reflexivity | assumption].
  - intros p q x E Hl. cbn [List.length] in Hl.
    destruct p as [|? [|? [|? [|? p]]]]; cbn in E, Hl; try lia; injection E; intros; subst;
      rewrite ?byteval_tab in *; lia.
  - intros p q x y E Hl. cbn [List.length] in Hl.
    destruct p as [|? [|? [|? [|? p]]]]; cbn in E, Hl; try lia; injection E; intros; subst;
      rewrite ?byteval_tab in *; lia.
Qed.

End Utf8Facts.

(** * cleanPrice: shape of the result and idempotence *)

Module CleanPrice.

Import strings Main StringsFacts PriceFacts TrimFacts Utf8Facts.

#[local] Arguments Ascii.eqb : simpl never.

(** ** TrimSpace *)

Lemma TrimSpace_spec (s : bytes) :
  spaceWidth (TrimSpace s) = 0%nat /\
  spaceWidthLast (rev (TrimSpace s)) = 0%nat /\
  exists p q, s = p ++ TrimSpace s ++ q.
Proof.
  unfold TrimSpace, trimRight, spaceWidth, spaceWidthLast, trimLeft, trimLeftRev.
  set (u := trim space2 space3 s).
  destruct (trim_suffix space2 space3 s) as [p Hp]. fold u in Hp.
  destruct (trim_suffix space2Rev space3Rev (rev u)) as [q Hq].
  set (v := trim space2Rev space3Rev (rev u)) in *.
  assert (Hu : u = rev v ++ rev q).
  { rewrite <- rev_app_distr, <- Hq, rev_involutive. reflexivity. }
  repeat split.
  - apply (width_app space2 space3 (rev v) (rev q)). rewrite <- Hu.
    apply trim_width.
  - rewrite rev_involutive. apply trim_width.
  - exists p, (rev q). rewrite <- Hu. exact Hp.
Qed.

Lemma TrimSpace_fix (t : bytes) :
  spaceWidth t = 0%nat -> spaceWidthLast (rev t) = 0%nat -> TrimSpace t = t.
Proof.
  intros H1 H2. unfold TrimSpace, trimRight, trimLeft, trimLeftRev.
  rewrite (trim_fix space2 space3 t H1).
  rewrite (trim_fix space2Rev space3Rev (rev t) H2).
  apply rev_involutive.
Qed.

(** ** The encodings of white space, read from either end *)

Ltac ranges :=
  repeat match goal with
         | H : _ && _ = true |- _ => apply andb_true_iff in H as [? ?]
         | H : _ || _ = true |- _ => apply orb_true_iff in H as [?|?]
         | H : (_ <=? _)%N = true |- _ => apply N.leb_le in H
         | H : (_ =? _)%N = true |- _ => apply N.eqb_eq in H
         end.

Lemma byteval_sp : byteval sp = 32%N.
Proof. reflexivity. Qed.

Lemma space2_bytes (a b : ascii) :
  space2 a b = true -> (byteval a = 194 /\ 128 <= byteval b)%N.
Proof. unfold space2. intros H. ranges; lia. Qed.

Lemma space3_bytes (a b c : ascii) :
  space3 a b c = true -> (225 <= byteval a /\ 128 <= byteval b /\ 128 <= byteval c)%N.
Proof. unfold space3. intros H. ranges; lia. Qed.

Lemma high_not_sp (b : ascii) : (128 <= byteval b)%N -> b <> sp.
Proof. intros H ->. rewrite byteval_sp in H. lia. Qed.

Lemma space2_ne (a b : ascii) : space2 a b = true -> b <> sp.
Proof. intros H. apply space2_bytes in H. apply high_not_sp. lia. Qed.

Lemma space3_ne (a b c : ascii) : space3 a b c = true -> b <> sp /\ c <> sp.
Proof. intros H. apply space3_bytes in H. split; apply high_not_sp; lia. Qed.

Lemma space2Rev_ne (a b : ascii) : space2Rev a b = true -> b <> sp.
Proof. intros H. apply space2_bytes in H. apply high_not_sp. lia. Qed.

Lemma space3Rev_ne (a b c : ascii) : space3Rev a b c = true -> b <> sp /\ c <> sp.
Proof. intros H. apply space3_bytes in H. split; apply high_not_sp; lia. Qed.

(** ** The loop, read from the end *)

Lemma collapseRev_nil (n : nat) : collapseRev n [] = [].
Proof. unfold collapseRev. cbn [rev]. rewrite collapse_nil. reflexivity. Qed.

Lemma collapseRev_cons (n : nat) (c : ascii) (r : bytes) :
  c <> sp -> collapseRev n (c :: r) = c :: collapseRev n r.
Proof.
  intros H. unfold collapseRev. cbn [rev].
  rewrite collapse_snoc_ne by exact H. rewrite rev_app_distr. reflexivity.
Qed.

Lemma collapseRev_head (n : nat) (c : ascii) (r : bytes) :
  exists z, collapseRev n (c :: r) = c :: z.
Proof.
  unfold collapseRev. cbn [rev].
  destruct (collapse_last n (rev r) c) as [z ->].
  exists (rev z). rewrite rev_app_distr. reflexivity.
Qed.

Lemma collapseRev_untab (n : nat) (t : bytes) :
  collapseRev n (untab (rev t)) = rev (collapse n (untab t)).
Proof. unfold collapseRev. rewrite untab_rev, rev_involutive. reflexivity. Qed.

(** ** A string without split sequences, from either end *)

Lemma rev_repeat_tab (k : nat) : rev (repeat tab k) = repeat tab k.
Proof.
  induction k as [|k IH]; [reflexivity|].
  cbn [repeat rev]. rewrite IH. symmetry. apply repeat_cons.
Qed.

Lemma front_two (t : bytes) (a b : ascii) (k : nat) (r : bytes) :
  noSplit t -> t = a :: repeat tab (S k) ++ b :: r -> space2 a b = false.
Proof.
  intros [H1 _] E. destruct (space2 a b) eqn:E2; [|reflexivity].
  apply space2_bytes in E2.
  pose proof (H1 [] (repeat tab k ++ b :: r) a E). lia.
Qed.

Lemma front_three (t : bytes) (a b c : ascii) (k j : nat) (r : bytes) :
  noSplit t -> t = a :: repeat tab k ++ b :: repeat tab j ++ c :: r ->
  (0 < k + j)%nat -> space3 a b c = false.
Proof.
  intros [H1 H2] E Hkj. destruct (space3 a b c) eqn:E3; [|reflexivity].
  apply space3_bytes in E3.
  destruct k as [|k].
  - destruct j as [|j]; [lia|].
    pose proof (H2 [] (repeat tab j ++ c :: r) a b E). lia.
  - pose proof (H1 [] (repeat tab k ++ b :: repeat tab j ++ c :: r) a E). lia.
Qed.

Lemma back_two (t : bytes) (a b : ascii) (k : nat) (r : bytes) :
  noSplit t -> rev t = a :: repeat tab (S k) ++ b :: r -> space2Rev a b = false.
Proof.
  intros [H1 _] E. destruct (space2Rev a b) eqn:E2; [|reflexivity].
  apply space2_bytes in E2.
  apply (f_equal (@rev ascii)) in E. rewrite rev_involutive in E.
  cbn [rev] in E. rewrite rev_app_distr, rev_repeat_tab in E.
  cbn [rev repeat] in E. rewrite <- !app_assoc in E. cbn [app] in E.
  pose proof (H1 (rev r) (repeat tab k ++ [a]) b E). lia.
Qed.

Lemma back_three (t : bytes) (a b c : ascii) (k j : nat) (r : bytes) :
  noSplit t -> rev t = a :: repeat tab k ++ b :: repeat tab j ++ c :: r ->
  (0 < k + j)%nat -> space3Rev a b c = false.
Proof.
  intros [H1 H2] E Hkj. destruct (space3Rev a b c) eqn:E3; [|reflexivity].
  apply space3_bytes in E3.
  apply (f_equal (@rev ascii)) in E. rewrite rev_involutive in E.
  cbn [rev] in E. rewrite rev_app_distr in E. cbn [rev] in E.
  rewrite rev_app_distr in E. cbn [rev] in E.
  rewrite !rev_repeat_tab in E. rewrite <- !app_assoc in E. cbn [app] in E.
  destruct j as [|j].
  - destruct k as [|k]; [lia|]. cbn [repeat app] in E.
    pose proof (H2 (rev r) (repeat tab k ++ [a]) c b E). lia.
  - cbn [repeat app] in E.
    pose proof (H1 (rev r) (repeat tab j ++ b :: repeat tab k ++ [a]) c E). lia.
Qed.

(** ** The result of cleanPrice *)

Lemma clean_unfold (s : bytes) :
  cleanPriceBytes s =
  collapse (List.length (untab (TrimSpace s))) (untab (TrimSpace s)).
Proof. reflexivity. Qed.

Lemma clean_no_tab_nl (s : bytes) (x : ascii) :
  In x (cleanPriceBytes s) -> x <> tab /\ x <> nl.
Proof.
  rewrite clean_unfold. intros H. apply collapse_In in H.
  apply untab_clean in H. exact H.
Qed.

Lemma clean_no_double (s : bytes) : Contains (cleanPriceBytes s) SP2 = false.
Proof. rewrite clean_unfold. apply collapse_exits. reflexivity. Qed.

Lemma clean_head (s : bytes) (x : ascii) (y : bytes) :
  cleanPriceBytes s = x :: y -> asciiSpace x = false.
Proof.
  rewrite clean_unfold.
  destruct (TrimSpace_spec s) as (Hw & _ & _).
  apply (head_kept space2 space3 (collapse _)); auto using collapse_nil, collapse_cons_ne.
Qed.

Lemma clean_last (s : bytes) (x : ascii) (y : bytes) :
  rev (cleanPriceBytes s) = x :: y -> asciiSpace x = false.
Proof.
  rewrite clean_unfold, <- collapseRev_untab.
  destruct (TrimSpace_spec s) as (_ & Hw & _).
  apply (head_kept space2Rev space3Rev (collapseRev _));
    auto using collapseRev_nil, collapseRev_cons.
Qed.

Lemma clean_width (s : bytes) :
  noSplit s ->
  spaceWidth (cleanPriceBytes s) = 0%nat /\
  spaceWidthLast (rev (cleanPriceBytes s)) = 0%nat.
Proof.
  intros Hs. rewrite clean_unfold.
  destruct (TrimSpace_spec s) as (Hw & Hw' & p & q & Hpq).
  assert (Ht : noSplit (TrimSpace s)).
  { apply (noSplit_sub p _ q). rewrite <- Hpq. exact Hs. }
  split.
  - apply (width_kept space2 space3 space2_ne space3_ne (collapse _));
      eauto using collapse_nil, collapse_cons_ne, collapse_head, front_two, front_three.
  - rewrite <- collapseRev_untab.
    apply (width_kept space2Rev space3Rev space2Rev_ne space3Rev_ne (collapseRev _));
      eauto using collapseRev_nil, collapseRev_cons, collapseRev_head, back_two, back_three.
Qed.

Lemma untab_fix (s : bytes) :
  (forall x, In x s -> x <> tab /\ x <> nl) -> untab s = s.
Proof.
  induction s as [|c r IH]; intros H; [reflexivity|].
  rewrite untab_cons.
  destruct (H c (or_introl eq_refl)) as [Ht Hn].
  destruct (Ascii.eqb_spec tab c) as [E|_]; [congruence|].
  destruct (Ascii.eqb_spec nl c) as [E|_]; [congruence|].
  rewrite IH; [reflexivity|]. intros x Hx. apply H. right. exact Hx.
Qed.

(** cleanPrice leaves its own results alone, provided they start and end
    with no white-space rune. *)
Lemma clean_again (s : bytes) :
  spaceWidth (cleanPriceBytes s) = 0%nat ->
  spaceWidthLast (rev (cleanPriceBytes s)) = 0%nat ->
  cleanPriceBytes (cleanPriceBytes s) = cleanPriceBytes s.
Proof.
  intros H1 H2. rewrite (clean_unfold (cleanPriceBytes s)).
  rewrite (TrimSpace_fix _ H1 H2).
  rewrite (untab_fix _ (clean_no_tab_nl s)).
  apply collapse_fix. apply clean_no_double.
Qed.

Lemma contains_byte (s : bytes) (c : ascii) :
  Contains s [c] = false <-> ~ In c s.
Proof.
  induction s as [|a r IH].
  - cbn. tauto.
  - rewrite contains_cons. cbn [HasPrefix In]. rewrite andb_true_r, orb_false_iff, IH.
    destruct (Ascii.eqb_spec c a) as [->|Hn]; [intuition congruence|].
    intuition congruence.
Qed.

End CleanPrice.

Module CleanPriceString.

Import strings Main StringsFacts PriceFacts TrimFacts Utf8Facts CleanPrice.

Lemma bytes_of_cleanPrice (s : string) :
  list_ascii_of_string (cleanPrice s) = cleanPriceBytes (list_ascii_of_string s).
Proof. unfold cleanPrice. apply list_ascii_of_string_of_list_ascii. Qed.

(** The cases of TestCleanPrice and TestCleanPriceEdgeCases in main_test.go. *)
Example cleanPrice_tests :
  cleanPrice "  $19.99  " = "$19.99" /\
  cleanPrice ("$19.99" +:+ newline +:+ "$29.99") = "$19.99 $29.99" /\
  cleanPrice ("$19.99" +:+ tabulator +:+ tabulator +:+ "USD") = "$19.99USD" /\
  cleanPrice "$19.99    USD" = "$19.99 USD" /\
  cleanPrice "" = "" /\
  cleanPrice ("   " +:+ newline +:+ tabulator +:+ "  ") = "" /\
  cleanPrice (newline +:+ tabulator +:+ "  $19.99  -  $29.99  " +:+ newline) = "$19.99 - $29.99" /\
  cleanPrice "€19.99" = "€19.99".
Proof. repeat split; reflexivity. Qed.

(** C8 (counterexample): cleanPrice is not idempotent on every string.  On
    the bytes C2 09 A0 TrimSpace finds no white-space rune, removing the tab
    leaves C2 A0, which is U+00A0, and a second cleanPrice trims that to the
    empty string. *)
Lemma cleanPrice_not_idempotent :
  cleanPrice splitNBSP = String "194" (String "160" "") /\
  cleanPrice (cleanPrice splitNBSP) = "" /\
  cleanPrice (cleanPrice splitNBSP) <> cleanPrice splitNBSP.
Proof. split; [reflexivity | split; [reflexivity | discriminate]]. Qed.

(** C8 (amended): for every input string, the result of cleanPrice contains
    no newline, no tab and no two consecutive spaces, and neither starts nor
    ends with a space; and cleanPrice is idempotent on every input that is
    well-formed UTF-8. *)
Theorem cleanPrice_shape_idempotent (s : string) :
  contains (cleanPrice s) newline = false /\
  contains (cleanPrice s) tabulator = false /\
  contains (cleanPrice s) "  " = false /\
  hasPrefix (cleanPrice s) " " = false /\
  hasSuffix (cleanPrice s) " " = false /\
  (validUTF8 s = true -> cleanPrice (cleanPrice s) = cleanPrice s).
Proof.
  unfold contains, hasPrefix, hasSuffix, validUTF8.
  rewrite bytes_of_cleanPrice.
  set (b := list_ascii_of_string s).
  repeat split.
  - apply contains_byte. intros H. apply clean_no_tab_nl in H. tauto.
  - apply contains_byte. intros H. apply clean_no_tab_nl in H. tauto.
  - apply clean_no_double.
  - destruct (cleanPriceBytes b) as [|x y] eqn:E; [reflexivity|].
    cbn [list_ascii_of_string HasPrefix]. rewrite andb_true_r.
    destruct (Ascii.eqb_spec " " x) as [<-|_]; [|reflexivity].
    apply clean_head in E. discriminate.
  - cbn [list_ascii_of_string rev app].
    destruct (rev (cleanPriceBytes b)) as [|x y] eqn:E; [reflexivity|].
    cbn [HasPrefix]. rewrite andb_true_r.
    destruct (Ascii.eqb_spec " " x) as [<-|_]; [|reflexivity].
    apply clean_last in E. discriminate.
  - intros Hv. unfold cleanPrice at 1 3. f_equal.
    rewrite bytes_of_cleanPrice. fold b.
    destruct (clean_width b (valid_noSplit b Hv)) as [H1 H2].
    apply clean_again; assumption.
Qed.

(** The amended statement at a price with a euro sign, tabs and a newline. *)
Lemma cleanPrice_shape_idempotent_witness :
  validUTF8 ("€ 19.99" +:+ tabulator +:+ "  -  € 29.99 " +:+ newline) = true /\
  cleanPrice (cleanPrice ("€ 19.99" +:+ tabulator +:+ "  -  € 29.99 " +:+ newline)) =
  cleanPrice ("€ 19.99" +:+ tabulator +:+ "  -  € 29.99 " +:+ newline).
Proof.
  split; [reflexivity|].
  apply (cleanPrice_shape_idempotent
           ("€ 19.99" +:+ tabulator +:+ "  -  € 29.99 " +:+ newline)).
  reflexivity.
Defined.

End CleanPriceString.

(** * The crawler: admission *)

Module Admission.

Import colly Crawler.

Section WithLib.

Context {L : Lib}.

Lemma tryAdmit_result (u : string) (σ : State) :
  snd (tryAdmit u σ) = negb (visited (wc σ) u).
Proof.
  unfold tryAdmit. destruct (visited (wc σ) u); [reflexivity|].
  destruct (append _ _ _). reflexivity.
Qed.

Lemma tryAdmit_seen (u : string) (σ : State) :
  visited (wc σ) u = true -> tryAdmit u σ = (σ, false).
Proof. intros E. unfold tryAdmit. rewrite E. reflexivity. Qed.

Lemma visited_insert (w : WebCrawler) (u v : string) (w' : WebCrawler) :
  visitedURLs w' = <[u := true]> (visitedURLs w) ->
  visited w' v = if decide (u = v) then true else visited w v.
Proof.
  intros E. unfold visited. rewrite E, lookup_insert.
  destruct (decide (u = v)); reflexivity.
Qed.

Lemma tryAdmit_visited (u v : string) (σ : State) :
  visited (wc (fst (tryAdmit u σ))) v = (visited (wc σ) v || bool_decide (u = v)).
Proof.
  unfold tryAdmit. destruct (visited (wc σ) u) eqn:E.
  - cbn [fst]. destruct (bool_decide_reflect (u = v)) as [<-|_].
    + rewrite E. reflexivity.
    + rewrite orb_false_r. reflexivity.
  - destruct (append _ _ _) as [links m']. cbn [fst wc].
    erewrite visited_insert by reflexivity.
    destruct (decide (u = v)) as [->|Hne].
    + rewrite bool_decide_eq_true_2 by reflexivity. rewrite orb_true_r. reflexivity.
    + rewrite bool_decide_eq_false_2 by exact Hne. rewrite orb_false_r. reflexivity.
Qed.

Lemma tryAdmit_counters (u : string) (σ : State) :
  pagesVisited (wc (fst (tryAdmit u σ))) = pagesVisited (wc σ) /\
  maxPages (wc (fst (tryAdmit u σ))) = maxPages (wc σ) /\
  collector (wc (fst (tryAdmit u σ))) = collector (wc σ).
Proof.
  unfold tryAdmit. destruct (visited (wc σ) u); [repeat split|].
  destruct (append _ _ _). repeat split.
Qed.

(** The locked region admits only what the check-and-insert admits. *)
Lemma lockedRegion_cases (u : string) (σ : State) :
  lockedRegion u σ = (σ, false) \/
  ((pagesVisited (wc σ) < maxPages (wc σ))%Z /\ lockedRegion u σ = tryAdmit u σ).
Proof.
  unfold lockedRegion. destruct (Z.leb_spec (maxPages (wc σ)) (pagesVisited (wc σ))).
  - left. reflexivity.
  - right. split; [assumption | reflexivity].
Qed.

(** What one OnHTML callback does: nothing, or the insertion of a URL that
    was not in the set, with a Visit for it. *)
Lemma onHTML_cases (r : Request) (link : string) (σ : State) :
  onHTML r link σ = (σ, []) \/
  exists u, Normalize r link = Some u /\
    (pagesVisited (wc σ) < maxPages (wc σ))%Z /\
    visited (wc σ) u = false /\
    onHTML r link σ = (fst (tryAdmit u σ), [Visit u]).
Proof.
  unfold onHTML. destruct (Normalize r link) as [u|]; [|left; reflexivity].
  destruct (lockedRegion_cases u σ) as [->|[Hlt ->]]; [left; reflexivity|].
  destruct (visited (wc σ) u) eqn:E.
  - left. rewrite (tryAdmit_seen u σ E). reflexivity.
  - right. exists u. repeat split; try assumption.
    pose proof (tryAdmit_result u σ) as Hr. rewrite E in Hr.
    destruct (tryAdmit u σ) as [σ' b]. cbn [snd negb] in Hr. subst b. reflexivity.
Qed.

End WithLib.

End Admission.

(** * The crawler: runs *)

Module Runs.

Import colly Crawler Admission.

(** Induction on the answers of a collector. *)
Lemma Site_induction (P : Site -> Prop) :
  P Refused ->
  (forall anchors, Forall (fun a => P (snd a)) anchors -> P (Fetched anchors)) ->
  forall site, P site.
Proof.
  intros HR HF. fix IH 1. intros [|anchors]; [exact HR|].
  apply HF. induction anchors as [|[link sub] rest IHr]; constructor.
  - apply IH.
  - exact IHr.
Qed.

Section WithLib.

Context {L : Lib}.

Lemma run_app (evs1 evs2 : list Event) (σ : State) :
  run (evs1 ++ evs2) σ =
  (fst (run evs2 (fst (run evs1 σ))),
   snd (run evs1 σ) ++ snd (run evs2 (fst (run evs1 σ)))).
Proof.
  revert σ. induction evs1 as [|ev rest IH]; intros σ.
  - cbn [app run fst snd]. destruct (run evs2 σ). reflexivity.
  - cbn [app run]. destruct (step ev σ) as [σ1 out1].
    rewrite IH. destruct (run rest σ1) as [σ2 out2]. cbn [fst snd].
    rewrite app_assoc. reflexivity.
Qed.

Lemma onRequest_wc (r : Request) (σ : State) :
  visitedURLs (wc (fst (onRequest r σ))) = visitedURLs (wc σ) /\
  maxPages (wc (fst (onRequest r σ))) = maxPages (wc σ) /\
  collector (wc (fst (onRequest r σ))) = collector (wc σ) /\
  pagesVisited (wc (fst (onRequest r σ))) = wrap (pagesVisited (wc σ) + 1) /\
  snd (onRequest r σ) = Crawling (wrap (pagesVisited (wc σ) + 1)) (URL r).
Proof. repeat split. Qed.

(** One callback hands at most one URL to Visit: a URL that was not in the
    visited set and is in it afterwards.  Nothing ever leaves the set. *)
Lemma step_visits (ev : Event) (σ : State) :
  (visits (snd (step ev σ)) = [] /\
   forall v, visited (wc (fst (step ev σ))) v = visited (wc σ) v) \/
  (exists u, visits (snd (step ev σ)) = [u] /\ visited (wc σ) u = false /\
     forall v, visited (wc (fst (step ev σ))) v = (visited (wc σ) v || bool_decide (u = v))).
Proof.
  destruct ev as [r|r link]; cbn [step].
  - left. split; reflexivity.
  - destruct (onHTML_cases r link σ) as [->|(u & _ & _ & Hu & ->)].
    + left. split; reflexivity.
    + right. exists u. repeat split; [exact Hu|].
      intros v. apply tryAdmit_visited.
Qed.

Lemma run_visits (evs : list Event) (σ : State) :
  (forall v, visited (wc σ) v = true -> visited (wc (fst (run evs σ))) v = true) /\
  (forall u, u ∈ visits (snd (run evs σ)) -> visited (wc σ) u = false) /\
  NoDup (visits (snd (run evs σ))).
Proof.
  revert σ. induction evs as [|ev rest IH]; intros σ.
  - cbn [run fst snd visits omap]. repeat split; [auto | | constructor].
    intros u Hu. inversion Hu.
  - cbn [run]. pose proof (step_visits ev σ) as Hs.
    destruct (step ev σ) as [σ1 out1]. specialize (IH σ1).
    destruct (run rest σ1) as [σ2 out2]. cbn [fst snd] in *.
    destruct IH as (Hmono & Hnew & Hnd).
    unfold visits in *. rewrite omap_app.
    destruct Hs as [[-> Hv]|(u & -> & Hu & Hv)]; cbn [app].
    + repeat split.
      * intros v H. apply Hmono. rewrite Hv. exact H.
      * intros u H. rewrite <- Hv. apply Hnew. exact H.
      * exact Hnd.
    + repeat split.
      * intros v H. apply Hmono. rewrite Hv, H. reflexivity.
      * intros v H. apply elem_of_cons in H as [->|H]; [exact Hu|].
        apply Hnew in H. rewrite Hv in H. apply orb_false_iff in H. tauto.
      * apply NoDup_cons. split; [|exact Hnd].
        intros H. apply Hnew in H. rewrite Hv in H.
        rewrite bool_decide_eq_true_2 in H by reflexivity.
        rewrite orb_true_r in H. discriminate.
Qed.

(** A synchronous crawl is one of the interleavings. *)
Lemma scrape_run (site : Site) :
  forall r σ, exists evs,
    run evs σ = (fst (scrape r site σ), map snd (snd (scrape r site σ))).
Proof.
  induction site as [|anchors IH] using Site_induction; intros r σ.
  - exists []. reflexivity.
  - cbn [scrape]. destruct (onRequest r σ) as [σ1 o] eqn:E1.
    assert (Heach : forall σ, exists evs,
      run evs σ = (fst (each scrape r anchors σ), map snd (snd (each scrape r anchors σ)))).
    { clear σ σ1 o E1. induction anchors as [|[link sub] rest IHr]; intros σ.
      - exists []. reflexivity.
      - apply Forall_cons in IH as [IHsub IHrest]. cbn [snd] in IHsub.
        specialize (IHr IHrest). cbn [each].
        destruct (onHTML r link σ) as [σ2 out] eqn:E2.
        assert (Hsub : exists evs, run evs σ2 =
          (fst (match out with
                | Visit target :: _ => scrape {| URL := target; Depth := S (Depth r) |} sub σ2
                | _ => (σ2, [])
                end),
           map snd (snd (match out with
                | Visit target :: _ => scrape {| URL := target; Depth := S (Depth r) |} sub σ2
                | _ => (σ2, [])
                end)))).
        { destruct out as [|[c u|target] out']; try (exists []; reflexivity).
          apply IHsub. }
        destruct Hsub as [evs3 H3].
        destruct (match out with
                  | Visit target :: _ => scrape {| URL := target; Depth := S (Depth r) |} sub σ2
                  | _ => (σ2, [])
                  end) as [σ3 out3].
        destruct (IHr σ3) as [evs4 H4].
        destruct (each scrape r rest σ3) as [σ4 out4]. cbn [fst snd] in *.
        exists (EvHTML r link :: evs3 ++ evs4).
        cbn [run step]. rewrite E2. rewrite run_app, H3. cbn [fst snd]. rewrite H4.
        cbn [fst snd]. rewrite !map_app, map_map. cbn [snd]. rewrite map_id.
        reflexivity. }
    destruct (Heach σ1) as [evs He].
    destruct (each scrape r anchors σ1) as [σ' out]. cbn [fst snd] in *.
    exists (EvRequest r :: evs). cbn [run step]. rewrite E1, He. reflexivity.
Qed.

End WithLib.

Lemma tryAdmitTimes_seen (n : nat) (u : string) (σ : State) :
  visited (wc σ) u = true -> snd (tryAdmitTimes n u σ) = repeat false n.
Proof.
  intros H. induction n as [|n IH]; [reflexivity|].
  cbn [tryAdmitTimes]. rewrite (tryAdmit_seen u σ H).
  destruct (tryAdmitTimes n u σ) as [σ2 bs]. cbn [snd repeat] in *.
  rewrite IH. reflexivity.
Qed.

(** A URL occurs at most once in a list without repetition. *)
Lemma NoDup_once (n : string) (l : list string) :
  NoDup l -> (List.length (List.filter (String.eqb n) l) <= 1)%nat.
Proof.
  induction l as [|x l IH]; intros Hnd; [cbn; lia|].
  apply NoDup_cons in Hnd as [Hx Hnd]. cbn [List.filter].
  destruct (String.eqb_spec n x) as [<-|Hne]; [|apply IH; exact Hnd].
  cbn [List.length].
  assert (List.filter (String.eqb n) l = []) as ->; [|cbn; lia].
  clear IH Hnd. induction l as [|y l IHl]; [reflexivity|].
  cbn [List.filter]. destruct (String.eqb_spec n y) as [<-|_].
  - exfalso. apply Hx. left.
  - apply IHl. intros H'. apply Hx. right. exact H'.
Qed.

(** The callback with budget left, on a link that normalizes: it is the
    check-and-insert, and the Visit when that inserted. *)
Lemma onHTML_admission {L : Lib} (r : Request) (link u : string) (σ : State) :
  Normalize r link = Some u ->
  (pagesVisited (wc σ) < maxPages (wc σ))%Z ->
  onHTML r link σ = (fst (tryAdmit u σ), if visited (wc σ) u then [] else [Visit u]).
Proof.
  intros Hn Hb. unfold onHTML, lockedRegion. rewrite Hn.
  destruct (Z.leb_spec (maxPages (wc σ)) (pagesVisited (wc σ))) as [Hle|_]; [lia|].
  pose proof (tryAdmit_result u σ) as Hr.
  destruct (tryAdmit u σ) as [σ' b]. cbn [fst snd] in *. subst b.
  destruct (visited (wc σ) u); reflexivity.
Qed.

(** C1 (counterexample): the start URL gets a second task.  Crawl hands
    the start URL to the collector without putting it in the visited set,
    so a link of the start page to the page itself is admitted: the
    callback records it and calls Visit on it, whatever the collector then
    answers. *)
Lemma start_url_handed_twice :
  let crawl := Crawl (L := Ref.lib) "http://x/" (Fetched [("/", Refused)])
                 (NewWebCrawler ∅ ["x"] 10) in
  map snd (snd crawl) = [Crawling 1 "http://x/"; Visit "http://x/"] /\
  handed "http://x/" (snd crawl) = ["http://x/"; "http://x/"] /\
  ~ NoDup (handed "http://x/" (snd crawl)) /\
  elems (mem (fst crawl)) (foundLinks (wc (fst crawl))) = ["http://x/"].
Proof.
  assert (E : snd (Crawl (L := Ref.lib) "http://x/" (Fetched [("/", Refused)])
                     (NewWebCrawler ∅ ["x"] 10))
              = [(home, Crawling 1 "http://x/"); (home, Visit "http://x/")])
    by (vm_compute; reflexivity).
  cbv zeta. rewrite E. split; [reflexivity|]. split; [reflexivity|]. split.
  - intros H. apply NoDup_cons in H as [H _]. apply H. left.
  - vm_compute. reflexivity.
Qed.

(** C1 (amended): admission through the check-and-insert of the link
    callback is first-claim.  The check-and-insert answers true and inserts
    the URL exactly when the URL was not in the set; the callback, when the
    link normalizes and the budget is not used up, is this check-and-insert
    followed by Visit when it answered true, and does nothing for a URL in
    the set.  So of any number of attempts on one URL only the first is
    admitted, an admitted URL is never handed to Visit again, and over any
    sequence of callbacks, and in any crawl, the URLs that the link callback
    hands to Visit are pairwise different.  The start URL of Crawl is not
    put in the set: among all URLs handed to the collector it can occur
    twice, every other URL at most once. *)
Theorem admission_first_claim {L : Lib} :
  (forall u σ, snd (tryAdmit u σ) = negb (visited (wc σ) u)) /\
  (forall u σ, visited (wc (fst (tryAdmit u σ))) u = true) /\
  (forall r link u σ,
     Normalize r link = Some u ->
     (pagesVisited (wc σ) < maxPages (wc σ))%Z ->
     onHTML r link σ = (fst (tryAdmit u σ), if visited (wc σ) u then [] else [Visit u]) /\
     visited (wc (fst (onHTML r link σ))) u = true /\
     (visited (wc σ) u = true -> onHTML r link σ = (σ, []))) /\
  (forall n u σ,
     snd (tryAdmitTimes (S n) u σ) = negb (visited (wc σ) u) :: repeat false n) /\
  (forall u σ evs, u ∉ visits (snd (run evs (fst (tryAdmit u σ))))) /\
  (forall σ evs, NoDup (visits (snd (run evs σ)))) /\
  (forall σ startURL site, NoDup (visits (map snd (snd (Crawl startURL site σ))))) /\
  (forall σ startURL site u,
     (List.length (List.filter (String.eqb u)
                     (handed startURL (snd (Crawl startURL site σ))))
      <= if String.eqb u startURL then 2 else 1)%nat).
Proof.
  assert (Hin : forall u σ, visited (wc (fst (tryAdmit u σ))) u = true).
  { intros u σ. rewrite tryAdmit_visited.
    rewrite bool_decide_eq_true_2 by reflexivity. apply orb_true_r. }
  assert (Hcrawl : forall σ startURL site,
            NoDup (visits (map snd (snd (Crawl startURL site σ))))).
  { intros σ startURL site. unfold Crawl.
    destruct (scrape_run site {| URL := startURL; Depth := 0 |} σ) as [evs H].
    pose proof (run_visits evs σ) as (_ & _ & Hnd). rewrite H in Hnd. exact Hnd. }
  split; [apply tryAdmit_result|]. split; [exact Hin|].
  split; [|split; [|split; [|split; [|split]]]].
  - intros r link u σ Hn Hb. rewrite (onHTML_admission r link u σ Hn Hb). cbn [fst].
    split; [reflexivity|]. split; [apply Hin|].
    intros Hv. rewrite Hv, (tryAdmit_seen u σ Hv). reflexivity.
  - intros n u σ. cbn [tryAdmitTimes].
    pose proof (tryAdmit_result u σ) as Hr. specialize (Hin u σ).
    destruct (tryAdmit u σ) as [σ1 b]. cbn [fst snd] in *.
    pose proof (tryAdmitTimes_seen n u σ1 Hin) as Hs.
    destruct (tryAdmitTimes n u σ1) as [σ2 bs]. cbn [snd] in *.
    rewrite Hr, Hs. reflexivity.
  - intros u σ evs H. apply run_visits in H. rewrite Hin in H. discriminate.
  - intros σ evs. apply run_visits.
  - exact Hcrawl.
  - intros σ startURL site u. unfold handed. cbn [List.filter].
    pose proof (NoDup_once u _ (Hcrawl σ startURL site)) as H.
    destruct (String.eqb u startURL); cbn [List.length]; lia.
Qed.

(** A new link and a link seen before, on a crawler with budget left. *)
Lemma admission_first_claim_witness :
  let σ := NewWebCrawler ∅ ["x"] 10 in
  let σ1 := fst (onHTML (L := Ref.lib) home "/a" σ) in
  onHTML (L := Ref.lib) home "/a" σ = (fst (tryAdmit "http://x/a" σ), [Visit "http://x/a"]) /\
  onHTML (L := Ref.lib) home "/a#top" σ1 = (σ1, []).
Proof.
  intros σ σ1.
  destruct (proj1 (proj2 (proj2 (admission_first_claim (L := Ref.lib))))
              home "/a" "http://x/a" σ) as (H1 & H2 & _);
    [reflexivity | vm_compute; reflexivity |].
  split; [exact H1|].
  destruct (proj1 (proj2 (proj2 (admission_first_claim (L := Ref.lib))))
              home "/a#top" "http://x/a" σ1) as (_ & _ & H3);
    [reflexivity | vm_compute; reflexivity |].
  apply H3. exact H2.
Defined.

(** The property test of the specification: twenty attempts on
    "http://x/a", one admission. *)
Example one_of_twenty :
  snd (tryAdmitTimes 20 "http://x/a" (NewWebCrawler ∅ ["x"] 100))
  = true :: repeat false 19.
Proof. vm_compute. reflexivity. Qed.

End Runs.

(** * The crawler: page budget and depth *)

Module Budget.

Import colly Crawler Admission Runs.

Lemma wrap_small (z : Z) : (minInt <= z <= maxInt)%Z -> wrap z = z.
Proof.
  unfold wrap, minInt, maxInt. intros H.
  rewrite Z.mod_small by lia. lia.
Qed.

Lemma NewWebCrawler_counters (m : Mem) (allowedDomains : list string) (P : Z) :
  pagesVisited (wc (NewWebCrawler m allowedDomains P)) = 0%Z /\
  maxPages (wc (NewWebCrawler m allowedDomains P)) = P /\
  collector (wc (NewWebCrawler m allowedDomains P)) =
    {| AllowedDomains := allowedDomains; MaxDepth := 3; Async := false;
                             CacheDir := "" |}.
Proof. unfold NewWebCrawler. destruct (make m 0). repeat split. Qed.

Lemma within_refl (σ : State) :
  (pagesVisited (wc σ) <= maxPages (wc σ))%Z -> within σ σ [].
Proof. intros H. unfold within. cbn. repeat split; try lia. constructor. Qed.

Lemma within_trans (σ1 σ2 σ3 : State) (log1 log2 : list (Request * Output)) :
  within σ1 σ2 log1 -> within σ2 σ3 log2 -> within σ1 σ3 (log1 ++ log2).
Proof.
  unfold within. intros (M1 & B1 & F1 & C1) (M2 & B2 & F2 & C2).
  rewrite map_app. unfold currents in *. rewrite omap_app, length_app.
  rewrite M1 in *. repeat split; try lia.
  apply Forall_app. split; [exact F1|].
  eapply Forall_impl; [exact F2|]. cbn. intros c Hc. lia.
Qed.

Section WithLib.

Context {L : Lib}.

(** The callback of an element leaves the counters alone, and hands a URL
    to Visit only below the budget. *)
Lemma onHTML_budget (r : Request) (link : string) (σ : State) :
  pagesVisited (wc (fst (onHTML r link σ))) = pagesVisited (wc σ) /\
  maxPages (wc (fst (onHTML r link σ))) = maxPages (wc σ) /\
  collector (wc (fst (onHTML r link σ))) = collector (wc σ) /\
  currents (snd (onHTML r link σ)) = [] /\
  (snd (onHTML r link σ) = [] \/
   ((pagesVisited (wc σ) < maxPages (wc σ))%Z /\
    exists u, snd (onHTML r link σ) = [Visit u])).
Proof.
  destruct (onHTML_cases r link σ) as [->|(u & _ & Hlt & _ & ->)].
  - cbn [fst snd]. repeat split. left. reflexivity.
  - cbn [fst snd]. destruct (tryAdmit_counters u σ) as (-> & -> & ->).
    repeat split. right. split; [exact Hlt|]. exists u. reflexivity.
Qed.

Lemma scrape_within (site : Site) :
  forall r σ,
    (0 <= pagesVisited (wc σ) < maxPages (wc σ))%Z ->
    (maxPages (wc σ) <= maxInt)%Z ->
    within σ (fst (scrape r site σ)) (snd (scrape r site σ)).
Proof.
  induction site as [|anchors IH] using Site_induction; intros r σ Hpv Hmax.
  - cbn [scrape fst snd]. apply within_refl. lia.
  - cbn [scrape].
    destruct (onRequest_wc r σ) as (_ & M1 & _ & P1 & O1).
    destruct (onRequest r σ) as [σ1 o]. cbn [fst snd] in *. subst o.
    rewrite wrap_small in P1 by (unfold minInt, maxInt in *; lia).
    assert (Hfirst : within σ σ1 [(r, Crawling (wrap (pagesVisited (wc σ) + 1)) (URL r))]).
    { unfold within. cbn. rewrite wrap_small by (unfold minInt, maxInt in *; lia).
      repeat split; try lia. constructor; [lia | constructor]. }
    assert (Heach : forall σ, (0 <= pagesVisited (wc σ) <= maxPages (wc σ))%Z ->
              (maxPages (wc σ) <= maxInt)%Z ->
              within σ (fst (each scrape r anchors σ)) (snd (each scrape r anchors σ))).
    { clear σ σ1 Hpv Hmax M1 P1 Hfirst.
      induction anchors as [|[link sub] rest IHr]; intros σ Hpv Hmax.
      - cbn [each fst snd]. apply within_refl. lia.
      - apply Forall_cons in IH as [IHsub IHrest]. cbn [snd] in IHsub.
        specialize (IHr IHrest). cbn [each].
        destruct (onHTML_budget r link σ) as (P2 & M2 & _ & C2 & V2).
        destruct (onHTML r link σ) as [σ2 out]. cbn [fst snd] in *.
        assert (H2 : within σ σ2 (map (pair r) out)).
        { unfold within. rewrite map_map. cbn [snd]. rewrite map_id, C2, P2, M2.
          cbn. repeat split; try lia. constructor. }
        assert (H3 : within σ2
          (fst (match out with
                | Visit target :: _ => scrape {| URL := target; Depth := S (Depth r) |} sub σ2
                | _ => (σ2, [])
                end))
          (snd (match out with
                | Visit target :: _ => scrape {| URL := target; Depth := S (Depth r) |} sub σ2
                | _ => (σ2, [])
                end))).
        { destruct V2 as [->|(Hlt & u & ->)].
          - apply within_refl. cbn [fst]. lia.
          - apply IHsub; lia. }
        destruct (match out with
                  | Visit target :: _ => scrape {| URL := target; Depth := S (Depth r) |} sub σ2
                  | _ => (σ2, [])
                  end) as [σ3 out3]. cbn [fst snd] in H3.
        assert (H4 : within σ3 (fst (each scrape r rest σ3)) (snd (each scrape r rest σ3))).
        { destruct H3 as (M3 & B3 & _). apply IHr; lia. }
        destruct (each scrape r rest σ3) as [σ4 out4]. cbn [fst snd] in *.
        exact (within_trans _ _ _ _ _ H2 (within_trans _ _ _ _ _ H3 H4)). }
    specialize (Heach σ1 ltac:(lia) ltac:(lia)).
    destruct (each scrape r anchors σ1) as [σ' out]. cbn [fst snd] in *.
    exact (within_trans _ _ _ _ _ Hfirst Heach).
Qed.

End WithLib.

(** C2 (counterexample): with maxPages = 0 the start URL is still
    dispatched: OnRequest raises pagesVisited to 1, above the budget, and
    one fetch is made where the budget allows none. *)
Lemma budget_overrun :
  let run := Crawl (L := Ref.lib) "http://x/" (Fetched []) (NewWebCrawler ∅ ["x"] 0) in
  currents (map snd (snd run)) = [1%Z] /\
  GetPagesVisited (fst run) = 1%Z /\
  maxPages (wc (fst run)) = 0%Z /\
  (maxPages (wc (fst run)) < GetPagesVisited (fst run))%Z.
Proof. vm_compute. repeat split; reflexivity. Qed.

(** C2 (amended): in a crawl with a budget of at least one page, every
    value of pagesVisited after an increment is between 1 and maxPages, the
    number of dispatched fetches is the final pagesVisited and so at most
    maxPages, and a state in which pagesVisited has reached maxPages admits
    no link. *)
Theorem budget_bound {L : Lib} (m : Mem) (allowedDomains : list string) (P : Z)
    (startURL : string) (site : Site) :
  (1 <= P <= maxInt)%Z ->
  let run := Crawl startURL site (NewWebCrawler m allowedDomains P) in
  Forall (fun c => (1 <= c <= P)%Z) (currents (map snd (snd run))) /\
  (GetPagesVisited (fst run) <= P)%Z /\
  Z.of_nat (List.length (currents (map snd (snd run)))) = GetPagesVisited (fst run) /\
  (forall σ r link, (maxPages (wc σ) <= pagesVisited (wc σ))%Z ->
     onHTML r link σ = (σ, [])).
Proof.
  intros HP run.
  assert (Hgate : forall σ r link, (maxPages (wc σ) <= pagesVisited (wc σ))%Z ->
            onHTML r link σ = (σ, [])).
  { intros σ r link H. destruct (onHTML_cases r link σ) as [E|(u & _ & Hlt & _)];
      [exact E | lia]. }
  subst run. unfold Crawl, GetPagesVisited.
  destruct (NewWebCrawler_counters m allowedDomains P) as (E0 & EP & _).
  pose proof (scrape_within site {| URL := startURL; Depth := 0 |}
                (NewWebCrawler m allowedDomains P)) as H.
  rewrite E0, EP in H. specialize (H ltac:(lia) ltac:(lia)).
  destruct H as (M & B & F & C).
  repeat split; try lia.
  - eapply Forall_impl; [exact F|]. cbn. intros c Hc. lia.
  - exact Hgate.
Qed.

(** The amended statement on a page with five new links and a budget of
    three pages. *)
Lemma budget_bound_witness :
  let site := Fetched [("/a", Fetched []); ("/b", Fetched []); ("/c", Fetched []);
                       ("/d", Fetched []); ("/e", Fetched [])] in
  let run := Crawl (L := Ref.lib) "http://x/" site (NewWebCrawler ∅ ["x"] 3) in
  Forall (fun c => (1 <= c <= 3)%Z) (currents (map snd (snd run))) /\
  (GetPagesVisited (fst run) <= 3)%Z.
Proof.
  intros site run.
  destruct (budget_bound (L := Ref.lib) ∅ ["x"] 3 "http://x/" site) as (H1 & H2 & _).
  - unfold maxInt. lia.
  - split; assumption.
Defined.

(** "A run whose single page links to 5 never-before-seen URLs, with
    maxPages=3, dispatches exactly 3 tasks total": the start page and the
    first two links. *)
Example five_links_three_pages :
  let site := Fetched [("/a", Fetched []); ("/b", Fetched []); ("/c", Fetched []);
                       ("/d", Fetched []); ("/e", Fetched [])] in
  map snd (snd (Crawl (L := Ref.lib) "http://x/" site (NewWebCrawler ∅ ["x"] 3)))
  = [Crawling 1 "http://x/"; Visit "http://x/a"; Crawling 2 "http://x/a";
     Visit "http://x/b"; Crawling 3 "http://x/b"].
Proof. vm_compute. reflexivity. Qed.

End Budget.

Module DepthBound.

Import colly Crawler Admission Runs.

Section WithLib.

Context {L : Lib}.

Lemma scrape_depth (maxDepth : nat) (site : Site) :
  forall r σ,
    Forall (fun e => (Depth (fst e) <= maxDepth)%nat)
           (snd (scrape r (limitDepth maxDepth (Depth r) site) σ)).
Proof.
  induction site as [|anchors IH] using Site_induction; intros r σ.
  - constructor.
  - cbn [limitDepth]. destruct (Nat.leb_spec (Depth r) maxDepth) as [Hd|Hd]; [|constructor].
    cbn [scrape]. destruct (onRequest r σ) as [σ1 o].
    assert (Heach : forall σ,
      Forall (fun e => (Depth (fst e) <= maxDepth)%nat)
        (snd (each scrape r
                (map (fun a => (fst a, limitDepth maxDepth (S (Depth r)) (snd a))) anchors) σ))).
    { clear σ σ1 o. induction anchors as [|[link sub] rest IHr]; intros σ.
      - constructor.
      - apply Forall_cons in IH as [IHsub IHrest]. cbn [snd] in IHsub.
        specialize (IHr IHrest). cbn [map each fst snd].
        destruct (onHTML r link σ) as [σ2 out].
        assert (H3 : Forall (fun e => (Depth (fst e) <= maxDepth)%nat)
          (snd (match out with
                | Visit target :: _ =>
                    scrape {| URL := target; Depth := S (Depth r) |}
                           (limitDepth maxDepth (S (Depth r)) sub) σ2
                | _ => (σ2, [])
                end))).
        { destruct out as [|[c u|target] out']; try constructor.
          apply (IHsub {| URL := target; Depth := S (Depth r) |}). }
        destruct (match out with
                  | Visit target :: _ =>
                      scrape {| URL := target; Depth := S (Depth r) |}
                             (limitDepth maxDepth (S (Depth r)) sub) σ2
                  | _ => (σ2, [])
                  end) as [σ3 out3]. cbn [snd] in H3.
        specialize (IHr σ3).
        destruct (each scrape r _ σ3) as [σ4 out4]. cbn [snd] in *.
        apply Forall_app. split; [|apply Forall_app; split; assumption].
        apply Forall_forall. intros e He. apply list_elem_of_In, in_map_iff in He as (o' & <- & _).
        exact Hd. }
    specialize (Heach σ1).
    destruct (each scrape r _ σ1) as [σ' out]. cbn [snd] in *.
    constructor; [exact Hd | exact Heach].
Qed.

End WithLib.

(** C6: with the collector that NewWebCrawler configures (MaxDepth 3),
    every request of a crawl that is dispatched, and every callback that
    runs, is at depth at most maxDepth, at whatever depth the crawl starts;
    a request beyond maxDepth is refused whatever the site holds, so a link
    found at depth d is followed at depth d+1 only if d+1 is at most
    maxDepth. *)
Theorem depth_bound {L : Lib} (m : Mem) (allowedDomains : list string) (P : Z)
    (startURL : string) (site : Site) :
  let σ := NewWebCrawler m allowedDomains P in
  let maxDepth := MaxDepth (collector (wc σ)) in
  maxDepth = 3%nat /\
  Forall (fun e => (Depth (fst e) <= maxDepth)%nat)
         (snd (CrawlLimited startURL site σ)) /\
  (forall r σ',
     Forall (fun e => (Depth (fst e) <= maxDepth)%nat)
            (snd (scrape r (limitDepth maxDepth (Depth r) site) σ'))) /\
  (forall d sub, limitDepth maxDepth (S (maxDepth + d)) sub = Refused).
Proof.
  intros σ maxDepth. split; [|split; [|split]].
  - unfold maxDepth, σ, NewWebCrawler. destruct (make m 0). reflexivity.
  - unfold CrawlLimited, Crawl.
    apply (scrape_depth _ site {| URL := startURL; Depth := 0 |}).
  - intros r σ'. apply scrape_depth.
  - intros d [|anchors]; [reflexivity|]. cbn [limitDepth].
    destruct (Nat.leb_spec (S (maxDepth + d)) maxDepth); [lia | reflexivity].
Qed.

(** A chain of pages five links deep: the crawl stops at depth 3. *)
Example depth_chain :
  let deep := Fetched [("/1", Fetched [("/2", Fetched [("/3", Fetched [("/4",
                Fetched [("/5", Fetched [])])])])])] in
  map (fun e => Depth (fst e))
      (snd (CrawlLimited (L := Ref.lib) "http://x/" deep (NewWebCrawler ∅ ["x"] 100)))
  = [0; 0; 1; 1; 2; 2; 3; 3]%nat.
Proof. vm_compute. reflexivity. Qed.

End DepthBound.

(** * The reference library: what it does with the fragment *)

Module RefFacts.

Import url Ref.

#[local] Arguments Ascii.eqb : simpl never.









Lemma covered_hash (s : string) : allCovered s = true -> hasByte "#" s = false.
Proof.
  induction s as [|c s IH]; [reflexivity|]. cbn [allCovered hasByte].
  intros H. apply andb_true_iff in H as [Hc H]. rewrite (IH H), orb_false_r.
  destruct (Ascii.eqb_spec c "#") as [->|_]; [discriminate Hc | reflexivity].
Qed.










End RefFacts.

(** * The crawler: link normalization *)

Module Links.

Import colly Crawler Admission Runs.

(** C3 (counterexample): a mailto: link, and an ftp: link, are not
    rejected.  The callback tests the prefix "javascript:" only; both links
    resolve and parse, so a normalized URL comes out and goes on to
    admission. *)
Lemma mailto_not_rejected :
  Ref.getScheme "mailto:a@b.c" = Some ("mailto", "a@b.c") /\
  Normalize (L := Ref.lib) home "mailto:a@b.c" = Some "mailto:a@b.c" /\
  Normalize (L := Ref.lib) home "ftp://x/a" = Some "ftp://x/a" /\
  snd (onHTML (L := Ref.lib) home "mailto:a@b.c" (NewWebCrawler ∅ ["x"] 10))
    = [Visit "mailto:a@b.c"].
Proof. vm_compute. repeat split; reflexivity. Qed.


#[local] Arguments Ascii.eqb : simpl never.





(** C3 (amended): the callback gives no normalized URL exactly when the raw
    link is empty, starts with "#", starts with "javascript:", resolves to
    the empty string (AbsoluteURL could not parse it) or fails to parse.
    Every other link, whatever its scheme, is normalized and treated like
    any link: with budget left and a URL that is not in the visited set,
    the callback puts it in the set and calls Visit on it. *)
Theorem normalize_rejects {L : Lib} (r : Request) (link : string) :
  (Normalize r link = None <->
   link = "" \/ String.prefix "#" link = true \/ String.prefix "javascript:" link = true \/
   AbsoluteURL r link = "" \/ Parse (AbsoluteURL r link) = None) /\
  (forall u σ,
     Normalize r link = Some u ->
     (pagesVisited (wc σ) < maxPages (wc σ))%Z ->
     visited (wc σ) u = false ->
     snd (onHTML r link σ) = [Visit u] /\
     visited (wc (fst (onHTML r link σ))) u = true).
Proof.
  split.
  - unfold Normalize.
    destruct (String.eqb_spec link "") as [->|Hne].
    { cbn [orb]. split; [intros _; left; reflexivity | reflexivity]. }
    cbn [orb].
    destruct (String.prefix "#" link) eqn:Eh.
    { cbn [orb]. split; [intros _; right; left; reflexivity | reflexivity]. }
    cbn [orb].
    destruct (String.prefix "javascript:" link) eqn:Ej.
    { split; [intros _; right; right; left; reflexivity | reflexivity]. }
    destruct (String.eqb_spec (AbsoluteURL r link) "") as [Ea|Ha].
    { split; [intros _; right; right; right; left; exact Ea | reflexivity]. }
    destruct (Parse (AbsoluteURL r link)) as [u|] eqn:Ep.
    + split; [discriminate|].
      intros [H|[H|[H|[H|H]]]]; congruence.
    + split; [intros _; right; right; right; right; reflexivity | reflexivity].
  - intros u σ Hn Hb Hv. unfold onHTML, lockedRegion. rewrite Hn.
    destruct (Z.leb_spec (maxPages (wc σ)) (pagesVisited (wc σ))) as [Hle|_]; [lia|].
    pose proof (tryAdmit_result u σ) as Hr. pose proof (tryAdmit_visited u u σ) as Hi.
    destruct (tryAdmit u σ) as [σ' b]. cbn [fst snd] in *. rewrite Hv in Hr. subst b.
    split; [reflexivity|]. rewrite Hi, bool_decide_eq_true_2 by reflexivity.
    apply orb_true_r.
Qed.

(** An ftp: link on a new crawler. *)
Lemma normalize_rejects_witness :
  snd (onHTML (L := Ref.lib) home "ftp://x/a" (NewWebCrawler ∅ ["x"] 10))
    = [Visit "ftp://x/a"] /\
  visited (wc (fst (onHTML (L := Ref.lib) home "ftp://x/a" (NewWebCrawler ∅ ["x"] 10))))
    "ftp://x/a" = true.
Proof.
  apply (proj2 (normalize_rejects (L := Ref.lib) home "ftp://x/a")
           "ftp://x/a" (NewWebCrawler ∅ ["x"] 10)).
  - reflexivity.
  - vm_compute. reflexivity.
  - reflexivity.
Defined.

(** The rejected shapes of the specification and of crawler_test.go. *)
Example rejected_shapes {L : Lib} (r : Request) :
  Normalize r "" = None /\
  Normalize r "#anchor" = None /\
  Normalize r "javascript:void(0)" = None.
Proof. repeat split. Qed.




End Links.

(** * The crawler: GetFoundLinks *)

Module FoundLinks.

Import colly Crawler Admission Runs.

Lemma fresh_not_allocated (m : Mem) (p : loc) :
  is_Some (m !! p) -> p <> fresh (dom m).
Proof.
  intros H ->. apply elem_of_dom in H. exact (is_fresh (dom m) H).
Qed.

Lemma array_insert (m : Mem) (p q : loc) (a : list string) :
  array (<[p := a]> m) q = if decide (p = q) then a else array m q.
Proof.
  unfold array. rewrite lookup_insert. destruct (decide (p = q)); reflexivity.
Qed.

Lemma allocated_New (m : Mem) (allowedDomains : list string) (P : Z) :
  allocated (NewWebCrawler m allowedDomains P).
Proof.
  unfold allocated, NewWebCrawler, make. cbn [mem wc foundLinks ptr].
  rewrite lookup_insert_eq. eexists. reflexivity.
Qed.

Lemma allocated_step {L : Lib} (ev : Event) (σ : State) :
  allocated σ -> allocated (fst (step ev σ)).
Proof.
  intros H. destruct ev as [r|r link]; cbn [step].
  - exact H.
  - destruct (onHTML_cases r link σ) as [->|(u & _ & _ & Hu & ->)]; [exact H|].
    cbn [fst]. unfold tryAdmit. rewrite Hu. unfold append.
    destruct (len (foundLinks (wc σ)) <? cap (foundLinks (wc σ)))%nat;
      unfold allocated; cbn [fst mem wc foundLinks ptr];
      rewrite lookup_insert_eq; eexists; reflexivity.
Qed.

(** Every state a crawler can reach is allocated. *)
Lemma allocated_run {L : Lib} (evs : list Event) (σ : State) :
  allocated σ -> allocated (fst (run evs σ)).
Proof.
  revert σ. induction evs as [|ev rest IH]; intros σ H; [exact H|].
  cbn [run]. pose proof (allocated_step ev σ H) as H1.
  destruct (step ev σ) as [σ1 out1]. specialize (IH σ1 H1).
  destruct (run rest σ1). exact IH.
Qed.

Lemma GetFoundLinks_spec (σ : State) :
  allocated σ ->
  ptr (fst (GetFoundLinks σ)) <> ptr (foundLinks (wc σ)) /\
  len (fst (GetFoundLinks σ)) = len (foundLinks (wc σ)) /\
  wc (snd (GetFoundLinks σ)) = wc σ /\
  elems (mem (snd (GetFoundLinks σ))) (fst (GetFoundLinks σ))
    = elems (mem σ) (foundLinks (wc σ)) /\
  elems (mem (snd (GetFoundLinks σ))) (foundLinks (wc σ))
    = elems (mem σ) (foundLinks (wc σ)) /\
  allocated (snd (GetFoundLinks σ)).
Proof.
  intros Ha. pose proof (fresh_not_allocated _ _ Ha) as Hne.
  unfold GetFoundLinks, make, copy, allocated, elems.
  cbn [fst snd mem wc ptr len].
  set (src := foundLinks (wc σ)) in *.
  set (p := fresh (dom (mem σ))) in *.
  rewrite Nat.min_id.
  rewrite !array_insert.
  destruct (decide (p = p)) as [_|]; [|congruence].
  destruct (decide (p = ptr src)) as [|_]; [congruence|].
  repeat split.
  - congruence.
  - rewrite drop_replicate, Nat.sub_diag. cbn [replicate]. rewrite app_nil_r.
    rewrite !take_take, !Nat.min_id. reflexivity.
  - rewrite !lookup_insert_ne by congruence. exact Ha.
Qed.

Lemma store_other (m m' : Mem) (s s' : Slice) (i : nat) (v : string) :
  store m s i v = Some m' -> ptr s <> ptr s' ->
  elems m' s' = elems m s' /\ (is_Some (m !! ptr s') -> is_Some (m' !! ptr s')).
Proof.
  unfold store. destruct (i <? len s)%nat; [|discriminate].
  intros [= <-] Hne. unfold elems. rewrite array_insert.
  destruct (decide (ptr s = ptr s')); [contradiction|].
  split; [reflexivity|]. rewrite lookup_insert_ne by exact Hne. auto.
Qed.

(** C10: GetFoundLinks returns a new slice with the elements of foundLinks
    and leaves the crawler as it is; writing to an element of the returned
    slice leaves foundLinks unchanged, and a later GetFoundLinks returns
    the same elements again. *)
Theorem GetFoundLinks_copy (σ : State) :
  allocated σ ->
  let links := fst (GetFoundLinks σ) in
  let σ1 := snd (GetFoundLinks σ) in
  elems (mem σ1) links = elems (mem σ) (foundLinks (wc σ)) /\
  wc σ1 = wc σ /\
  elems (mem σ1) (foundLinks (wc σ1)) = elems (mem σ) (foundLinks (wc σ)) /\
  forall i v m2,
    store (mem σ1) links i v = Some m2 ->
    let σ2 := {| mem := m2; wc := wc σ1 |} in
    elems (mem σ2) (foundLinks (wc σ2)) = elems (mem σ) (foundLinks (wc σ)) /\
    elems (mem (snd (GetFoundLinks σ2))) (fst (GetFoundLinks σ2))
      = elems (mem σ) (foundLinks (wc σ)).
Proof.
  intros Ha. cbv zeta.
  destruct (GetFoundLinks_spec σ Ha) as (Hp & Hl & Hw & He & Hs & Ha1).
  destruct (GetFoundLinks σ) as [links σ1]. cbn [fst snd] in *.
  split; [exact He|]. split; [exact Hw|]. rewrite Hw. split; [exact Hs|].
  intros i v m2 Hst.
  destruct (store_other _ _ _ (foundLinks (wc σ)) _ _ Hst Hp) as [E2 A2].
  assert (Ha2 : allocated {| mem := m2; wc := wc σ |}).
  { unfold allocated. cbn [mem wc]. apply A2.
    unfold allocated in Ha1. rewrite Hw in Ha1. exact Ha1. }
  destruct (GetFoundLinks_spec _ Ha2) as (_ & _ & _ & He2 & _).
  cbn [mem wc] in *.
  split; [congruence|]. rewrite He2. congruence.
Qed.

(** The test "returns copy not reference": one link found, the returned
    copy modified, and the links read again. *)
Lemma GetFoundLinks_copy_witness :
  let σ := fst (run (L := Ref.lib) [EvRequest home; EvHTML home "/page1"]
                  (NewWebCrawler ∅ ["example.com"] 10)) in
  elems (mem (snd (GetFoundLinks σ))) (fst (GetFoundLinks σ)) = ["http://x/page1"] /\
  forall m2,
    store (mem (snd (GetFoundLinks σ))) (fst (GetFoundLinks σ)) 0 "modified" = Some m2 ->
    let σ2 := {| mem := m2; wc := wc (snd (GetFoundLinks σ)) |} in
    elems m2 (fst (GetFoundLinks σ)) = ["modified"] /\
    elems (mem (snd (GetFoundLinks σ2))) (fst (GetFoundLinks σ2)) = ["http://x/page1"].
Proof.
  intros σ.
  assert (Ha : allocated σ) by (apply allocated_run, allocated_New).
  destruct (GetFoundLinks_copy σ Ha) as (H1 & _ & _ & H4).
  assert (E : elems (mem σ) (foundLinks (wc σ)) = ["http://x/page1"]) by (vm_compute; reflexivity).
  rewrite E in H1, H4. split; [exact H1|].
  intros m2 Hst σ2. split.
  - vm_compute in Hst. injection Hst as <-. vm_compute. reflexivity.
  - apply (H4 0%nat "modified" m2 Hst).
Defined.

End FoundLinks.

(** * Configuration, retries and the export *)

Module Config.

Import colly Crawler Scraper.

(** C7 (counterexample): a negative page budget is accepted.
    NewWebCrawler returns a crawler with maxPages = -1, and Crawl dispatches
    the start URL: nothing fails before the fetch. *)
Lemma negative_budget_accepted :
  let σ := NewWebCrawler ∅ ["x"] (-1) in
  maxPages (wc σ) = (-1)%Z /\
  map snd (snd (Crawl (L := Ref.lib) "http://x/" (Fetched []) σ))
    = [Crawling 1 "http://x/"].
Proof. vm_compute. split; reflexivity. Qed.

(** C7 (amended): the only input that is validated is the start URL of
    Scraper.Scrape, through url.Parse: when it fails, Scrape returns the
    error "invalid URL" and hands nothing to the collector, and otherwise
    the start URL goes to collector.Visit.  NewWebCrawler takes any page
    budget and any list of domains as they are; depth, parallelism and
    delays are constants of the program. *)
Theorem start_url_validated {L : Lib} :
  (forall visit startURL,
     Parse startURL = None -> Scrape visit startURL = (Some InvalidURL, [])) /\
  (forall visit startURL,
     Parse startURL <> None -> snd (Scrape visit startURL) = [startURL]) /\
  (forall m allowedDomains P,
     maxPages (wc (NewWebCrawler m allowedDomains P)) = P /\
     AllowedDomains (Crawler.collector (wc (NewWebCrawler m allowedDomains P)))
       = allowedDomains /\
     MaxDepth (Crawler.collector (wc (NewWebCrawler m allowedDomains P))) = 3%nat) /\
  (forall allowedDomains,
     AllowedDomains (Scraper.collector (NewScraper allowedDomains)) = allowedDomains /\
     MaxDepth (Scraper.collector (NewScraper allowedDomains)) = 3%nat /\
     Parallelism (listingLimit (NewScraper allowedDomains)) = 4%Z /\
     Delay (listingLimit (NewScraper allowedDomains)) = (500 * Millisecond)%Z /\
     Parallelism (detailLimit (NewScraper allowedDomains)) = 2%Z /\
     Delay (detailLimit (NewScraper allowedDomains)) = Second).
Proof.
  split; [|split; [|split]].
  - intros visit startURL H. unfold Scrape. rewrite H. reflexivity.
  - intros visit startURL H. unfold Scrape.
    destruct (Parse startURL); [|congruence].
    destruct (visit startURL); reflexivity.
  - intros m allowedDomains P. unfold NewWebCrawler. destruct (make m 0).
    repeat split.
  - intros allowedDomains. repeat split.
Qed.

(** A start URL with a control character, and one that parses. *)
Lemma start_url_validated_witness :
  Scrape (L := Ref.lib) (fun _ => true) (String "010" "http://x/") = (Some InvalidURL, []) /\
  snd (Scrape (L := Ref.lib) (fun _ => true) "http://x/") = ["http://x/"].
Proof.
  split.
  - apply (proj1 (start_url_validated (L := Ref.lib)) (fun _ => true) (String "010" "http://x/")).
    reflexivity.
  - apply (proj1 (proj2 (start_url_validated (L := Ref.lib))) (fun _ => true) "http://x/").
    discriminate.
Defined.

End Config.

Module Retries.

Import Scraper.

Lemma onError_transient (statusCode : Z) :
  statusCode = 429%Z \/ statusCode = 503%Z ->
  onError statusCode = [LogError statusCode; LogRetry; Sleep (5 * Second); Retry].
Proof. intros [->| ->]; reflexivity. Qed.

Lemma onError_other (statusCode : Z) :
  statusCode <> 429%Z -> statusCode <> 503%Z ->
  onError statusCode = [LogError statusCode].
Proof.
  intros H1 H2. unfold onError.
  destruct (Z.eqb_spec statusCode 429); [contradiction|].
  destruct (Z.eqb_spec statusCode 503); [contradiction|]. reflexivity.
Qed.

Lemma fetch_transient (server : nat -> Answer) :
  (forall k, server k = Failure 429 \/ server k = Failure 503) ->
  forall fuel attempt asleep,
    fetch fuel server attempt asleep =
    Retrying (attempt + fuel) (asleep + 5 * Second * Z.of_nat fuel).
Proof.
  intros Hs. induction fuel as [|fuel IH]; intros attempt asleep.
  - cbn [fetch]. f_equal; lia.
  - cbn [fetch]. destruct (Hs attempt) as [-> | ->].
    + rewrite onError_transient by (left; reflexivity).
      cbn [existsb isRetry orb slept fold_right sleepOf].
      rewrite IH. f_equal; lia.
    + rewrite onError_transient by (right; reflexivity).
      cbn [existsb isRetry orb slept fold_right sleepOf].
      rewrite IH. f_equal; lia.
Qed.

(** C5 (counterexample): no maximum attempt count bounds the retries.  For
    a URL that always answers 503, whatever bound is proposed, following
    the request for more attempts than that shows it still being retried. *)
Lemma retries_unbounded :
  ~ exists maxAttempts, forall fuel,
      (attempts (fetch fuel always503 0 0) <= maxAttempts)%nat.
Proof.
  intros [maxAttempts H]. specialize (H (S maxAttempts)).
  rewrite fetch_transient in H by (intros k; right; reflexivity).
  cbn [attempts] in H. lia.
Qed.

(** C5 (amended): the listing collector retries a request that failed with
    status 429 or 503 after sleeping 5 seconds inside the error callback,
    and does so without a limit: a URL that always answers 429 or 503 is
    still being retried after any number of attempts, having slept 5 seconds
    per attempt, and is never dropped.  A request that fails with another
    status is logged and not retried. *)
Theorem retry_without_limit :
  (forall server,
     (forall k, server k = Failure 429 \/ server k = Failure 503) ->
     forall fuel,
       fetch fuel server 0 0 = Retrying fuel (5 * Second * Z.of_nat fuel)) /\
  (forall statusCode,
     statusCode = 429%Z \/ statusCode = 503%Z ->
     onError statusCode = [LogError statusCode; LogRetry; Sleep (5 * Second); Retry]) /\
  (forall statusCode server fuel,
     statusCode <> 429%Z -> statusCode <> 503%Z ->
     server 0%nat = Failure statusCode ->
     fetch (S fuel) server 0 0 = Failed 1).
Proof.
  split; [|split].
  - intros server Hs fuel. rewrite fetch_transient by exact Hs. f_equal.
  - exact onError_transient.
  - intros statusCode server fuel H1 H2 Hs. cbn [fetch]. rewrite Hs.
    rewrite onError_other by assumption. reflexivity.
Qed.

(** Ten attempts against a server that always answers 503, and one against
    a page that is missing. *)
Lemma retry_without_limit_witness :
  fetch 10 always503 0 0 = Retrying 10 (50 * Second) /\
  fetch 10 (fun _ => Failure 404) 0 0 = Failed 1.
Proof.
  split.
  - apply (proj1 retry_without_limit always503). intros k. right. reflexivity.
  - apply (proj2 (proj2 retry_without_limit) 404%Z); [discriminate | discriminate | reflexivity].
Defined.

End Retries.

Module CsvFacts.

Import Main.

Section WithTime.

Variable Time : Type.
Variable Format : Time -> string -> string.

Lemma writeProducts_ok (os : OS) (products : list (Product Time)) :
  (forall k, writeFails os k = false) ->
  forall written,
    writeProducts Format os written products =
    (written ++ map (row Format) products, None).
Proof.
  intros Hw. induction products as [|p rest IH]; intros written.
  - cbn [writeProducts map]. rewrite app_nil_r. reflexivity.
  - cbn [writeProducts map]. unfold Write. rewrite Hw.
    rewrite IH, <- app_assoc. reflexivity.
Qed.

(** What has been written is a prefix of the rows of the products, also
    when a write fails. *)
Lemma writeProducts_prefix (os : OS) (products : list (Product Time)) :
  forall written, exists n,
    fst (writeProducts Format os written products) =
    written ++ take n (map (row Format) products).
Proof.
  induction products as [|p rest IH]; intros written.
  - exists 0%nat. cbn. rewrite app_nil_r. reflexivity.
  - cbn [writeProducts map]. unfold Write.
    destruct (writeFails os (List.length written)).
    + exists 0%nat. cbn. rewrite app_nil_r. reflexivity.
    + destruct (IH (written ++ [row Format p])) as [n Hn].
      exists (S n). rewrite Hn, <- app_assoc. reflexivity.
Qed.

End WithTime.

(** C9: when the file can be created and the writes and the final Flush
    succeed, exportToCSV returns nil and the file holds the header row followed by one row per
    product, in the order of the list, each made of Name, Price, URL, Image
    and ScrapedAt in RFC 3339 format; for an empty list, the header row
    only. *)
Theorem exportToCSV_rows (Time : Type) (Format : Time -> string -> string)
    (os : OS) (products : list (Product Time)) (filename : string) :
  createFails os filename = false ->
  (forall k, writeFails os k = false) ->
  flushFails os = false ->
  exportToCSV Format os products filename =
    (Holds (["Name"; "Price"; "URL"; "Image"; "Scraped At"] ::
            map (fun p => [Name p; Price p; URL p; Image p; Format (ScrapedAt p) RFC3339])
                products),
     None) /\
  exportToCSV Format os [] filename =
    (Holds [["Name"; "Price"; "URL"; "Image"; "Scraped At"]], None).
Proof.
  intros Hc Hw Hf. unfold exportToCSV, Write, flushAndClose. rewrite Hc, Hw, Hf.
  rewrite !writeProducts_ok by exact Hw. split; reflexivity.
Qed.

(** The test "handles file write errors": nothing is written when the file
    cannot be created. *)
Example exportToCSV_invalid_path (Time : Type) (Format : Time -> string -> string)
    (os : OS) (products : list (Product Time)) (filename : string) :
  createFails os filename = true ->
  exportToCSV Format os products filename = (NotCreated, Some ErrCreateFile).
Proof. intros H. unfold exportToCSV. rewrite H. reflexivity. Qed.

Lemma exportToCSV_rows_witness :
  exportToCSV testFormat healthy testProducts "test.csv" =
    (Holds [["Name"; "Price"; "URL"; "Image"; "Scraped At"];
            ["Test Product 1"; "$19.99"; "http://example.com/product1";
             "http://example.com/image1.jpg"; "2024-01-01T12:00:00Z"];
            ["Test Product 2"; "$29.99"; "http://example.com/product2";
             "http://example.com/image2.jpg"; "2024-01-01T12:00:00Z"]],
     None).
Proof.
  apply (exportToCSV_rows unit testFormat healthy testProducts "test.csv");
    [reflexivity | intros k; reflexivity | reflexivity].
Defined.

End CsvFacts.

(** * ExtractDomain *)

Module HelpersFacts.

Import strings Main Helpers.

#[local] Arguments Ascii.eqb : simpl never.

Lemma Index_byte_cons (c d : ascii) (r : bytes) :
  Index (d :: r) [c] = if Ascii.eqb c d then Some 0%nat else option_map S (Index r [c]).
Proof. cbn [Index HasPrefix]. rewrite andb_true_r. reflexivity. Qed.

(** The first occurrence: nothing before it is the byte. *)
Lemma Index_Some (s : bytes) (c : ascii) (i : nat) :
  Index s [c] = Some i ->
  exists r, s = take i s ++ c :: r /\ ~ In c (take i s) /\ List.length (take i s) = i.
Proof.
  revert i. induction s as [|d s IH]; intros i; [discriminate|].
  rewrite Index_byte_cons. destruct (Ascii.eqb_spec c d) as [<-|Hne].
  - intros [= <-]. exists s. cbn. tauto.
  - destruct (Index s [c]) as [j|] eqn:E; [|discriminate].
    intros [= <-]. destruct (IH j eq_refl) as (r & Hs & Hn & Hl).
    exists r. cbn [take app In List.length]. split; [congruence|].
    split; [intros [H|H]; [congruence | contradiction] | congruence].
Qed.

Lemma Index_None (s : bytes) (c : ascii) :
  Index s [c] = None <-> ~ In c s.
Proof.
  induction s as [|d s IH]; [cbn; tauto|].
  rewrite Index_byte_cons. destruct (Ascii.eqb_spec c d) as [<-|Hne].
  - cbn. split; [discriminate | tauto].
  - destruct (Index s [c]) as [j|] eqn:E; cbn [option_map].
    + split; [discriminate|]. intros H. exfalso. apply H. right.
      destruct (in_dec ascii_dec c s) as [Hin|Hnin]; [exact Hin|].
      apply IH in Hnin. discriminate.
    + split; [|reflexivity]. intros _ [H|H]; [congruence|].
      exact (proj1 IH eq_refl H).
Qed.

Lemma Index_first (p r : bytes) (c : ascii) :
  ~ In c p -> Index (p ++ c :: r) [c] = Some (List.length p).
Proof.
  induction p as [|d p IH]; intros H.
  - cbn [app]. rewrite Index_byte_cons.
    destruct (Ascii.eqb_spec c c); [reflexivity | congruence].
  - cbn [app]. rewrite Index_byte_cons.
    destruct (Ascii.eqb_spec c d) as [->|_]; [exfalso; apply H; left; reflexivity|].
    rewrite IH; [reflexivity|]. intros H'. apply H. right. exact H'.
Qed.

(** What the last step of ExtractDomain returns holds no slash. *)
Lemma cut_no_slash (d : bytes) :
  ~ In slash (match Index d [slash] with Some idx => take idx d | None => d end).
Proof.
  destruct (Index d [slash]) as [idx|] eqn:E.
  - apply Index_Some in E as (r & _ & H & _). exact H.
  - apply Index_None. exact E.
Qed.

Lemma ExtractDomainBytes_no_slash (s : bytes) : ~ In slash (ExtractDomainBytes s).
Proof. unfold ExtractDomainBytes. apply cut_no_slash. Qed.

(** A string without a slash is returned as it is. *)
Lemma ExtractDomainBytes_id (s : bytes) :
  ~ In slash s -> ExtractDomainBytes s = s.
Proof.
  intros H. unfold ExtractDomainBytes.
  assert (H7 : bool_decide (take 7 s = httpPrefix) = false).
  { apply bool_decide_eq_false_2. intros E. apply H.
    rewrite <- (take_drop 7 s), E. apply in_or_app. left. vm_compute. tauto. }
  assert (H8 : bool_decide (take 8 s = httpsPrefix) = false).
  { apply bool_decide_eq_false_2. intros E. apply H.
    rewrite <- (take_drop 8 s), E. apply in_or_app. left. vm_compute. tauto. }
  rewrite H7, H8, !andb_false_r.
  apply Index_None in H. rewrite H. reflexivity.
Qed.

Lemma bytes_of_append (a b : string) :
  list_ascii_of_string (a ++ b)%string = list_ascii_of_string a ++ list_ascii_of_string b.
Proof.
  induction a as [|c a IH]; [reflexivity|].
  simpl. rewrite IH. reflexivity.
Qed.

(** The bytes after the scheme: the host, then nothing or a path. *)
Lemma after_scheme (host rest : bytes) :
  ~ In slash host -> (rest = [] \/ exists r, rest = slash :: r) ->
  match Index (host ++ rest) [slash] with
  | Some idx => take idx (host ++ rest)
  | None => host ++ rest
  end = host.
Proof.
  intros Hh [->|[r ->]].
  - rewrite app_nil_r. apply Index_None in Hh. rewrite Hh. reflexivity.
  - rewrite Index_first by exact Hh. rewrite take_app_length. reflexivity.
Qed.

Lemma ExtractDomainBytes_http (host rest : bytes) :
  ~ In slash host -> (rest = [] \/ exists r, rest = slash :: r) ->
  host ++ rest <> [] ->
  ExtractDomainBytes (httpPrefix ++ host ++ rest) = host /\
  ExtractDomainBytes (httpsPrefix ++ host ++ rest) = host.
Proof.
  intros Hh Hr Hne.
  assert (Hl : (0 < List.length (host ++ rest))%nat).
  { destruct (host ++ rest); [congruence | cbn; lia]. }
  unfold ExtractDomainBytes. split.
  - replace (7 <? List.length (httpPrefix ++ host ++ rest))%nat with true
      by (symmetry; apply Nat.ltb_lt; rewrite length_app; cbn; lia).
    change (take 7 (httpPrefix ++ host ++ rest)) with httpPrefix.
    rewrite bool_decide_eq_true_2 by reflexivity. cbn [andb].
    change (drop 7 (httpPrefix ++ host ++ rest)) with (host ++ rest).
    apply after_scheme; assumption.
  - change (take 7 (httpsPrefix ++ host ++ rest))
      with (list_ascii_of_string "https:/").
    rewrite (bool_decide_eq_false_2 (list_ascii_of_string "https:/" = httpPrefix))
      by discriminate.
    rewrite andb_false_r.
    replace (8 <? List.length (httpsPrefix ++ host ++ rest))%nat with true
      by (symmetry; apply Nat.ltb_lt; rewrite length_app; cbn; lia).
    change (take 8 (httpsPrefix ++ host ++ rest)) with httpsPrefix.
    rewrite bool_decide_eq_true_2 by reflexivity. cbn [andb].
    change (drop 8 (httpsPrefix ++ host ++ rest)) with (host ++ rest).
    apply after_scheme; assumption.
Qed.

Lemma bytes_of_ExtractDomain (s : string) :
  list_ascii_of_string (ExtractDomain s) = ExtractDomainBytes (list_ascii_of_string s).
Proof. unfold ExtractDomain. apply list_ascii_of_string_of_list_ascii. Qed.

(** X1: the result of ExtractDomain never contains a slash, and
    ExtractDomain is idempotent: a second call returns its argument. *)
Theorem ExtractDomain_no_slash_idempotent (serverURL : string) :
  contains (ExtractDomain serverURL) "/" = false /\
  ExtractDomain (ExtractDomain serverURL) = ExtractDomain serverURL.
Proof.
  split.
  - unfold contains. rewrite bytes_of_ExtractDomain.
    apply CleanPrice.contains_byte. apply ExtractDomainBytes_no_slash.
  - unfold ExtractDomain at 1 3. f_equal. rewrite bytes_of_ExtractDomain.
    apply ExtractDomainBytes_id. apply ExtractDomainBytes_no_slash.
Qed.

(** X2: for a host without a slash followed by nothing or by a path that
    starts with a slash (host and path not both empty), ExtractDomain
    returns the host, port included, of both "http://host/path" and
    "https://host/path". *)
Theorem ExtractDomain_host (host rest : string) :
  contains host "/" = false ->
  rest = "" \/ hasPrefix rest "/" = true ->
  host <> "" \/ rest <> "" ->
  ExtractDomain ("http://" ++ host ++ rest)%string = host /\
  ExtractDomain ("https://" ++ host ++ rest)%string = host.
Proof.
  intros Hh Hr Hne.
  assert (Hh' : ~ In slash (list_ascii_of_string host)).
  { apply CleanPrice.contains_byte. exact Hh. }
  assert (Hr' : list_ascii_of_string rest = [] \/
                exists r, list_ascii_of_string rest = slash :: r).
  { destruct Hr as [->|Hr]; [left; reflexivity|]. right.
    unfold hasPrefix in Hr. destruct (list_ascii_of_string rest) as [|c r]; [discriminate|].
    cbn [list_ascii_of_string HasPrefix] in Hr. rewrite andb_true_r in Hr.
    apply Ascii.eqb_eq in Hr. subst c. exists r. reflexivity. }
  assert (Hne' : list_ascii_of_string host ++ list_ascii_of_string rest <> []).
  { intros E. apply app_eq_nil in E as [E1 E2].
    destruct Hne as [H|H]; apply H.
    - destruct host; [reflexivity | discriminate].
    - destruct rest; [reflexivity | discriminate]. }
  destruct (ExtractDomainBytes_http _ _ Hh' Hr' Hne') as [H1 H2].
  unfold ExtractDomain. rewrite !bytes_of_append. fold httpPrefix httpsPrefix.
  rewrite H1, H2, string_of_list_ascii_of_string. split; reflexivity.
Qed.

(** The URL of a test server, as the tests pass it. *)
Lemma ExtractDomain_host_witness :
  ExtractDomain "http://127.0.0.1:8080/products?page=2" = "127.0.0.1:8080" /\
  ExtractDomain "https://127.0.0.1:8080/products?page=2" = "127.0.0.1:8080".
Proof.
  apply (ExtractDomain_host "127.0.0.1:8080" "/products?page=2").
  - reflexivity.
  - right. reflexivity.
  - left. discriminate.
Defined.

(** The guard is [len(domain) > 7]: the bare scheme is not removed. *)
Example ExtractDomain_bare_scheme :
  ExtractDomain "http://" = "http:" /\ ExtractDomain "https://" = "https:" /\
  ExtractDomain "" = "" /\ ExtractDomain "localhost:8080" = "localhost:8080".
Proof. repeat split. Qed.

End HelpersFacts.

(** * cleanPrice: length and fixed points *)

Module CleanPriceMore.

Import strings Main MainFlow StringsFacts PriceFacts TrimFacts CleanPrice CleanPriceString.

#[local] Arguments Ascii.eqb : simpl never.

Lemma untab_length (s : bytes) : (List.length (untab s) <= List.length s)%nat.
Proof.
  induction s as [|c r IH]; [reflexivity|].
  rewrite untab_cons. destruct (Ascii.eqb tab c); cbn [List.length]; lia.
Qed.

Lemma collapse_length (n : nat) (s : bytes) :
  (List.length (collapse n s) <= List.length s)%nat.
Proof.
  revert s. induction n as [|n IH]; intros s; [reflexivity|].
  cbn [collapse]. destruct (Contains s SP2); [|reflexivity].
  specialize (IH (ReplaceAll s SP2 SP)). pose proof (squeeze_length s). lia.
Qed.

Lemma TrimSpace_length (s : bytes) :
  (List.length (TrimSpace s) <= List.length s)%nat.
Proof.
  destruct (TrimSpace_spec s) as (_ & _ & p & q & H).
  rewrite H at 2. rewrite !length_app. lia.
Qed.

(** A trim that keeps the length keeps the string. *)
Lemma TrimSpace_same_length (s : bytes) :
  List.length (TrimSpace s) = List.length s -> TrimSpace s = s.
Proof.
  intros Hl. destruct (TrimSpace_spec s) as (_ & _ & p & q & H).
  assert (Hpq : List.length p = 0%nat /\ List.length q = 0%nat).
  { apply (f_equal (@List.length ascii)) in H. rewrite !length_app in H. lia. }
  destruct Hpq as [Hp Hq].
  destruct p; [|discriminate]. destruct q; [|discriminate].
  cbn [app] in H. rewrite app_nil_r in H. symmetry. exact H.
Qed.

Lemma clean_length (s : bytes) :
  (List.length (cleanPriceBytes s) <= List.length s)%nat.
Proof.
  rewrite clean_unfold.
  pose proof (collapse_length (List.length (untab (TrimSpace s))) (untab (TrimSpace s))).
  pose proof (untab_length (TrimSpace s)). pose proof (TrimSpace_length s). lia.
Qed.

Lemma clean_fixed (s : bytes) :
  cleanPriceBytes s = s <->
  TrimSpace s = s /\ ~ In nl s /\ ~ In tab s /\ Contains s SP2 = false.
Proof.
  split.
  - intros E. split; [|split; [|split]].
    + apply TrimSpace_same_length.
      pose proof (collapse_length (List.length (untab (TrimSpace s))) (untab (TrimSpace s))) as H1.
      pose proof (untab_length (TrimSpace s)) as H2.
      pose proof (TrimSpace_length s) as H3.
      rewrite <- clean_unfold, E in H1. lia.
    + intros H. rewrite <- E in H. apply clean_no_tab_nl in H. tauto.
    + intros H. rewrite <- E in H. apply clean_no_tab_nl in H. tauto.
    + rewrite <- E. apply clean_no_double.
  - intros (Ht & Hn & Htab & Hd). rewrite clean_unfold, Ht.
    rewrite untab_fix.
    + apply collapse_fix. exact Hd.
    + intros x Hx. split; intros ->; contradiction.
Qed.

Lemma clean_empty (s : bytes) : cleanPriceBytes s = [] <-> TrimSpace s = [].
Proof.
  rewrite clean_unfold. split.
  - intros E. destruct (TrimSpace_spec s) as (Hw & _ & _).
    destruct (first_kept space2 space3
                (collapse (List.length (untab (TrimSpace s))))
                (fun c r => collapse_cons_ne _ c r) (TrimSpace s) Hw)
      as [H|(a & r & _ & _ & H)]; [exact H|].
    rewrite H in E. discriminate.
  - intros ->. reflexivity.
Qed.

Lemma string_length_bytes (s : string) :
  String.length s = List.length (list_ascii_of_string s).
Proof. induction s as [|c s IH]; [reflexivity|]. cbn. rewrite IH. reflexivity. Qed.

Lemma string_of_bytes_inj (a b : bytes) :
  string_of_list_ascii a = string_of_list_ascii b -> a = b.
Proof.
  intros H. apply (f_equal list_ascii_of_string) in H.
  rewrite !list_ascii_of_string_of_list_ascii in H. exact H.
Qed.

Lemma string_eq_bytes (s : string) (b : bytes) :
  string_of_list_ascii b = s <-> b = list_ascii_of_string s.
Proof.
  split.
  - intros <-. symmetry. apply list_ascii_of_string_of_list_ascii.
  - intros ->. apply string_of_list_ascii_of_string.
Qed.

(** X3: cleanPrice returns a string unchanged exactly when the string is
    already clean: TrimSpace leaves it alone and it contains no newline, no
    tab and no two consecutive spaces. *)
Theorem cleanPrice_fixed_points (s : string) :
  cleanPrice s = s <->
  trimSpace s = s /\
  contains s newline = false /\ contains s tabulator = false /\ contains s "  " = false.
Proof.
  unfold cleanPrice, trimSpace, contains.
  rewrite !string_eq_bytes, clean_fixed.
  change (list_ascii_of_string newline) with [nl].
  change (list_ascii_of_string tabulator) with [tab].
  change (list_ascii_of_string "  ") with SP2.
  rewrite !contains_byte. reflexivity.
Qed.

(** X4: cleanPrice never returns a longer string than it was given, and it
    returns the empty string exactly when TrimSpace does, that is, when the
    input is white space only. *)
Theorem cleanPrice_length (s : string) :
  (String.length (cleanPrice s) <= String.length s)%nat /\
  (cleanPrice s = "" <-> trimSpace s = "").
Proof.
  split.
  - rewrite !string_length_bytes, bytes_of_cleanPrice. apply clean_length.
  - unfold cleanPrice, trimSpace. rewrite !string_eq_bytes. apply clean_empty.
Qed.

End CleanPriceMore.

(** * exportToCSV when writes fail, and the end of main *)

Module CsvFailures.

Import Main MainFlow.

Lemma firstFailure_range (os : OS) (count from : nat) :
  (from <= firstFailure os from count <= from + count)%nat.
Proof.
  revert from. induction count as [|c IH]; intros from; cbn [firstFailure]; [lia|].
  destruct (writeFails os from); [lia|]. specialize (IH (S from)). lia.
Qed.

Lemma firstFailure_none (os : OS) (count from : nat) :
  firstFailure os from count = (from + count)%nat <->
  forall k, (from <= k < from + count)%nat -> writeFails os k = false.
Proof.
  revert from. induction count as [|c IH]; intros from; cbn [firstFailure].
  - split; [intros _ k Hk; lia | intros _; lia].
  - destruct (writeFails os from) eqn:E.
    + split; [lia|]. intros H. rewrite H in E by lia. discriminate.
    + rewrite Nat.add_succ_r, <- Nat.add_succ_l, IH. split.
      * intros H k Hk. destruct (decide (k = from)) as [->|]; [exact E|]. apply H. lia.
      * intros H k Hk. apply H. lia.
Qed.

Lemma firstFailure_fails (os : OS) (count from : nat) :
  firstFailure os from count <> (from + count)%nat ->
  writeFails os (firstFailure os from count) = true.
Proof.
  revert from. induction count as [|c IH]; intros from; cbn [firstFailure]; [lia|].
  destruct (writeFails os from) eqn:E; [intros _; exact E|].
  intros H. apply IH. lia.
Qed.

Section WithTime.

Variable Time : Type.
Variable Format : Time -> string -> string.

Lemma firstFailure_ext (a b : OS) (count from : nat) :
  (forall k, writeFails a k = writeFails b k) ->
  firstFailure a from count = firstFailure b from count.
Proof.
  intros H. revert from. induction count as [|c IH]; intros from; cbn [firstFailure];
    [reflexivity|].
  rewrite H, IH. reflexivity.
Qed.

Lemma writeProducts_first_failure (os : OS) (products : list (Product Time)) :
  forall written,
    writeProducts Format os written products =
    let n := firstFailure os (List.length written) (List.length products) in
    (written ++ take (n - List.length written) (map (row Format) products),
     if (n =? List.length written + List.length products)%nat then None
     else Some ErrWriteRow).
Proof.
  induction products as [|p rest IH]; intros written; cbv zeta.
  - cbn [writeProducts List.length firstFailure map]. rewrite take_nil, app_nil_r.
    rewrite Nat.add_0_r, Nat.eqb_refl. reflexivity.
  - cbn [writeProducts List.length firstFailure map]. unfold Write.
    destruct (writeFails os (List.length written)) eqn:E.
    + rewrite Nat.sub_diag. cbn [take]. rewrite app_nil_r.
      destruct (Nat.eqb_spec (List.length written) (List.length written + S (List.length rest)));
        [lia | reflexivity].
    + rewrite IH. cbv zeta. rewrite length_app. cbn [List.length].
      replace (List.length written + 1)%nat with (S (List.length written)) by lia.
      pose proof (firstFailure_range os (List.length rest) (S (List.length written))) as Hr.
      set (n := firstFailure os (S (List.length written)) (List.length rest)) in *.
      replace (n - List.length written)%nat with (S (n - S (List.length written))) by lia.
      cbn [take]. rewrite <- app_assoc. cbn [app].
      replace (S (List.length written) + List.length rest)%nat
        with (List.length written + S (List.length rest))%nat by lia.
      reflexivity.
Qed.

Lemma exportToCSV_closed (os : OS) (products : list (Product Time)) (filename : string) :
  exportToCSV Format os products filename =
  if createFails os filename then (NotCreated, Some ErrCreateFile)
  else
    let n := firstFailure os 0 (S (List.length products)) in
    (flushAndClose os (take n (header :: map (row Format) products)),
     if (n =? S (List.length products))%nat then None
     else if (n =? 0)%nat then Some ErrWriteHeader else Some ErrWriteRow).
Proof.
  unfold exportToCSV. destruct (createFails os filename); [reflexivity|].
  cbv zeta. cbn [firstFailure]. unfold Write. cbn [List.length].
  destruct (writeFails os 0) eqn:E; [reflexivity|].
  rewrite writeProducts_first_failure. cbv zeta. cbn [List.length app].
  pose proof (firstFailure_range os (List.length products) 1) as Hr.
  set (n := firstFailure os 1 (List.length products)) in *.
  destruct n as [|n]; [lia|]. cbn [take Nat.sub]. rewrite Nat.sub_0_r.
  cbn [Nat.add Nat.eqb]. reflexivity.
Qed.

Lemma exportToCSV_nil (os : OS) (products : list (Product Time)) (filename : string) :
  snd (exportToCSV Format os products filename) = None <->
  createFails os filename = false /\
  forall k, (k <= List.length products)%nat -> writeFails os k = false.
Proof.
  rewrite exportToCSV_closed. destruct (createFails os filename).
  - cbn [snd]. split; [discriminate | intros [? _]; discriminate].
  - cbv zeta. cbn [snd].
    pose proof (firstFailure_none os (S (List.length products)) 0) as Hn.
    cbn [Nat.add] in Hn.
    destruct (Nat.eqb_spec (firstFailure os 0 (S (List.length products)))
                (S (List.length products))) as [Heq|Hne].
    + split; [|reflexivity]. intros _. split; [reflexivity|].
      intros k Hk. apply Hn; [exact Heq | lia].
    + split.
      * destruct (_ =? 0)%nat; discriminate.
      * intros [_ H]. exfalso. apply Hne, Hn. intros k Hk. apply H. lia.
Qed.

End WithTime.

Arguments exportToCSV_closed {Time} Format os products filename.
Arguments exportToCSV_nil {Time} Format os products filename.

(** X5: exportToCSV stops at the first failing write.  When the file cannot
    be created nothing is written; otherwise the records handed to the
    writer are the header and the product rows up to the first write that
    fails, and the error is nil when none of them fails, the header error
    when write 0 fails and the row error otherwise. *)
Theorem exportToCSV_first_failure (Time : Type) (Format : Time -> string -> string)
    (os : OS) (products : list (Product Time)) (filename : string) :
  exportToCSV Format os products filename =
  if createFails os filename then (NotCreated, Some ErrCreateFile)
  else
    let n := firstFailure os 0 (S (List.length products)) in
    (flushAndClose os (take n (header :: map (row Format) products)),
     if (n =? S (List.length products))%nat then None
     else if (n =? 0)%nat then Some ErrWriteHeader else Some ErrWriteRow).
Proof. apply exportToCSV_closed. Qed.

(** The second row of the test products cannot be written: the file keeps
    the header and the first row, and the row error is returned. *)
Example exportToCSV_second_row_fails :
  exportToCSV testFormat (failsAt 2) testProducts "test.csv" =
    (Holds [["Name"; "Price"; "URL"; "Image"; "Scraped At"];
            ["Test Product 1"; "$19.99"; "http://example.com/product1";
             "http://example.com/image1.jpg"; "2024-01-01T12:00:00Z"]],
     Some ErrWriteRow).
Proof. reflexivity. Qed.

(** X6: the error returned by exportToCSV is nil exactly when the file is
    created and none of the writes of the header and the rows fails.  The
    deferred Flush has no part in it: whether it fails or not, the returned
    error is the same, and when only the Flush fails the function returns
    nil although the file is incomplete. *)
Theorem exportToCSV_flush_unreported (Time : Type) (Format : Time -> string -> string)
    (os : OS) (products : list (Product Time)) (filename : string) :
  (snd (exportToCSV Format os products filename) = None <->
   createFails os filename = false /\
   forall k, (k <= List.length products)%nat -> writeFails os k = false) /\
  (forall flush,
     snd (exportToCSV Format
            {| createFails := createFails os; writeFails := writeFails os;
               flushFails := flush |} products filename) =
     snd (exportToCSV Format os products filename)) /\
  exportToCSV Format
    {| createFails := fun _ => false; writeFails := fun _ => false; flushFails := true |}
    products filename = (Incomplete, None).
Proof.
  split; [apply exportToCSV_nil | split].
  - intros flush. rewrite !exportToCSV_closed. cbn [createFails].
    destruct (createFails os filename); [reflexivity|]. cbv zeta. cbn [snd].
    rewrite (firstFailure_ext _ os) by reflexivity. reflexivity.
  - rewrite exportToCSV_closed. cbn [createFails]. cbv zeta.
    unfold flushAndClose. cbn [flushFails]. f_equal.
    replace (firstFailure _ 0 (S (List.length products))) with (S (List.length products)).
    + rewrite Nat.eqb_refl. reflexivity.
    + symmetry. apply (firstFailure_none _ (S (List.length products)) 0). reflexivity.
Qed.

End CsvFailures.

Module MainFlowFacts.

Import Main MainFlow CsvFailures.

Section WithTime.

Variable Time : Type.
Variable Format : Time -> string -> string.

Lemma collect_closed (found : list (Element * Time)) :
  forall products,
    collect found products =
    products ++
    map (fun f => productOf (fst f) (snd f))
        (List.filter (fun f => negb (String.eqb (title (fst f)) "")) found).
Proof.
  induction found as [|[e now] rest IH]; intros products.
  - cbn. rewrite app_nil_r. reflexivity.
  - cbn [collect List.filter fst snd]. rewrite IH. unfold onProduct, productOf at 1 2.
    cbn [Name].
    destruct (String.eqb (title e) ""); cbn [negb map fst snd].
    + reflexivity.
    + rewrite <- app_assoc. reflexivity.
Qed.

Lemma finish_fatal_visit (visitFailed : bool) (os : OS) (products : list (Product Time)) :
  finish Format visitFailed os products = FatalVisit <-> visitFailed = true.
Proof.
  unfold finish. destruct visitFailed; [split; reflexivity|].
  destruct (0 <? List.length products)%nat.
  - destruct (exportToCSV _ _ _ _) as [file [err|]]; split; discriminate.
  - split; discriminate.
Qed.

Lemma finish_none (visitFailed : bool) (os : OS) (products : list (Product Time)) :
  finish Format visitFailed os products = NoProducts <->
  visitFailed = false /\ products = [].
Proof.
  unfold finish. destruct visitFailed; [split; [discriminate | intros [? _]; discriminate]|].
  destruct products as [|p rest]; cbn [List.length Nat.ltb Nat.leb].
  - split; [intros _; split; reflexivity | reflexivity].
  - destruct (exportToCSV _ _ _ _) as [file [err|]];
      (split; [discriminate | intros [_ ?]; discriminate]).
Qed.

Lemma finish_exported (visitFailed : bool) (os : OS) (products : list (Product Time)) :
  (exists file, finish Format visitFailed os products = Exported file) <->
  visitFailed = false /\
  products <> [] /\ createFails os "products.csv" = false /\
  forall k, (k <= List.length products)%nat -> writeFails os k = false.
Proof.
  rewrite <- (exportToCSV_nil Format os products "products.csv").
  unfold finish. destruct visitFailed.
  { split; [intros [file H]; discriminate | intros [? _]; discriminate]. }
  destruct products as [|p rest]; cbn [List.length Nat.ltb Nat.leb].
  - split; [intros [file H]; discriminate | intros (_ & H & _); contradiction].
  - destruct (exportToCSV _ _ _ _) as [file [err|]]; cbn [snd].
    + split; [intros [f H]; discriminate | intros (_ & _ & H); discriminate].
    + split; [intros _; split; [reflexivity | split; [discriminate | reflexivity]]
             | intros _; eexists; reflexivity].
Qed.

Lemma finish_fatal (visitFailed : bool) (os : OS) (products : list (Product Time)) :
  (exists file err, finish Format visitFailed os products = Fatal file err) <->
  visitFailed = false /\ products <> [] /\
  snd (exportToCSV Format os products "products.csv") <> None.
Proof.
  unfold finish. destruct visitFailed.
  { split; [intros (file & err & H); discriminate | intros [? _]; discriminate]. }
  destruct products as [|p rest]; cbn [List.length Nat.ltb Nat.leb].
  - split; [intros (file & err & H); discriminate | intros (_ & H & _); contradiction].
  - destruct (exportToCSV _ _ _ _) as [file [err|]]; cbn [snd].
    + split; [intros _; split; [reflexivity | split; discriminate]
             | intros _; eexists; eexists; reflexivity].
    + split; [intros (f & e & H); discriminate | intros (_ & _ & H); contradiction].
Qed.

End WithTime.

Arguments collect_closed {Time} found products.

(** X7: the li.product callback keeps one product per element whose title
    is not empty, in the order in which the elements are found, and drops
    the others whatever their link, image and price.  Every product kept
    has a non-empty Name and a Price that went through cleanPrice: no
    newline, no tab and no two consecutive spaces. *)
Theorem collect_products (Time : Type) (found : list (Element * Time)) :
  collect found [] =
    map (fun f => productOf (fst f) (snd f))
        (List.filter (fun f => negb (String.eqb (title (fst f)) "")) found) /\
  Forall (fun p => Name p <> "" /\
                   contains (Price p) newline = false /\
                   contains (Price p) tabulator = false /\
                   contains (Price p) "  " = false)
         (collect found []).
Proof.
  rewrite collect_closed. cbn [app]. split; [reflexivity|].
  apply Forall_forall. intros p Hp. apply list_elem_of_In, in_map_iff in Hp.
  destruct Hp as ([e now] & <- & Hin).
  apply filter_In in Hin. destruct Hin as [_ Hn].
  cbn [fst snd] in *. unfold productOf. cbn [Name Price].
  split.
  - intros E. rewrite E in Hn. discriminate.
  - unfold contains. rewrite CleanPriceString.bytes_of_cleanPrice.
    change (list_ascii_of_string newline) with [nl].
    change (list_ascii_of_string tabulator) with [tab].
    split; [|split].
    + apply CleanPrice.contains_byte. intros H. apply CleanPrice.clean_no_tab_nl in H. tauto.
    + apply CleanPrice.contains_byte. intros H. apply CleanPrice.clean_no_tab_nl in H. tauto.
    + apply CleanPrice.clean_no_double.
Qed.

(** X8: main comes to the export only when c.Visit returned no error and
    at least one product was collected.  When c.Visit fails main dies with
    log.Fatal, whatever was collected.  Otherwise, with no product main
    reports that none was found; with products it ends without a fatal
    error exactly when products.csv can be created and the header and every
    row can be written, and dies with the error of exportToCSV when not. *)
Theorem finish_outcomes (Time : Type) (Format : Time -> string -> string)
    (visitFailed : bool) (os : OS) (products : list (Product Time)) :
  (finish Format visitFailed os products = FatalVisit <-> visitFailed = true) /\
  (finish Format visitFailed os products = NoProducts <->
   visitFailed = false /\ products = []) /\
  ((exists file, finish Format visitFailed os products = Exported file) <->
   visitFailed = false /\
   products <> [] /\ createFails os "products.csv" = false /\
   forall k, (k <= List.length products)%nat -> writeFails os k = false) /\
  ((exists file err, finish Format visitFailed os products = Fatal file err) <->
   visitFailed = false /\ products <> [] /\
   snd (exportToCSV Format os products "products.csv") <> None).
Proof.
  split; [apply finish_fatal_visit|]. split; [apply finish_none|].
  split; [apply finish_exported | apply finish_fatal].
Qed.

End MainFlowFacts.

(** * The crawler: found links, visited set and page counter *)

Module CrawlerFacts.

Import colly Crawler CrawlerMore Admission Runs Budget FoundLinks.








Section WithLib.

Context {L : Lib}.




(** The counter after a run: OnRequest adds one, the link callback nothing. *)
Lemma wrap_add (a b : Z) : wrap (wrap a + b) = wrap (a + b).
Proof.
  unfold wrap. f_equal.
  replace ((a + 2 ^ 63) mod 2 ^ 64 - 2 ^ 63 + b + 2 ^ 63)%Z
    with ((a + 2 ^ 63) mod 2 ^ 64 + b)%Z by lia.
  rewrite Zplus_mod_idemp_l. f_equal. lia.
Qed.

Lemma run_counter (evs : list Event) :
  forall σ,
    maxPages (wc (fst (run evs σ))) = maxPages (wc σ) /\
    wrap (pagesVisited (wc (fst (run evs σ)))) =
      wrap (pagesVisited (wc σ) + Z.of_nat (requests evs)) /\
    currents (snd (run evs σ)) =
      map (fun k => wrap (pagesVisited (wc σ) + Z.of_nat k)) (seq 1 (requests evs)).
Proof.
  induction evs as [|ev rest IH]; intros σ.
  - cbn [run fst snd requests List.filter List.length seq map currents omap].
    rewrite Z.add_0_r. repeat split.
  - cbn [run].
    assert (Hs : maxPages (wc (fst (step ev σ))) = maxPages (wc σ) /\
                 pagesVisited (wc (fst (step ev σ))) =
                   (if isRequest ev then wrap (pagesVisited (wc σ) + 1)
                    else pagesVisited (wc σ)) /\
                 currents (snd (step ev σ)) =
                   (if isRequest ev then [wrap (pagesVisited (wc σ) + 1)] else [])).
    { destruct ev as [r|r link]; cbn [step isRequest].
      - repeat split.
      - destruct (onHTML_budget r link σ) as (H1 & H2 & _ & H3 & _). repeat split; assumption. }
    destruct (step ev σ) as [σ1 out1]. cbn [fst snd] in Hs.
    destruct Hs as (M1 & P1 & C1). specialize (IH σ1).
    destruct (run rest σ1) as [σ2 out2]. cbn [fst snd] in *.
    destruct IH as (M2 & P2 & C2).
    unfold currents in *. rewrite omap_app, C1, C2, P2, P1, M2, M1.
    unfold requests. cbn [List.filter].
    destruct (isRequest ev); cbn [List.length seq map app].
    + split; [reflexivity|]. split.
      * rewrite wrap_add. f_equal. lia.
      * f_equal.
        rewrite <- (seq_shift _ 1), List.map_map. apply List.map_ext. intros k.
        rewrite wrap_add. f_equal. lia.
    + repeat split.
Qed.

Lemma run_in_range (evs : list Event) :
  forall σ,
    (minInt <= pagesVisited (wc σ) <= maxInt)%Z ->
    (minInt <= pagesVisited (wc (fst (run evs σ))) <= maxInt)%Z.
Proof.
  assert (Hw : forall z, (minInt <= wrap z <= maxInt)%Z).
  { intros z. unfold wrap, minInt, maxInt.
    pose proof (Z.mod_pos_bound (z + 2 ^ 63) (2 ^ 64) ltac:(lia)). lia. }
  induction evs as [|ev rest IH]; intros σ H; [exact H|].
  cbn [run].
  assert (H1 : (minInt <= pagesVisited (wc (fst (step ev σ))) <= maxInt)%Z).
  { destruct ev as [r|r link]; cbn [step].
    - cbn [onRequest fst wc pagesVisited]. apply Hw.
    - destruct (onHTML_budget r link σ) as (-> & _). exact H. }
  destruct (step ev σ) as [σ1 out1]. specialize (IH σ1 H1).
  destruct (run rest σ1). exact IH.
Qed.

(** Once the budget is used up, nothing changes but the counter. *)
Lemma run_exhausted (evs : list Event) :
  forall σ,
    (maxPages (wc σ) <= pagesVisited (wc σ))%Z ->
    (minInt <= pagesVisited (wc σ))%Z ->
    (pagesVisited (wc σ) + Z.of_nat (requests evs) <= maxInt)%Z ->
    visits (snd (run evs σ)) = [] /\
    mem (fst (run evs σ)) = mem σ /\
    foundLinks (wc (fst (run evs σ))) = foundLinks (wc σ) /\
    visitedURLs (wc (fst (run evs σ))) = visitedURLs (wc σ).
Proof.
  induction evs as [|ev rest IH]; intros σ Hb Hmin Hmax.
  - repeat split.
  - cbn [run]. destruct ev as [r|r link]; cbn [step].
    + cbn [onRequest]. unfold requests in Hmax. cbn [List.filter isRequest List.length] in Hmax.
      rewrite wrap_small by lia.
      match goal with |- context [run rest ?s] => specialize (IH s) end.
      cbn [wc maxPages pagesVisited mem foundLinks visitedURLs] in IH.
      specialize (IH ltac:(lia) ltac:(lia) ltac:(unfold requests; lia)).
      destruct (run rest _) as [σ2 out2]. cbn [fst snd] in *.
      unfold visits in *. cbn [app omap visitOf]. exact IH.
    + destruct (onHTML_cases r link σ) as [->|(u & _ & Hlt & _)]; [|lia].
      unfold requests in Hmax. cbn [List.filter isRequest] in Hmax.
      specialize (IH σ Hb Hmin Hmax).
      destruct (run rest σ) as [σ2 out2]. cbn [fst snd app] in *. exact IH.
Qed.

End WithLib.


(** X10: GetPagesVisited is the number of OnRequest callbacks that have
    run, as a 64-bit integer, whatever link callbacks ran in between; and
    the numbers printed by OnRequest are 1, 2, 3, ... in the order of the
    callbacks, each given to one request. *)
Theorem GetPagesVisited_counts_requests {L : Lib} (m : Mem)
    (allowedDomains : list string) (P : Z) (evs : list Event) :
  let result := run evs (NewWebCrawler m allowedDomains P) in
  GetPagesVisited (fst result) = wrap (Z.of_nat (requests evs)) /\
  currents (snd result) = map (fun k => wrap (Z.of_nat k)) (seq 1 (requests evs)) /\
  maxPages (wc (fst result)) = P.
Proof.
  cbv zeta. unfold GetPagesVisited.
  destruct (NewWebCrawler_counters m allowedDomains P) as (E0 & EP & _).
  destruct (run_counter evs (NewWebCrawler m allowedDomains P)) as (M & Pv & C).
  pose proof (run_in_range evs (NewWebCrawler m allowedDomains P)) as Hr.
  rewrite E0 in *. rewrite EP in M.
  rewrite wrap_small in Pv by (apply Hr; unfold minInt, maxInt; lia).
  split; [exact Pv|]. split; [exact C | exact M].
Qed.

(** X11: the page budget closes for good.  From a state in which
    pagesVisited has reached maxPages, no sequence of callbacks hands a URL
    to Visit, and foundLinks and the visited set stay as they are (the
    counter not running over the largest int). *)
Theorem budget_exhausted_forever {L : Lib} (σ : State) (evs : list Event) :
  (maxPages (wc σ) <= pagesVisited (wc σ))%Z ->
  (minInt <= pagesVisited (wc σ))%Z ->
  (pagesVisited (wc σ) + Z.of_nat (requests evs) <= maxInt)%Z ->
  visits (snd (run evs σ)) = [] /\
  elems (mem (fst (run evs σ))) (foundLinks (wc (fst (run evs σ)))) =
    elems (mem σ) (foundLinks (wc σ)) /\
  visitedURLs (wc (fst (run evs σ))) = visitedURLs (wc σ).
Proof.
  intros Hb Hmin Hmax.
  destruct (run_exhausted evs σ Hb Hmin Hmax) as (Hv & Hm & Hf & Hs).
  rewrite Hm, Hf. repeat split; assumption.
Qed.

(** A crawler with a budget of one page after its first request: the
    links of the later callbacks are all left alone. *)
Lemma budget_exhausted_forever_witness :
  let σ := fst (run (L := Ref.lib) [EvRequest home] (NewWebCrawler ∅ ["x"] 1)) in
  let evs := [EvHTML home "/a"; EvRequest home; EvHTML home "/b"; EvHTML home "/a"] in
  visits (snd (run (L := Ref.lib) evs σ)) = [] /\
  visitedURLs (wc (fst (run (L := Ref.lib) evs σ))) = visitedURLs (wc σ).
Proof.
  intros σ evs.
  destruct (budget_exhausted_forever (L := Ref.lib) σ evs) as (H1 & _ & H3).
  - vm_compute. discriminate.
  - vm_compute. discriminate.
  - vm_compute. discriminate.
  - split; assumption.
Defined.

End CrawlerFacts.

(** * runCrawlerExample: the sample of links *)

Module ExampleFacts.

Import CrawlerExample.

Lemma sampleFrom_spec (total : nat) (links : list string) :
  forall i, (i <= 10)%nat ->
    sampleFrom i total links =
    map LinkLine (take (10 - i) links) ++
    (if (10 - i <? List.length links)%nat then [MoreLine (Z.of_nat total - 10)] else []).
Proof.
  induction links as [|link rest IH]; intros i Hi.
  - cbn [sampleFrom List.length]. rewrite take_nil. reflexivity.
  - cbn [sampleFrom List.length]. destruct (Nat.leb_spec 10 i) as [Hge|Hlt].
    + replace (10 - i)%nat with 0%nat by lia. reflexivity.
    + rewrite IH by lia.
      replace (10 - i)%nat with (S (10 - S i)) by lia. cbn [take map app].
      replace (S (10 - S i) <? S (List.length rest))%nat
        with (10 - S i <? List.length rest)%nat by reflexivity.
      reflexivity.
Qed.

(** X12: the sample printed by runCrawlerExample is the first ten links,
    in order, followed by one line with the number of the remaining links
    when there are more than ten, and by nothing otherwise. *)
Theorem sampleLinks_first_ten (links : list string) :
  sampleLinks links =
  map LinkLine (take 10 links) ++
  (if (10 <? List.length links)%nat
   then [MoreLine (Z.of_nat (List.length links) - 10)] else []).
Proof. unfold sampleLinks. rewrite sampleFrom_spec by lia. reflexivity. Qed.

End ExampleFacts.

(** * The scraper: listing callback, headers, products, retries *)

Module ListingFacts.

Import Scraper ScraperMore.

Lemma seen_onListing (u v : string) (s : Scraper) :
  seen (fst (onListing u s)) v =
  (seen s v || (bool_decide (u = v) && negb (String.eqb u ""))).
Proof.
  unfold onListing.
  destruct (seen s u) eqn:Eu; cbn [negb andb fst].
  - destruct (bool_decide_reflect (u = v)) as [<-|_].
    + rewrite Eu. reflexivity.
    + rewrite orb_false_r. reflexivity.
  - destruct (String.eqb u ""); cbn [negb fst].
    + rewrite andb_false_r, orb_false_r. reflexivity.
    + rewrite andb_true_r. unfold seen. cbn [visited]. rewrite lookup_insert.
      destruct (decide (u = v)) as [->|Hne].
      * rewrite bool_decide_eq_true_2 by reflexivity. rewrite orb_true_r. reflexivity.
      * rewrite bool_decide_eq_false_2 by exact Hne. rewrite orb_false_r. reflexivity.
Qed.

Lemma out_onListing (u : string) (s : Scraper) :
  snd (onListing u s) = if negb (seen s u) && negb (String.eqb u "") then [u] else [].
Proof. unfold onListing. destruct (negb (seen s u) && negb (String.eqb u "")); reflexivity. Qed.

Lemma listing_spec (urls : list string) :
  forall s,
    NoDup (snd (listing urls s)) /\
    (forall u, u ∈ snd (listing urls s) <-> u ∈ urls /\ u <> "" /\ seen s u = false) /\
    sublist (snd (listing urls s)) urls /\
    (forall u, seen (fst (listing urls s)) u =
               (seen s u || bool_decide (u ∈ snd (listing urls s)))).
Proof.
  induction urls as [|u rest IH]; intros s.
  - cbn [listing fst snd]. split; [constructor|]. split; [|split].
    + intros v. split; [intros H; inversion H | intros [H _]; inversion H].
    + constructor.
    + intros v. rewrite bool_decide_eq_false_2 by (intros H; inversion H).
      rewrite orb_false_r. reflexivity.
  - cbn [listing].
    pose proof (seen_onListing u) as Hseen. pose proof (out_onListing u s) as Hout.
    specialize (fun v => Hseen v s).
    destruct (onListing u s) as [s1 out1]. cbn [fst snd] in Hseen, Hout.
    specialize (IH s1). destruct (listing rest s1) as [s2 out2]. cbn [fst snd] in *.
    destruct IH as (Hnd & Hin & Hsub & Hs2).
    destruct (seen s u) eqn:Eu; cbn [negb andb] in Hout.
    + (* seen before *)
      subst out1. cbn [app].
      assert (Hs1 : forall v, seen s1 v = seen s v).
      { intros v. rewrite Hseen. destruct (bool_decide_reflect (u = v)) as [<-|_].
        - rewrite Eu. reflexivity.
        - rewrite orb_false_r. reflexivity. }
      split; [exact Hnd|]. split; [|split].
      * intros v. rewrite Hin, Hs1, elem_of_cons. split.
        -- intros (H1 & H2 & H3). auto.
        -- intros ([->|H1] & H2 & H3); [congruence | auto].
      * apply sublist_cons. exact Hsub.
      * intros v. rewrite Hs2, Hs1. reflexivity.
    + destruct (String.eqb u "") eqn:Ee; cbn [negb] in Hout; subst out1; cbn [app].
      * (* the empty URL *)
        apply String.eqb_eq in Ee. subst u.
        assert (Hs1 : forall v, seen s1 v = seen s v).
        { intros v. rewrite Hseen. cbn. rewrite andb_false_r, orb_false_r. reflexivity. }
        split; [exact Hnd|]. split; [|split].
        -- intros v. rewrite Hin, Hs1, elem_of_cons. split.
           ++ intros (H1 & H2 & H3). auto.
           ++ intros ([->|H1] & H2 & H3); [congruence | auto].
        -- apply sublist_cons. exact Hsub.
        -- intros v. rewrite Hs2, Hs1. reflexivity.
      * (* a new URL *)
        assert (Hne : u <> "").
        { intros E. subst u. rewrite String.eqb_refl in Ee. discriminate. }
        assert (Hs1 : forall v, seen s1 v = (seen s v || bool_decide (u = v))).
        { intros v. rewrite Hseen. cbn [negb]. rewrite andb_true_r. reflexivity. }
        assert (Hnot : u ∉ out2).
        { intros H. apply Hin in H. destruct H as (_ & _ & H).
          rewrite Hs1, bool_decide_eq_true_2 in H by reflexivity.
          rewrite orb_true_r in H. discriminate. }
        split; [constructor; assumption|]. split; [|split].
        -- intros v. rewrite !elem_of_cons, Hin, Hs1. split.
           ++ intros [->|(H1 & H2 & H3)]; [auto|].
              apply orb_false_iff in H3. destruct H3 as [H3 _]. auto.
           ++ intros ([->|H1] & H2 & H3); [left; reflexivity|].
              destruct (decide (v = u)) as [->|Hvu]; [left; reflexivity|].
              right. split; [exact H1|]. split; [exact H2|].
              rewrite H3, bool_decide_eq_false_2 by congruence. reflexivity.
        -- apply sublist_skip. exact Hsub.
        -- intros v. rewrite Hs2, Hs1.
           destruct (bool_decide_reflect (u = v)) as [E|E];
             destruct (bool_decide_reflect (v ∈ out2)) as [I|I];
             destruct (bool_decide_reflect (v ∈ u :: out2)) as [J|J];
             rewrite ?orb_true_r, ?orb_false_r; try reflexivity;
             exfalso; rewrite elem_of_cons in J; intuition congruence.
Qed.

Lemma listing_app (pre post : list string) (s : Scraper) :
  listing (pre ++ post) s =
  (fst (listing post (fst (listing pre s))),
   snd (listing pre s) ++ snd (listing post (fst (listing pre s)))).
Proof.
  revert s. induction pre as [|u pre IH]; intros s.
  - cbn [app listing fst snd]. destruct (listing post s). reflexivity.
  - cbn [app listing]. destruct (onListing u s) as [s1 out1]. rewrite IH.
    destruct (listing pre s1) as [s2 out2]. cbn [fst snd].
    rewrite app_assoc. reflexivity.
Qed.

(** The callback number k admits its URL exactly when the URL is not
    empty, was not in the set at the start and is not the URL of an earlier
    callback. *)
Lemma listing_snoc (pre : list string) (u : string) (s : Scraper) :
  snd (listing (pre ++ [u]) s) =
  snd (listing pre s) ++
  (if negb (String.eqb u "") && negb (seen s u) && bool_decide (u ∉ pre) then [u] else []).
Proof.
  rewrite listing_app. cbn [snd]. f_equal.
  destruct (listing_spec pre s) as (_ & Hin & _ & Hseen).
  cbn [listing]. rewrite (surjective_pairing (onListing u _)). cbn [snd].
  rewrite app_nil_r, out_onListing, Hseen.
  destruct (String.eqb_spec u "") as [->|Hne]; cbn [negb andb].
  { rewrite andb_false_r. reflexivity. }
  rewrite andb_true_r. destruct (seen s u) eqn:Es; cbn [orb negb andb]; [reflexivity|].
  destruct (bool_decide_reflect (u ∈ snd (listing pre s))) as [Hi|Hi];
    destruct (bool_decide_reflect (u ∉ pre)) as [Hp|Hp]; cbn [negb]; try reflexivity.
  - apply Hin in Hi. tauto.
  - exfalso. apply Hi, Hin. split; [|split; assumption].
    destruct (decide (u ∈ pre)); tauto.
Qed.

(** The first occurrences of the elements of a list, in their order. *)
Lemma firsts_snoc (l : list string) (u : string) :
  rev (remove_dups (rev (l ++ [u]))) =
  rev (remove_dups (rev l)) ++ (if bool_decide (u ∉ l) then [u] else []).
Proof.
  rewrite rev_app_distr. cbn [rev app remove_dups].
  assert (Hrev : u ∈ rev l <-> u ∈ l)
    by (rewrite !list_elem_of_In; symmetry; apply in_rev).
  destruct (decide_rel elem_of u (rev l)) as [Hi|Hi].
  - rewrite bool_decide_eq_false_2, app_nil_r; [reflexivity|]. tauto.
  - rewrite bool_decide_eq_true_2; [reflexivity|]. tauto.
Qed.

Lemma listing_firsts (urls : list string) (s : Scraper) :
  snd (listing urls s) =
  rev (remove_dups (rev
    (List.filter (fun u => negb (String.eqb u "") && negb (seen s u)) urls))).
Proof.
  induction urls as [|u pre IH] using rev_ind; [reflexivity|].
  rewrite listing_snoc, IH, List.filter_app. cbn [List.filter].
  destruct (negb (String.eqb u "") && negb (seen s u)) eqn:E; cbn [andb].
  - rewrite firsts_snoc. f_equal.
    rewrite (bool_decide_ext (u ∉ pre)
               (u ∉ List.filter (fun u => negb (String.eqb u "") && negb (seen s u)) pre));
      [reflexivity|].
    rewrite !list_elem_of_In, filter_In. tauto.
  - rewrite !app_nil_r. reflexivity.
Qed.

(** X13: the listing callback admits each product URL at most once,
    whatever the order in which the callbacks take the mutex, and never the
    empty URL.  The URLs admitted, in the order of admission, are the first
    occurrences of the non-empty URLs that were not in the visited set
    before; they are pairwise different, and afterwards the visited set has
    grown by exactly these.  The callback calls detailCollector.Visit on an
    admitted URL after the Unlock, once for each; the order of the Visit
    calls is not fixed by the mutex.  There is no
    page budget in this callback. *)
Theorem listing_visits_once (urls : list string) (s : Scraper) :
  snd (listing urls s) =
    rev (remove_dups (rev
      (List.filter (fun u => negb (String.eqb u "") && negb (seen s u)) urls))) /\
  (forall pre u,
     snd (listing (pre ++ [u]) s) =
     snd (listing pre s) ++
     (if negb (String.eqb u "") && negb (seen s u) && bool_decide (u ∉ pre)
      then [u] else [])) /\
  NoDup (snd (listing urls s)) /\
  (forall u, u ∈ snd (listing urls s) <-> u ∈ urls /\ u <> "" /\ seen s u = false) /\
  sublist (snd (listing urls s)) urls /\
  (forall u, seen (fst (listing urls s)) u =
             (seen s u || bool_decide (u ∈ snd (listing urls s)))) /\
  (forall allowedDomains u,
     u ∈ snd (listing urls (NewScraper allowedDomains)) <-> u ∈ urls /\ u <> "").
Proof.
  destruct (listing_spec urls s) as (H1 & H2 & H3 & H4).
  split; [apply listing_firsts|]. split; [intros pre u; apply listing_snoc|].
  split; [exact H1|]. split; [exact H2|]. split; [exact H3|]. split; [exact H4|].
  intros allowedDomains u.
  destruct (listing_spec urls (NewScraper allowedDomains)) as (_ & H & _).
  rewrite H. unfold seen, NewScraper. cbn [visited]. rewrite lookup_empty. cbn.
  tauto.
Qed.

(** Three callbacks, the first URL found twice. *)
Example listing_twice (allowedDomains : list string) :
  snd (listing ["http://x/a"; "http://x/b"; "http://x/a"] (NewScraper allowedDomains))
  = ["http://x/a"; "http://x/b"].
Proof. vm_compute. reflexivity. Qed.

End ListingFacts.



Module HeaderFacts.

Import ScraperMore.

Lemma setHeaders_union (h : Header) : setHeaders h = setHeaders ∅ ∪ h.
Proof.
  unfold setHeaders, HeaderSet. cbv zeta.
  rewrite <- !insert_union_l, (left_id ∅ (∪)). reflexivity.
Qed.

Lemma setHeaders_other (k : string) :
  k ∉ headerKeys -> setHeaders ∅ !! k = None.
Proof.
  intros H. unfold headerKeys in H. rewrite !not_elem_of_cons in H.
  unfold setHeaders, HeaderSet. cbv zeta.
  rewrite !lookup_insert_ne by (intros E; symmetry in E; tauto).
  apply lookup_empty.
Qed.

Lemma setHeaders_keys (k : string) :
  k ∈ headerKeys -> exists v, setHeaders ∅ !! k = Some [v].
Proof.
  intros H. unfold headerKeys in H.
  repeat (apply elem_of_cons in H as [->|H]; [eexists; vm_compute; reflexivity|]).
  inversion H.
Qed.

(** X14: setHeaders gives each of its ten header keys exactly one value,
    the same whatever the request carried before (earlier values of these
    keys are replaced), leaves every other header as it is, and applying it
    twice is the same as applying it once. *)
Theorem setHeaders_replaces (h : Header) :
  (forall k, k ∈ headerKeys ->
     exists v, setHeaders h !! k = Some [v] /\ forall h', setHeaders h' !! k = Some [v]) /\
  (forall k, k ∉ headerKeys -> setHeaders h !! k = h !! k) /\
  setHeaders (setHeaders h) = setHeaders h /\
  NoDup headerKeys.
Proof.
  split; [|split; [|split]].
  - intros k Hk. destruct (setHeaders_keys k Hk) as [v Hv]. exists v.
    assert (Hall : forall h', setHeaders h' !! k = Some [v]).
    { intros h'. rewrite setHeaders_union. apply lookup_union_Some_l. exact Hv. }
    split; [apply Hall | exact Hall].
  - intros k Hk. rewrite setHeaders_union.
    apply lookup_union_r, setHeaders_other, Hk.
  - rewrite (setHeaders_union (setHeaders h)), (setHeaders_union h).
    rewrite (assoc_L (∪)), (idemp_L (∪)). reflexivity.
  - unfold headerKeys. apply NoDup_ListNoDup.
    repeat (constructor; [cbn; intuition discriminate|]). constructor.
Qed.

End HeaderFacts.

(** * The class attribute of a p.stock element is never "out-of-stock" *)

Module StockFacts.

Import strings ScraperMore.

#[local] Arguments Ascii.eqb : simpl never.

Section Scan.

Variable two : ascii -> ascii -> bool.
Variable three : ascii -> ascii -> ascii -> bool.
Hypothesis two_blank : forall a b, two a b = true -> blank a = true /\ blank b = true.
Hypothesis three_blank :
  forall a b c, three a b c = true -> blank a = true /\ blank b = true /\ blank c = true.

(** What a scan drops is made of bytes of white-space runes. *)
Lemma trim_dropped (s : bytes) :
  exists p, s = p ++ trim two three s /\ Forall (fun c => blank c = true) p.
Proof.
  remember (List.length s) as n eqn:En. revert s En.
  induction n as [n IH] using lt_wf_ind. intros s En.
  destruct s as [|a r]; [exists []; split; [reflexivity | constructor]|].
  cbn [trim]. destruct (asciiSpace a) eqn:Ea.
  { destruct (IH (List.length r) ltac:(subst n; cbn; lia) r eq_refl) as (p & Hp & Hb).
    exists (a :: p). split; [cbn [app]; f_equal; exact Hp|].
    constructor; [unfold blank; rewrite Ea; reflexivity | exact Hb]. }
  destruct r as [|b r]; [exists []; split; [reflexivity | constructor]|].
  destruct (two a b) eqn:E2.
  { destruct (IH (List.length r) ltac:(subst n; cbn; lia) r eq_refl) as (p & Hp & Hb).
    destruct (two_blank a b E2) as [Ba Bb].
    exists (a :: b :: p). split; [cbn [app]; do 2 f_equal; exact Hp|].
    repeat constructor; assumption. }
  destruct r as [|c r]; [exists []; split; [reflexivity | constructor]|].
  destruct (three a b c) eqn:E3.
  { destruct (IH (List.length r) ltac:(subst n; cbn; lia) r eq_refl) as (p & Hp & Hb).
    destruct (three_blank a b c E3) as (Ba & Bb & Bc).
    exists (a :: b :: c :: p). split; [cbn [app]; do 3 f_equal; exact Hp|].
    repeat constructor; assumption. }
  exists []. split; [reflexivity | constructor].
Qed.

End Scan.

Lemma high_blank (c : ascii) : (128 <= byteval c)%N -> blank c = true.
Proof.
  intros H. unfold blank. apply orb_true_iff. right. apply N.leb_le. exact H.
Qed.

Lemma space2_blank (a b : ascii) :
  space2 a b = true -> blank a = true /\ blank b = true.
Proof.
  intros H. apply CleanPrice.space2_bytes in H. split; apply high_blank; lia.
Qed.

Lemma space3_blank (a b c : ascii) :
  space3 a b c = true -> blank a = true /\ blank b = true /\ blank c = true.
Proof.
  intros H. apply CleanPrice.space3_bytes in H. repeat split; apply high_blank; lia.
Qed.

(** TrimSpace takes bytes of white-space runes from both ends. *)
Lemma TrimSpace_dropped (s : bytes) :
  exists p q, s = p ++ TrimSpace s ++ q /\
              Forall (fun c => blank c = true) p /\ Forall (fun c => blank c = true) q.
Proof.
  unfold TrimSpace, trimRight, trimLeft, trimLeftRev.
  destruct (trim_dropped space2 space3 space2_blank space3_blank s) as (p & Hp & Bp).
  set (u := trim space2 space3 s) in *.
  destruct (trim_dropped space2Rev space3Rev
              (fun a b H => proj1 (and_comm _ _) (space2_blank b a H))
              (fun a b c H => match space3_blank c b a H with
                              | conj Hc (conj Hb Ha) => conj Ha (conj Hb Hc)
                              end)
              (rev u)) as (q & Hq & Bq).
  exists p, (rev q). split; [|split; [exact Bp | apply Forall_rev; exact Bq]].
  rewrite <- rev_app_distr, <- Hq, rev_involutive. exact Hp.
Qed.

Lemma blank_not_stock (l : bytes) :
  Forall (fun c => blank c = true) l -> l <> stockName.
Proof. intros H ->. inversion H as [|? ? Hs _]. vm_compute in Hs. discriminate. Qed.

Lemma indexSpace_app (a b : bytes) :
  indexSpace (a ++ b) =
  match indexSpace a with
  | Some i => Some i
  | None => option_map (Nat.add (List.length a)) (indexSpace b)
  end.
Proof.
  induction a as [|c a IH]; cbn [app indexSpace List.length].
  - destruct (indexSpace b); reflexivity.
  - destruct (classSpace c); [reflexivity|]. rewrite IH.
    destruct (indexSpace a); [reflexivity|]. destruct (indexSpace b); reflexivity.
Qed.

Lemma indexSpace_lt (s : bytes) (i : nat) :
  indexSpace s = Some i -> (i < List.length s)%nat.
Proof.
  revert i. induction s as [|c s IH]; intros i; cbn [indexSpace List.length]; [discriminate|].
  destruct (classSpace c); [intros [= <-]; lia|].
  destruct (indexSpace s) as [j|]; [|discriminate]. intros [= <-].
  specialize (IH j eq_refl). lia.
Qed.

Lemma matchInclude_blank (fuel : nat) :
  forall s, Forall (fun c => blank c = true) s -> matchInclude fuel stockName s = false.
Proof.
  induction fuel as [|fuel IH]; intros s Hs; [reflexivity|]. cbn [matchInclude].
  case_bool_decide; [reflexivity|].
  destruct (indexSpace s) as [i|].
  - rewrite bool_decide_eq_false_2 by (apply blank_not_stock, Forall_take, Hs).
    apply IH, Forall_drop, Hs.
  - apply bool_decide_eq_false_2, blank_not_stock, Hs.
Qed.

Lemma matchInclude_outOfStock (fuel : nat) :
  forall p q,
    Forall (fun c => blank c = true) p -> Forall (fun c => blank c = true) q ->
    matchInclude fuel stockName (p ++ outOfStock ++ q) = false.
Proof.
  induction fuel as [|fuel IH]; intros p q Hp Hq; [reflexivity|]. cbn [matchInclude].
  case_bool_decide; [reflexivity|].
  rewrite indexSpace_app. destruct (indexSpace p) as [i|] eqn:Ei.
  - pose proof (indexSpace_lt p i Ei) as Hi.
    rewrite take_app_le by lia.
    rewrite bool_decide_eq_false_2 by (apply blank_not_stock, Forall_take, Hp).
    rewrite drop_app_le by lia. apply IH; [apply Forall_drop, Hp | exact Hq].
  - rewrite indexSpace_app. change (indexSpace outOfStock) with (@None nat).
    destruct (indexSpace q) as [j|] eqn:Ej; cbn [option_map].
    + pose proof (indexSpace_lt q j Ej) as Hj.
      rewrite bool_decide_eq_false_2.
      * rewrite drop_app_ge by lia. rewrite drop_app_ge by (cbn; lia).
        apply matchInclude_blank, Forall_drop, Hq.
      * intros E. apply (f_equal (@List.length ascii)) in E.
        rewrite length_take, !length_app in E. cbn in E. lia.
    + apply bool_decide_eq_false_2. intros E.
      apply (f_equal (@List.length ascii)) in E. rewrite !length_app in E. cbn in E. lia.
Qed.

(** An attribute with the class name stock is not "out-of-stock", with or
    without white space around it. *)
Lemma hasClass_stock (attr : string) :
  hasClass attr "stock" = true -> MainFlow.trimSpace attr <> "out-of-stock".
Proof.
  unfold hasClass, MainFlow.trimSpace. intros H E.
  apply (f_equal list_ascii_of_string) in E.
  rewrite list_ascii_of_string_of_list_ascii in E.
  destruct (TrimSpace_dropped (list_ascii_of_string attr)) as (p & q & Hs & Hp & Hq).
  rewrite E in Hs. rewrite Hs in H.
  change (list_ascii_of_string "stock") with stockName in H.
  change (list_ascii_of_string "out-of-stock") with outOfStock in H.
  rewrite matchInclude_outOfStock in H by assumption. discriminate.
Qed.

Lemma InStock_true (Time : Type) (page : DetailPage Time) :
  InStock (detailOf page) = true.
Proof.
  cbn [detailOf InStock]. apply negb_true_iff. unfold stockClass.
  destruct (stock (element page)) as [[attr H]|]; [|reflexivity].
  cbn [proj1_sig]. apply String.eqb_neq. apply hasClass_stock, H.
Qed.

End StockFacts.

Module ProductsFacts.

Import Crawler ScraperMore.

Section WithTime.

Variable Time : Type.
Variable zeroTime : Time.

Lemma productArray_Some (m : gmap nat (list (ProductDetail Time))) (p : nat) (a : list (ProductDetail Time)) :
  m !! p = Some a -> productArray m p = a.
Proof. intros H. unfold productArray. rewrite H. reflexivity. Qed.

Lemma appendProduct_elems (m : gmap nat (list (ProductDetail Time))) (s : Slice) (v : ProductDetail Time)
    (a : list (ProductDetail Time)) :
  m !! ptr s = Some a -> List.length a = cap s -> (len s <= cap s)%nat ->
  let s' := fst (appendProduct zeroTime m s v) in
  let m' := snd (appendProduct zeroTime m s v) in
  (exists a', m' !! ptr s' = Some a' /\ List.length a' = cap s') /\
  (len s' <= cap s')%nat /\
  productElems m' s' = productElems m s ++ [v].
Proof.
  intros Ha Hl Hle. cbv zeta. unfold appendProduct.
  destruct (Nat.ltb_spec (len s) (cap s)) as [Hlt|Hge]; cbn [fst snd].
  - cbn [ptr len cap]. rewrite (productArray_Some _ _ _ Ha).
    split; [|split].
    + eexists. rewrite lookup_insert_eq. split; [reflexivity|].
      rewrite length_insert. exact Hl.
    + lia.
    + unfold productElems. cbn [ptr len].
      rewrite (productArray_Some _ _ _ Ha).
      rewrite (productArray_Some _ _ _ (lookup_insert_eq _ _ _)).
      rewrite (take_S_r _ _ v) by (apply list_lookup_insert_eq; lia).
      rewrite take_insert_ge by lia. reflexivity.
  - assert (Hlen : List.length (productElems m s) = len s).
    { unfold productElems. rewrite (productArray_Some _ _ _ Ha), length_take. lia. }
    assert (Hc : (S (cap s) <= growCap (cap s))%nat) by (unfold growCap; lia).
    cbn [ptr len cap].
    split; [|split].
    + eexists. rewrite lookup_insert_eq. split; [reflexivity|].
      rewrite length_app. cbn [List.length]. rewrite length_replicate, Hlen. lia.
    + lia.
    + unfold productElems at 1. cbn [ptr len].
      rewrite (productArray_Some _ _ _ (lookup_insert_eq _ _ _)).
      match goal with
      | |- take _ (?e ++ ?x :: ?r) = _ => change (e ++ x :: r) with (e ++ [x] ++ r)
      end.
      rewrite app_assoc. apply take_app_length'.
      rewrite length_app, Hlen. cbn [List.length]. lia.
Qed.

Lemma holds_new (m : gmap nat (list (ProductDetail Time))) : holds (newProducts m) [].
Proof.
  unfold holds, newProducts. cbn [pmem products ptr len cap].
  split; [|split].
  - exists []. rewrite lookup_insert_eq. split; reflexivity.
  - lia.
  - reflexivity.
Qed.

Lemma holds_onDetail (page : DetailPage Time) (σ : Products Time)
    (ps : list (ProductDetail Time)) :
  holds σ ps ->
  holds (onDetail zeroTime page σ)
        (ps ++ if negb (String.eqb (title (element page)) "") then [detailOf page] else []).
Proof.
  intros ((a & Ha & Hl) & Hle & He). unfold onDetail. cbn [detailOf Name].
  destruct (String.eqb (title (element page)) ""); cbn [negb].
  - rewrite app_nil_r. split; [exists a; auto | split; assumption].
  - pose proof (appendProduct_elems (pmem σ) (products σ) (detailOf page) a Ha Hl Hle) as H.
    cbv zeta in H. unfold detailOf in H.
    destruct (appendProduct _ _ _ _) as [s m]. cbn [fst snd] in H.
    destruct H as (H1 & H2 & H3). unfold holds. cbn [pmem products].
    split; [exact H1|]. split; [exact H2|]. rewrite H3, He. reflexivity.
Qed.

Lemma holds_details (pages : list (DetailPage Time)) :
  forall σ ps,
    holds σ ps ->
    holds (details zeroTime pages σ)
          (ps ++ map detailOf
                   (List.filter (fun page => negb (String.eqb (title (element page)) ""))
                      pages)).
Proof.
  induction pages as [|page rest IH]; intros σ ps H.
  - cbn. rewrite app_nil_r. exact H.
  - cbn [details List.filter]. apply holds_onDetail with (page := page) in H.
    apply IH in H.
    destruct (negb (String.eqb (title (element page)) "")); cbn [map].
    + rewrite <- app_assoc in H. exact H.
    + rewrite app_nil_r in H. exact H.
Qed.

Lemma holds_store (σ : Products Time) (ps : list (ProductDetail Time))
    (i : nat) (v : ProductDetail Time) (m' : gmap nat (list (ProductDetail Time))) :
  holds σ ps ->
  storeProduct (pmem σ) (products σ) i v = Some m' ->
  (i < List.length ps)%nat /\
  holds {| pmem := m'; products := products σ |} (<[i := v]> ps) /\
  loadProduct m' (products σ) i = Some v.
Proof.
  intros ((a & Ha & Hl) & Hle & He). unfold storeProduct, loadProduct.
  destruct (Nat.ltb_spec i (len (products σ))) as [Hi|Hi]; [|discriminate].
  intros [= <-]. rewrite (productArray_Some _ _ _ Ha).
  rewrite (productArray_Some _ _ _ (lookup_insert_eq _ _ _)).
  assert (Hlen : List.length ps = len (products σ)).
  { rewrite <- He. unfold productElems.
    rewrite (productArray_Some _ _ _ Ha), length_take. lia. }
  split; [lia|]. split.
  - unfold holds. cbn [pmem products]. split; [|split].
    + eexists. rewrite lookup_insert_eq. split; [reflexivity|].
      rewrite length_insert. exact Hl.
    + exact Hle.
    + unfold productElems. rewrite (productArray_Some _ _ _ (lookup_insert_eq _ _ _)).
      rewrite take_insert_lt by lia. rewrite <- He. unfold productElems.
      rewrite (productArray_Some _ _ _ Ha). reflexivity.
  - apply list_lookup_insert_eq. lia.
Qed.

End WithTime.

(** X15: the products of a scraper are the details of the pages whose
    title is not empty, one per callback of the detail collector, in the
    order in which the callbacks took the mutex; a page without a title
    adds nothing.  Every product has a non-empty Name, and InStock true:
    the class attribute of an element that p.stock matches holds the name
    stock, so it is never the string "out-of-stock" that the callback
    compares it with. *)
Theorem details_products (Time : Type) (zeroTime : Time)
    (m : gmap nat (list (ProductDetail Time))) (pages : list (DetailPage Time)) :
  let σ := details zeroTime pages (newProducts m) in
  productElems (pmem σ) (GetProducts σ) =
    map detailOf
      (List.filter (fun page : DetailPage Time =>
                      negb (String.eqb (title (element page)) "")) pages) /\
  Forall (fun p => Name p <> "" /\ InStock p = true)
         (productElems (pmem σ) (GetProducts σ)) /\
  (forall page : DetailPage Time, InStock (detailOf page) = true).
Proof.
  cbv zeta.
  destruct (holds_details Time zeroTime pages _ [] (holds_new Time m)) as (_ & _ & He).
  cbn [app] in He. unfold GetProducts. rewrite He.
  split; [reflexivity|]. split; [|apply StockFacts.InStock_true].
  apply Forall_forall. intros p Hp. apply list_elem_of_In, in_map_iff in Hp.
  destruct Hp as (page & <- & Hin). apply filter_In in Hin. destruct Hin as [_ Hn].
  split; [|apply StockFacts.InStock_true].
  cbn [detailOf Name]. intros E. rewrite E in Hn. discriminate.
Qed.

(** A p element with the classes of a product that is sold out: the
    callback still finds it in stock. *)
Example sold_out_in_stock :
  hasClass "stock out-of-stock" "stock" = true /\
  MainFlow.trimSpace "stock out-of-stock" <> "out-of-stock".
Proof. split; [vm_compute; reflexivity | vm_compute; discriminate]. Qed.

(** X16: GetProducts returns the scraper's own slice, not a copy: in every
    state reached by detail callbacks, an assignment to an element of the
    returned slice changes the products that the scraper holds, and the
    next GetProducts returns the changed element. *)
Theorem GetProducts_shares (Time : Type) (zeroTime : Time)
    (m : gmap nat (list (ProductDetail Time))) (pages : list (DetailPage Time))
    (i : nat) (v : ProductDetail Time) (m' : gmap nat (list (ProductDetail Time))) :
  let σ := details zeroTime pages (newProducts m) in
  storeProduct (pmem σ) (GetProducts σ) i v = Some m' ->
  let σ' := {| pmem := m'; products := products σ |} in
  GetProducts σ' = GetProducts σ /\
  productElems (pmem σ') (products σ') = <[i := v]> (productElems (pmem σ) (products σ)) /\
  loadProduct (pmem σ') (GetProducts σ') i = Some v.
Proof.
  cbv zeta. intros Hst.
  pose proof (holds_details Time zeroTime pages _ [] (holds_new Time m)) as Hh.
  destruct (holds_store Time _ _ i v m' Hh Hst) as (_ & (_ & _ & He) & Hl).
  cbn [pmem products] in *. unfold GetProducts. cbn [products].
  split; [reflexivity|]. split; [|exact Hl].
  rewrite He. destruct Hh as (_ & _ & ->). reflexivity.
Qed.

(** The test product in the scraper, and an assignment to element 0 of the
    slice that GetProducts returned. *)
Lemma GetProducts_shares_witness :
  let σ := details tt [testPage] (newProducts ∅) in
  exists m',
    storeProduct (pmem σ) (GetProducts σ) 0 (zeroProduct unit tt) = Some m' /\
    loadProduct m' (GetProducts σ) 0 = Some (zeroProduct unit tt).
Proof.
  intros σ.
  assert (E : exists m',
             storeProduct (pmem σ) (GetProducts σ) 0 (zeroProduct unit tt) = Some m')
    by (eexists; vm_compute; reflexivity).
  destruct E as [m' E]. exists m'. split; [exact E|].
  apply (GetProducts_shares unit tt ∅ [testPage] 0%nat (zeroProduct unit tt) m' E).
Defined.

End ProductsFacts.

Module RetryFacts.

Import colly Scraper ScraperMore.

(** The listing collector uses its cache: NewScraper sets a cache
    directory, Visit and Retry make GET requests, and setHeaders sets
    Cache-Control to max-age=0. *)
Lemma listing_cache_used (allowedDomains : list string) (h : Header) :
  cacheUsed (CacheDir (collector (NewScraper allowedDomains))) "GET" (setHeaders h) = true.
Proof.
  unfold cacheUsed, HeaderGet, setHeaders, HeaderSet. cbv zeta.
  rewrite lookup_insert_eq. reflexivity.
Qed.

(** Without a cache the request is the one of [fetch]. *)
Lemma fetch_uncached (server : nat -> Answer) :
  forall fuel cache attempt asleep,
    fetchCached false fuel server cache attempt attempt asleep =
    fetch fuel server attempt asleep.
Proof.
  induction fuel as [|fuel IH]; intros cache attempt asleep; [reflexivity|].
  cbn [fetchCached fetch andb]. destruct (server attempt) as [|statusCode]; [reflexivity|].
  destruct (existsb isRetry (onError statusCode)); [apply IH | reflexivity].
Qed.

(** A cached 429 is replayed on every attempt: the server is not asked
    again and the request never ends. *)
Lemma cached_429_forever (server : nat -> Answer) :
  forall fuel asked attempt asleep,
    fetchCached true fuel server (Some (Failure 429)) asked attempt asleep =
    Retrying (attempt + fuel) (asleep + 5 * Second * Z.of_nat fuel).
Proof.
  induction fuel as [|fuel IH]; intros asked attempt asleep.
  - cbn [fetchCached]. f_equal; lia.
  - cbn [fetchCached cacheHit]. change (429 <? 500)%Z with true. cbv iota.
    change (existsb isRetry (onError 429)) with true. cbv iota.
    rewrite IH. change (slept (onError 429)) with (5 * Second)%Z. f_equal; lia.
Qed.

(** A URL that always answers 429 or 503 is retried without end, with the
    cache as without it. *)
Lemma fetchCached_transient (server : nat -> Answer) :
  (forall k, server k = Failure 429 \/ server k = Failure 503) ->
  forall fuel asked attempt asleep,
    fetchCached true fuel server None asked attempt asleep =
    Retrying (attempt + fuel) (asleep + 5 * Second * Z.of_nat fuel).
Proof.
  intros Hs. induction fuel as [|fuel IH]; intros asked attempt asleep.
  - cbn [fetchCached]. f_equal; lia.
  - cbn [fetchCached cacheHit andb]. destruct (Hs asked) as [-> | ->].
    + change (cacheable (Failure 429)) with true. cbv iota.
      change (existsb isRetry (onError 429)) with true. cbv iota.
      rewrite cached_429_forever. change (slept (onError 429)) with (5 * Second)%Z.
      f_equal; lia.
    + change (cacheable (Failure 503)) with false. cbv iota.
      change (existsb isRetry (onError 503)) with true. cbv iota.
      rewrite IH. change (slept (onError 503)) with (5 * Second)%Z. f_equal; lia.
Qed.

(** Answers 503 are not cached: the server is asked again. *)
Lemma fetch_503 (server : nat -> Answer) :
  forall n fuel asked attempt asleep,
    (forall k, (k < n)%nat -> server (asked + k)%nat = Failure 503) ->
    (n <= fuel)%nat ->
    fetchCached true fuel server None asked attempt asleep =
    fetchCached true (fuel - n) server None (asked + n) (attempt + n)
      (asleep + 5 * Second * Z.of_nat n).
Proof.
  induction n as [|n IH]; intros fuel asked attempt asleep H Hf.
  - rewrite Nat.sub_0_r, !Nat.add_0_r. f_equal. lia.
  - destruct fuel as [|fuel]; [lia|]. cbn [fetchCached cacheHit andb].
    pose proof (H 0%nat ltac:(lia)) as H0. rewrite Nat.add_0_r in H0. rewrite H0.
    change (cacheable (Failure 503)) with false. cbv iota.
    change (existsb isRetry (onError 503)) with true. cbv iota.
    change (slept (onError 503)) with (5 * Second)%Z.
    rewrite IH.
    + cbn [Nat.sub]. f_equal; lia.
    + intros k Hk. replace (S asked + k)%nat with (asked + S k)%nat by lia. apply H. lia.
    + lia.
Qed.

(** X17: a listing request and the cache of its collector.  Answers 503
    are retried after 5 seconds and not cached, so the server is asked
    again.  When the first answer that is not 503 is a success the request
    is done; when it is an error other than 429 the request has failed
    (logged, not retried); when it is 429 the answer goes to the cache and
    every retry is answered from there: the server is not asked again and
    the request is retried without end, whatever the server would answer.
    The same holds from the start when the cache holds a 429 of an earlier
    run.  A URL that always answers 429 or 503 is retried without end, as
    it is without a cache. *)
Theorem retry_until_answer (allowedDomains : list string) (h : Header)
    (server : nat -> Answer) (n : nat) :
  let useCache :=
    cacheUsed (CacheDir (collector (NewScraper allowedDomains))) "GET" (setHeaders h) in
  (forall k, (k < n)%nat -> server k = Failure 503) ->
  (forall fuel, (fuel <= n)%nat ->
     fetchCached useCache fuel server None 0 0 0 =
     Retrying fuel (5 * Second * Z.of_nat fuel)) /\
  (server n = Success ->
   forall fuel, (n < fuel)%nat ->
     fetchCached useCache fuel server None 0 0 0 = Done (S n)) /\
  (forall statusCode,
     server n = Failure statusCode -> statusCode <> 429%Z -> statusCode <> 503%Z ->
     forall fuel, (n < fuel)%nat ->
       fetchCached useCache fuel server None 0 0 0 = Failed (S n)) /\
  (server n = Failure 429 ->
   forall fuel,
     fetchCached useCache fuel server None 0 0 0 =
     Retrying fuel (5 * Second * Z.of_nat fuel)) /\
  (forall fuel,
     fetchCached useCache fuel server (Some (Failure 429)) 0 0 0 =
     Retrying fuel (5 * Second * Z.of_nat fuel)) /\
  (forall always,
     (forall k, always k = Failure 429 \/ always k = Failure 503) ->
     forall fuel,
       fetchCached useCache fuel always None 0 0 0 = fetch fuel always 0 0 /\
       fetch fuel always 0 0 = Retrying fuel (5 * Second * Z.of_nat fuel)).
Proof.
  cbv zeta. rewrite listing_cache_used. intros H.
  assert (Hstart : forall fuel, (n <= fuel)%nat ->
            fetchCached true fuel server None 0 0 0 =
            fetchCached true (fuel - n) server None n n (5 * Second * Z.of_nat n)).
  { intros fuel Hf. rewrite (fetch_503 server n fuel 0 0 0); [f_equal | | exact Hf].
    intros k Hk. apply H. exact Hk. }
  split; [|split; [|split; [|split; [|split]]]].
  - intros fuel Hf. rewrite (fetch_503 server fuel fuel 0 0 0).
    + rewrite Nat.sub_diag. cbn [fetchCached]. f_equal.
    + intros k Hk. apply H. cbn. lia.
    + lia.
  - intros Hs fuel Hf. rewrite Hstart by lia.
    destruct (fuel - n)%nat as [|m] eqn:E; [lia|].
    cbn [fetchCached cacheHit]. rewrite Hs. reflexivity.
  - intros statusCode Hs H1 H2 fuel Hf. rewrite Hstart by lia.
    destruct (fuel - n)%nat as [|m] eqn:E; [lia|].
    cbn [fetchCached cacheHit]. rewrite Hs.
    rewrite Retries.onError_other by assumption. reflexivity.
  - intros Hs fuel. destruct (Nat.le_gt_cases fuel n) as [Hle|Hgt].
    + rewrite (fetch_503 server fuel fuel 0 0 0).
      * rewrite Nat.sub_diag. cbn [fetchCached]. f_equal.
      * intros k Hk. apply H. cbn. lia.
      * lia.
    + rewrite Hstart by lia.
      destruct (fuel - n)%nat as [|m] eqn:E; [lia|].
      cbn [fetchCached cacheHit andb]. rewrite Hs.
      change (cacheable (Failure 429)) with true. cbv iota.
      change (existsb isRetry (onError 429)) with true. cbv iota.
      rewrite cached_429_forever. change (slept (onError 429)) with (5 * Second)%Z.
      f_equal; lia.
  - intros fuel. rewrite cached_429_forever. f_equal.
  - intros always Ha fuel.
    rewrite (fetchCached_transient always Ha), (Retries.fetch_transient always Ha).
    split; reflexivity.
Qed.

(** The server that answers 503, then 429, then the page: the page is
    never fetched. *)
Lemma retry_until_answer_witness :
  fetchCached (cacheUsed "./cache" "GET" (setHeaders ∅)) 5 recovers None 0 0 0
  = Retrying 5 (25 * Second).
Proof.
  destruct (retry_until_answer [] ∅ recovers 1) as (_ & _ & _ & H & _ & _).
  - intros k Hk. destruct k; [reflexivity | lia].
  - apply (H eq_refl 5%nat).
Defined.

End RetryFacts.


